(** * QueryDoc: segmentation (scripts/chunker.py) and index cache (web_demo.py)

    A shallow embedding of the chunking pipeline and of the per-document
    cache helpers, followed by the properties the specification states
    about them.

    Conventions.
    - A Python [str] is a list of Unicode code points ([pystr]); [len],
      slicing and [strip] follow CPython.
    - A Python [int] is a [Z].
    - A [while] loop carries fuel; [None] stands for a loop that has not
      finished within the fuel it was given.
    - Code that raises returns in the [res] type of [WebDemo]. *)

From Stdlib Require Import ZArith Lia DecimalString.
From stdpp Require Import gmap strings list fin_maps sorting.

Local Open Scope Z_scope.

(* ===================================================================== *)
(** ** Python strings *)
(* ===================================================================== *)

Module PyStr.

(** A character is its code point. *)
Definition char := N.
Definition pystr := list char.

(** An ASCII literal as a Python string. *)
Definition py (s : string) : pystr :=
  map (fun a => N.of_nat (Ascii.nat_of_ascii a)) (String.list_ascii_of_string s).

(** [len(s)] *)
Definition len (s : pystr) : Z := Z.of_nat (length s).

(** [len(l)] for a list. *)
Definition len_list {A} (l : list A) : Z := Z.of_nat (length l).

(** [c.isspace()]: the code points CPython's [_PyUnicode_IsWhitespace]
    accepts, which are the ones [str.strip()] removes. *)
Definition isspace (c : char) : bool :=
  ((9 <=? c) && (c <=? 13) || (28 <=? c) && (c <=? 32)
   || (c =? 133) || (c =? 160) || (c =? 5760)
   || (8192 <=? c) && (c <=? 8202)
   || (c =? 8232) || (c =? 8233) || (c =? 8239) || (c =? 8287)
   || (c =? 12288))%N.

(** [s.lstrip()] *)
Fixpoint lstrip (s : pystr) : pystr :=
  match s with
  | [] => []
  | c :: s' => if isspace c then lstrip s' else s
  end.

(** [s.rstrip()] *)
Definition rstrip (s : pystr) : pystr := reverse (lstrip (reverse s)).

(** [s.strip()] *)
Definition strip (s : pystr) : pystr := rstrip (lstrip s).

Definition not_space (c : char) : bool := negb (isspace c).

(** A string of white space only. *)
Definition all_space (s : pystr) : Prop := Forall (fun c => isspace c = true) s.

(** Truthiness of a string: [if s:] *)
Definition truthy (s : pystr) : bool :=
  match s with [] => false | _ :: _ => true end.

(** How a slice bound [i] is read against a sequence of length [n]:
    a negative bound counts from the end, and both are clipped. *)
Definition slice_bound (n i : Z) : Z :=
  if i <? 0 then Z.max 0 (i + n) else Z.min i n.

(** [s[start:stop]] *)
Definition slice {A} (s : list A) (start stop : Z) : list A :=
  let n := Z.of_nat (length s) in
  let lo := slice_bound n start in
  let hi := slice_bound n stop in
  take (Z.to_nat (hi - lo)) (drop (Z.to_nat lo) s).

(** [enumerate(l)], counting from [i]. *)
Fixpoint enumerate_from {A} (i : Z) (l : list A) : list (Z * A) :=
  match l with
  | [] => []
  | x :: l' => (i, x) :: enumerate_from (i + 1) l'
  end.

Definition enumerate {A} (l : list A) : list (Z * A) := enumerate_from 0 l.

End PyStr.

Import PyStr.

(* ===================================================================== *)
(** ** scripts/chunker.py *)
(* ===================================================================== *)

Module Chunker.

Definition CHUNK_SIZE : Z := 500.

(** A table-of-contents entry [(level, title, start_page)]. *)
Definition toc_entry : Type := Z * pystr * Z.

(** The title a page gets when no entry claims it: the literal
    U+AE30 U+D0C0 of the source. *)
Definition default_section : pystr := [44592%N; 53440%N].

(** The [for ... else: break] scan of [get_section_of_page]. *)
Fixpoint section_scan (page_num : Z) (toc : list toc_entry)
         (current_section : pystr) : pystr :=
  match toc with
  | [] => current_section
  | (lvl, title, start_p) :: rest =>
      if page_num + 1 >=? start_p
      then section_scan page_num rest title
      else current_section
  end.

Definition get_section_of_page (page_num : Z) (toc : list toc_entry) : pystr :=
  section_scan page_num toc default_section.

(** One emitted chunk record. *)
Record chunk_record := ChunkRecord {
  rec_file_path : pystr;
  page_idx : Z;
  section_title : pystr;
  chunk_index : Z;
  content : pystr
}.

(** The extraction record [process_extracted_file] reads. *)
Record json_data := JsonData {
  file_path : pystr;
  toc : list toc_entry;
  pages_text : list pystr
}.

Section WithCleaner.

(** [src.utils.text_cleaning.basic_clean_text] is imported by the
    chunker and defined elsewhere; the chunker is modelled over any
    such function. *)
Variable basic_clean_text : pystr -> pystr.

(** The [while start < len(text)] loop of [chunk_text], on the cleaned
    text. *)
Fixpoint chunk_loop (fuel : nat) (text : pystr) (chunk_size : Z)
         (start : Z) (chunks : list pystr) : option (list pystr) :=
  if start <? len text then
    match fuel with
    | O => None
    | S fuel' =>
        let end_ := start + chunk_size in
        let chunk_str := strip (slice text start end_) in
        let chunks' := if truthy chunk_str then chunks ++ [chunk_str]
                       else chunks in
        chunk_loop fuel' text chunk_size end_ chunks'
    end
  else Some chunks.

(** [chunk_text] with explicit fuel. *)
Definition chunk_text_fuel (fuel : nat) (text : pystr) (chunk_size : Z)
  : option (list pystr) :=
  let text := basic_clean_text text in
  chunk_loop fuel text chunk_size 0 [].

(** [chunk_text]: one unit of fuel per character of the cleaned text,
    which is as many rounds as a positive [chunk_size] can need. *)
Definition chunk_text (text : pystr) (chunk_size : Z) : option (list pystr) :=
  chunk_text_fuel (length (basic_clean_text text)) text chunk_size.

(** The inner [for c_i, c_text in enumerate(splitted)] loop. *)
Definition emit_chunks (pdf_path : pystr) (page_idx : Z)
           (section_title : pystr) (splitted : list (Z * pystr))
           (chunked_result : list chunk_record) : list chunk_record :=
  fold_left
    (fun acc '(c_i, c_text) =>
       acc ++ [ChunkRecord pdf_path page_idx section_title c_i c_text])
    splitted chunked_result.

(** The outer [for page_idx, text in enumerate(pages_text)] loop. *)
Fixpoint pages_loop (pdf_path : pystr) (toc : list toc_entry)
         (pages : list (Z * pystr)) (chunked_result : list chunk_record)
  : option (list chunk_record) :=
  match pages with
  | [] => Some chunked_result
  | (page_idx, text) :: rest =>
      let section_title := get_section_of_page page_idx toc in
      match chunk_text text CHUNK_SIZE with
      | None => None
      | Some splitted =>
          pages_loop pdf_path toc rest
            (emit_chunks pdf_path page_idx section_title
               (enumerate splitted) chunked_result)
      end
  end.

Definition process_extracted_file (d : json_data) : option (list chunk_record) :=
  let pdf_path := file_path d in
  let toc := toc d in
  let pages_text := pages_text d in
  pages_loop pdf_path toc (enumerate pages_text) [].

End WithCleaner.

End Chunker.

Import Chunker.

(* ===================================================================== *)
(** ** The segmentation in the specification's words *)
(* ===================================================================== *)

Module SegmenterSpec.

Definition toc_title (e : toc_entry) : pystr := let '(_, title, _) := e in title.
Definition toc_start (e : toc_entry) : Z := let '(_, _, start_p) := e in start_p.

(** A table-of-contents "sorted by start_page". *)
Definition toc_sorted (toc : list toc_entry) : Prop :=
  Sorted (fun a b => toc_start a <= toc_start b) toc.

(** "the last entry whose start_page <= page+1", if there is one. *)
Definition last_entry_upto (page : Z) (toc : list toc_entry) : option toc_entry :=
  last (List.filter (fun e => toc_start e <=? page + 1) toc).

(** A window as it is trimmed: the white space removed in front, what is
    kept, and the white space removed behind. *)
Definition trimmed : Type := pystr * pystr * pystr.
Definition trimmed_whole (t : trimmed) : pystr := let '(l, c, r) := t in l ++ c ++ r.
Definition trimmed_kept (t : trimmed) : pystr := let '(_, c, _) := t in c.
Definition trimmed_ok (t : trimmed) : Prop :=
  let '(l, _, r) := t in all_space l /\ all_space r.

(** The characters of [s] at the given positions exist and are not white
    space. *)
Definition no_space_at (s : pystr) (positions : list nat) : bool :=
  forallb (fun i => match s !! i with
                    | Some c => negb (isspace c)
                    | None => false
                    end) positions.

(** The table-of-contents of the end-to-end example. *)
Definition example_toc : list toc_entry :=
  [(1, py "Intro", 1); (1, py "Methods", 2)].

(** The records of [recs] that belong to page [p]. *)
Definition on_page (p : Z) (recs : list chunk_record) : list chunk_record :=
  List.filter (fun r => page_idx r =? p) recs.

(** Document order of records: by page, then by chunk index. *)
Definition rec_before (r1 r2 : chunk_record) : Prop :=
  page_idx r1 < page_idx r2
  \/ (page_idx r1 = page_idx r2 /\ chunk_index r1 < chunk_index r2).

(** "Slice the cleaned text into non-overlapping windows of the fixed
    character budget": the consecutive windows of [size] characters of
    [s], the last one holding what is left. *)
Fixpoint windows_fuel {A} (fuel size : nat) (s : list A) : list (list A) :=
  match fuel, s with
  | S fuel', _ :: _ => take size s :: windows_fuel fuel' size (drop size s)
  | _, _ => []
  end.

Definition windows {A} (size : nat) (s : list A) : list (list A) :=
  windows_fuel (length s) size s.

(** "trim each window; drop empty results". *)
Definition kept_windows (size : nat) (cleaned : pystr) : list pystr :=
  List.filter truthy (map strip (windows size cleaned)).

(** "Emit one Chunk per non-empty window, numbering windows 0..k-1 per
    page after empty-window removal": the records of one page, given the
    windows kept for it. *)
Definition page_records (pdf_path : pystr) (toc : list toc_entry)
           (page : Z) (kept : list pystr) : list chunk_record :=
  map (fun '(c_i, c_text) =>
         ChunkRecord pdf_path page (get_section_of_page page toc) c_i c_text)
      (enumerate kept).

(** The records of the pages [pages], numbered from [first]. *)
Definition pages_records (clean : pystr -> pystr) (pdf_path : pystr)
           (toc : list toc_entry) (first : Z) (pages : list pystr)
  : list chunk_record :=
  concat (map (fun '(page, text) =>
                 page_records pdf_path toc page
                   (kept_windows (Z.to_nat CHUNK_SIZE) (clean text)))
              (enumerate_from first pages)).

Definition document_records (clean : pystr -> pystr) (d : json_data)
  : list chunk_record :=
  pages_records clean (file_path d) (toc d) 0 (pages_text d).

End SegmenterSpec.

Import SegmenterSpec.

(* ===================================================================== *)
(** ** web_demo.py: the per-document cache *)
(* ===================================================================== *)

Module WebDemo.

(** Exceptions, all of them subclasses of [Exception]. *)
Inductive exn :=
| RuntimeError (msg : pystr)
| TimeoutError
| OtherException (name msg : pystr).

(** [str(e)] *)
Definition exn_str (e : exn) : pystr :=
  match e with
  | RuntimeError msg => msg
  | TimeoutError => []
  | OtherException _ msg => msg
  end.

Definition is_TimeoutError (e : exn) : bool :=
  match e with TimeoutError => true | _ => false end.

Definition is_RuntimeError (e : exn) : bool :=
  match e with RuntimeError _ => true | _ => false end.

(** [except Exception] *)
Definition is_Exception (e : exn) : bool := true.

(** How a call ends: with a value, with an exception, or not at all. *)
Inductive res (A : Type) :=
| Ok (a : A)
| Raise (e : exn)
| NoReturn.
Arguments Ok {A} a.
Arguments Raise {A} e.
Arguments NoReturn {A}.

(** How a call of a function of another module ends. *)
Inductive outcome (A : Type) :=
| Returned (a : A)
| Raised (e : exn).
Arguments Returned {A} a.
Arguments Raised {A} e.

(** A JSON value inside a Section or chunk record. *)
Inductive value :=
| VStr (s : pystr)
| VInt (n : Z)
| VVector (components : list Z).

(** A Section record, or an entry of the chunk index: a [dict] with
    string keys. *)
Definition dict := gmap pystr value.

(** The bytes of a file. *)
Definition file_content := list N.

(** Addresses of the [dict] objects in memory. *)
Definition loc := positive.

(** What [pdf_extractor.extract_pdf_content] returns: the record the
    chunker reads, and the ["sections"] entry. *)
Record extracted := Extracted {
  ex_data : json_data;
  ex_sections : list dict
}.

(** A run of the extractor on the worker thread: it ends, after so many
    seconds, with a result or an exception, or it never ends. *)
Inductive extraction :=
| Ends (duration : Z) (ending : outcome extracted)
| NeverEnds.

(** A user of [_USER_DB["users"]]. *)
Record user_record := UserRecord {
  password : pystr;
  uploads : list pystr;
  prompts : list pystr
}.

(** What the functions below read and write: the regular files and the
    directories on disk, the [dict] objects in memory, and the user
    database. *)
Record state := State {
  files : gmap pystr file_content;
  dirs : gset pystr;
  heap : gmap loc dict;
  user_db : gmap pystr user_record
}.

Definition set_files (f : gmap pystr file_content -> gmap pystr file_content) (st : state) : state :=
  State (f (files st)) (dirs st) (heap st) (user_db st).
Definition set_dirs (f : gset pystr -> gset pystr) (st : state) : state :=
  State (files st) (f (dirs st)) (heap st) (user_db st).
Definition set_heap (f : gmap loc dict -> gmap loc dict) (st : state) : state :=
  State (files st) (dirs st) (f (heap st)) (user_db st).

(** The functions of other modules and of the Python library that
    [web_demo.py] calls. *)
Class Externals := {
  (** [os.path.join], [os.path.basename], [os.path.splitext(p)[0]] *)
  path_join : pystr -> pystr -> pystr;
  path_basename : pystr -> pystr;
  path_splitext_root : pystr -> pystr;
  (** [os.path.dirname]: the directory [open] looks a file up in *)
  path_dirname : pystr -> pystr;
  (** [json.dump], [json.load], [pickle.dump], [pickle.load], on the
      contents of a file; a file holding [null] or [None] loads as
      [None] *)
  json_dump : list dict -> file_content;
  json_load : file_content -> outcome (option (list dict));
  pickle_dump : list dict -> file_content;
  pickle_load : file_content -> outcome (option (list dict));
  (** [src.utils.text_cleaning.basic_clean_text] *)
  basic_clean_text : pystr -> pystr;
  (** [pdf_extractor.extract_pdf_content], reading the files on disk *)
  extract_pdf_content : gmap pystr file_content -> pystr -> extraction;
  (** [build_index.build_chunk_index] *)
  build_chunk_index : list chunk_record -> outcome (list dict);
  (** [section_rep_builder.build_section_reps] *)
  build_section_reps : list dict -> list dict -> outcome (list dict)
}.

(** *** Stateful code that may raise *)

Definition M (A : Type) : Type := state -> res A * state.

Definition ret {A} (a : A) : M A := fun st => (Ok a, st).

Definition bind {A B} (m : M A) (k : A -> M B) : M B :=
  fun st =>
    match m st with
    | (Ok a, st') => k a st'
    | (Raise e, st') => (Raise e, st')
    | (NoReturn, st') => (NoReturn, st')
    end.

Definition raise {A} (e : exn) : M A := fun st => (Raise e, st).

(** A call of a function of another module; it leaves the state alone. *)
Definition lift {A} (r : outcome A) : M A :=
  fun st => (match r with Returned a => Ok a | Raised e => Raise e end, st).

(** A loop with fuel: no result means the loop has not finished. *)
Definition lift_loop {A} (r : option A) : M A :=
  fun st => (match r with Some a => Ok a | None => NoReturn end, st).

(** [try: body  except <class> as e: handler e] *)
Definition try_except {A} (body : M A) (caught : exn -> bool)
           (handler : exn -> M A) : M A :=
  fun st =>
    match body st with
    | (Raise e, st') => if caught e then handler e st' else (Raise e, st')
    | r => r
    end.

Declare Scope py_scope.
Delimit Scope py_scope with py.
Notation "x <- m ;; k" := (bind m (fun x => k))
  (at level 100, m at next level, right associativity) : py_scope.
Notation "m ;;; k" := (bind m (fun _ => k))
  (at level 100, right associativity) : py_scope.
Local Open Scope py_scope.

(** *** The disk *)

(** [os.path.exists(p)] *)
Definition path_exists (p : pystr) : M bool :=
  fun st => (Ok (bool_decide (p ∈ dom (files st) \/ p ∈ dirs st)), st).

(** [os.makedirs(p, exist_ok=True)] *)
Definition makedirs (p : pystr) : M unit :=
  fun st => (Ok tt, set_dirs (fun d => {[p]} ∪ d) st).

(** [with open(p, "w") as f: f.write(c)], where the code has made the
    directory of [p] itself: [data] for the user database, when the
    module is imported, and the user's directory for an upload. *)
Definition write_file (p : pystr) (c : file_content) : M unit :=
  fun st => (Ok tt, set_files (insert p c) st).

(** [with open(p) as f: f.read()]; opening what is not a regular file
    raises an [OSError]. *)
Definition read_file (p : pystr) : M file_content :=
  fun st =>
    match files st !! p with
    | Some c => (Ok c, st)
    | None => (Raise (OtherException (py "OSError") p), st)
    end.

(** *** Objects *)

(** A new [dict] object holding [d]. *)
Definition new_dict (d : dict) : M loc :=
  fun st =>
    let l := fresh (dom (heap st)) in
    (Ok l, set_heap (insert l d) st).

Fixpoint new_dicts (ds : list dict) : M (list loc) :=
  match ds with
  | [] => ret []
  | d :: ds' => l <- new_dict d ;; ls <- new_dicts ds' ;; ret (l :: ls)
  end.

(** The items of the object at [l]. *)
Definition deref (h : gmap loc dict) (l : loc) : dict := default ∅ (h !! l).

Definition get_dict (l : loc) : M dict :=
  fun st => (Ok (deref (heap st) l), st).

Definition get_dicts (ls : list loc) : M (list dict) :=
  fun st => (Ok (map (deref (heap st)) ls), st).

(** [d.copy()] *)
Definition dict_copy (l : loc) : M loc :=
  d <- get_dict l ;; new_dict d.

(** [d[k] = v] *)
Definition dict_setitem (l : loc) (k : pystr) (v : value) : M unit :=
  fun st => (Ok tt, set_heap (fun h => <[l := <[k := v]> (deref h l)]> h) st).

(** [str(n)] for an [int]. *)
Definition str_of_int (n : Z) : pystr := py (NilZero.string_of_int (Z.to_int n)).

Section WithExternals.

Context `{Externals}.

(** What [open(p, "w")] raises, if it does: [p] is a directory, or the
    directory of [p] is a regular file, or is not there. A file in the
    current directory has the empty string as its directory. *)
Definition open_error (st : state) (p : pystr) : option exn :=
  if bool_decide (p ∈ dirs st)
  then Some (OtherException (py "IsADirectoryError") p)
  else
    let parent := path_dirname p in
    if negb (truthy parent) || bool_decide (parent ∈ dirs st) then None
    else if bool_decide (parent ∈ dom (files st))
    then Some (OtherException (py "NotADirectoryError") p)
    else Some (OtherException (py "FileNotFoundError") p).

(** [with open(p, "w") as f: dump(x, f)], [c] being what the dump
    writes, for a path that the caller gives. *)
Definition open_write (p : pystr) (c : file_content) : M unit :=
  fun st =>
    match open_error st p with
    | Some e => (Raise e, st)
    | None => (Ok tt, set_files (insert p c) st)
    end.

(** Max time (seconds) allowed for [pdf_extractor.extract_pdf_content]. *)
Definition EXTRACT_TIMEOUT : Z := 120.

Definition ensure_user_dir (username : pystr) : M pystr :=
  let user_dir :=
    path_join (path_join (py "data") (py "user_uploads")) username in
  makedirs user_dir ;;;
  ret user_dir.

Definition _cache_paths (user_dir pdf_basename : pystr) : pystr * pystr :=
  let sec_path := path_join user_dir (pdf_basename ++ py "_sections.json") in
  let idx_path := path_join user_dir (pdf_basename ++ py "_index.pkl") in
  (sec_path, idx_path).

Definition _save_cache (user_dir pdf_basename : pystr)
           (sections : list loc) (chunk_index : list dict) : M unit :=
  let '(sec_path, idx_path) := _cache_paths user_dir pdf_basename in
  section_items <- get_dicts sections ;;
  open_write sec_path (json_dump section_items) ;;;
  open_write idx_path (pickle_dump chunk_index).

(** [json.load(f)] for the sections file: the records it holds become
    new objects. *)
Definition load_sections (c : file_content) : M (option (list loc)) :=
  loaded <- lift (json_load c) ;;
  match loaded with
  | Some items => ls <- new_dicts items ;; ret (Some ls)
  | None => ret None
  end.

Definition _load_cache (user_dir pdf_basename : pystr)
  : M (option (list loc) * option (list dict)) :=
  let '(sec_path, idx_path) := _cache_paths user_dir pdf_basename in
  sec_exists <- path_exists sec_path ;;
  idx_exists <- path_exists idx_path ;;
  if sec_exists && idx_exists then
    try_except
      (c_sec <- read_file sec_path ;;
       sections <- load_sections c_sec ;;
       c_idx <- read_file idx_path ;;
       chunk_index <- lift (pickle_load c_idx) ;;
       ret (sections, chunk_index))
      is_Exception
      (fun _ => ret (None, None))
  else ret (None, None).

(** [future.result(timeout=timeout)]: the worker's result if it is there
    in time, [TimeoutError] otherwise. *)
Definition future_result (run : extraction) (timeout : Z) : outcome extracted :=
  match run with
  | Ends duration ending =>
      if duration <=? timeout then ending else Raised TimeoutError
  | NeverEnds => Raised TimeoutError
  end.

(** [with concurrent.futures.ThreadPoolExecutor(max_workers=1) as ex:
    block]: leaving the block, also by an exception, is
    [ex.shutdown(wait=True)], which returns once the worker has ended;
    with a worker that never ends the statement is never left. *)
Definition with_executor {A} (run : extraction) (block : M A) : M A :=
  fun st =>
    match run with
    | Ends _ _ => block st
    | NeverEnds => (NoReturn, snd (block st))
    end.

Definition process_pdf (pdf_path user_dir : pystr) (timeout : Z)
  : M (list loc * list dict) :=
  let pdf_basename := path_splitext_root (path_basename pdf_path) in
  extracted <-
    try_except
      (fun st =>
         let run := extract_pdf_content (files st) pdf_path in
         with_executor run (lift (future_result run timeout)) st)
      is_TimeoutError
      (fun _ => raise (RuntimeError (py "PDF extraction timed out (over 2 minutes)."))) ;;
  chunks <- lift_loop (process_extracted_file basic_clean_text (ex_data extracted)) ;;
  chunk_index <- lift (build_chunk_index chunks) ;;
  section_items <- lift (build_section_reps (ex_sections extracted) chunk_index) ;;
  sections <- new_dicts section_items ;;
  _save_cache user_dir pdf_basename sections chunk_index ;;;
  ret (sections, chunk_index).

(** What [load_existing_pdf] and [load_all_cached_pdfs] return:
    [(sections, chunk_index, msg)]. *)
Definition loaded : Type := option (list loc) * option (list dict) * pystr.

Definition load_existing_pdf (selected_name username : pystr) : M loaded :=
  if negb (truthy username) then ret (None, None, py "Please log in first.")
  else if negb (truthy selected_name) then ret (None, None, py "No previous PDF selected.")
  else
    user_dir <- ensure_user_dir username ;;
    let pdf_path := path_join user_dir selected_name in
    pdf_exists <- path_exists pdf_path ;;
    if negb pdf_exists then ret (None, None, py "File not found.")
    else
      let pdf_basename := path_splitext_root selected_name in
      cached <- _load_cache user_dir pdf_basename ;;
      let '(sections, chunk_index) := cached in
      match sections, chunk_index with
      | Some sections, Some chunk_index =>
          ret (Some sections, Some chunk_index,
               py "Loaded cached data for " ++ selected_name)
      | _, _ =>
          try_except
            (built <- process_pdf pdf_path user_dir EXTRACT_TIMEOUT ;;
             let '(sections, chunk_index) := built in
             ret (Some sections, Some chunk_index, py "Processed " ++ selected_name))
            is_RuntimeError
            (fun e => ret (None, None, exn_str e))
      end.

(** The [for sec in sections] loop of [load_all_cached_pdfs]. *)
Fixpoint tag_sections (sections : list loc) (pdf_basename : pystr)
         (tagged_sections : list loc) : M (list loc) :=
  match sections with
  | [] => ret tagged_sections
  | sec :: rest =>
      sec_copy <- dict_copy sec ;;
      dict_setitem sec_copy (py "file_name") (VStr pdf_basename) ;;;
      tag_sections rest pdf_basename (tagged_sections ++ [sec_copy])
  end.

(** The [for pdf_path in uploads] loop of [load_all_cached_pdfs]. *)
Fixpoint load_all_loop (user_dir : pystr) (uploads : list pystr)
         (all_sections : list loc) (all_chunks : list dict)
  : M (list loc * list dict) :=
  match uploads with
  | [] => ret (all_sections, all_chunks)
  | pdf_path :: rest =>
      let pdf_basename := path_splitext_root (path_basename pdf_path) in
      cached <- _load_cache user_dir pdf_basename ;;
      let '(sections, chunk_index) := cached in
      match sections, chunk_index with
      | Some sections, Some chunk_index =>
          tagged_sections <- tag_sections sections pdf_basename [] ;;
          load_all_loop user_dir rest
            (all_sections ++ tagged_sections) (all_chunks ++ chunk_index)
      | _, _ => load_all_loop user_dir rest all_sections all_chunks
      end
  end.

(** [_USER_DB["users"].get(username, {}).get("uploads", [])] *)
Definition get_uploads (username : pystr) : M (list pystr) :=
  fun st =>
    (Ok (match user_db st !! username with
         | Some u => uploads u
         | None => []
         end), st).

Definition load_all_cached_pdfs (username : pystr) : M loaded :=
  if negb (truthy username) then ret (None, None, py "Please log in first.")
  else
    user_dir <- ensure_user_dir username ;;
    uploads <- get_uploads username ;;
    match uploads with
    | [] => ret (None, None, py "No cached PDFs were found.")
    | _ :: _ =>
        cached <- load_all_loop user_dir uploads [] [] ;;
        let '(all_sections, all_chunks) := cached in
        match all_sections with
        | [] => ret (None, None, py "No cached data found. Process PDFs first.")
        | _ :: _ =>
            let msg :=
              py "Loaded cached data for " ++ str_of_int (len_list all_sections)
              ++ py " sections across " ++ str_of_int (len_list uploads)
              ++ py " PDFs" in
            ret (Some all_sections, Some all_chunks, msg)
        end
    end.

End WithExternals.

End WebDemo.

(* ===================================================================== *)
(** ** The index cache in the specification's words *)
(* ===================================================================== *)

Module IndexCacheSpec.

Import WebDemo.

(** The disk and the user database are as they were. *)
Definition same_disk (st st' : state) : Prop :=
  files st' = files st /\ dirs st' = dirs st /\ user_db st' = user_db st.

(** The objects at [ls] hold, in order, the records [ds]. *)
Definition holds (h : gmap loc dict) (ls : list loc) (ds : list dict) : Prop :=
  Forall2 (fun l d => h !! l = Some d) ls ds.

Section OverExternals.

Context `{Externals}.

Definition timeout_message : pystr :=
  py "PDF extraction timed out (over 2 minutes).".

Definition user_dir_of (username : pystr) : pystr :=
  path_join (path_join (py "data") (py "user_uploads")) username.

(** "if either is missing/corrupt": one of the two files is not there to
    be read, or its load raises. *)
Definition cache_unreadable (st : state) (user_dir pdf_basename : pystr) : Prop :=
  let sec_path := fst (_cache_paths user_dir pdf_basename) in
  let idx_path := snd (_cache_paths user_dir pdf_basename) in
  files st !! sec_path = None
  \/ files st !! idx_path = None
  \/ (exists c e, files st !! sec_path = Some c /\ json_load c = Raised e)
  \/ (exists c e, files st !! idx_path = Some c /\ pickle_load c = Raised e).

(** "the whole index is treated as absent and rebuilt": what
    [load_existing_pdf] makes of a run of [process_pdf]. *)
Definition rebuild_result (selected_name : pystr)
           (r : res (list loc * list dict) * state) : res loaded * state :=
  match r with
  | (Ok (sections, chunk_index), st) =>
      (Ok (Some sections, Some chunk_index, py "Processed " ++ selected_name), st)
  | (Raise (RuntimeError msg), st) => (Ok (None, None, msg), st)
  | (Raise e, st) => (Raise e, st)
  | (NoReturn, st) => (NoReturn, st)
  end.

(** The index cached for a document, when both files load and neither
    holds [None]. *)
Definition cached_index (fs : gmap pystr file_content) (user_dir pdf_basename : pystr)
  : option (list dict * list dict) :=
  let '(sec_path, idx_path) := _cache_paths user_dir pdf_basename in
  match fs !! sec_path, fs !! idx_path with
  | Some c_sec, Some c_idx =>
      match json_load c_sec, pickle_load c_idx with
      | Returned (Some sections), Returned (Some chunk_index) =>
          Some (sections, chunk_index)
      | _, _ => None
      end
  | _, _ => None
  end.

(** A Section record "with a document-tag attribute added". *)
Definition tag_section (pdf_basename : pystr) (sec : dict) : dict :=
  <[py "file_name" := VStr pdf_basename]> sec.

(** "the concatenation of several documents' Sections and Chunks", over
    the documents of [uploads] that have a cached index, in that order. *)
Definition merged_sections (fs : gmap pystr file_content) (user_dir : pystr)
           (uploads : list pystr) : list dict :=
  concat (map (fun pdf_path =>
                 let pdf_basename := path_splitext_root (path_basename pdf_path) in
                 match cached_index fs user_dir pdf_basename with
                 | Some (sections, _) => map (tag_section pdf_basename) sections
                 | None => []
                 end) uploads).

Definition merged_chunks (fs : gmap pystr file_content) (user_dir : pystr)
           (uploads : list pystr) : list dict :=
  concat (map (fun pdf_path =>
                 let pdf_basename := path_splitext_root (path_basename pdf_path) in
                 match cached_index fs user_dir pdf_basename with
                 | Some (_, chunk_index) => chunk_index
                 | None => []
                 end) uploads).

Definition uploads_of (st : state) (username : pystr) : list pystr :=
  match user_db st !! username with
  | Some u => uploads u
  | None => []
  end.

End OverExternals.

(** Two sets of collaborators that read the disk alike: the same path
    functions and the same loaders, whatever their extractor, cleaner,
    index builder and section builder. *)
Definition same_readers (E1 E2 : Externals) : Prop :=
  @path_join E1 = @path_join E2
  /\ @path_basename E1 = @path_basename E2
  /\ @path_splitext_root E1 = @path_splitext_root E2
  /\ @json_load E1 = @json_load E2
  /\ @pickle_load E1 = @pickle_load E2.

End IndexCacheSpec.

(* ===================================================================== *)
(** ** A small instance to run the code on *)
(* ===================================================================== *)

Module Toy.

Import WebDemo.

(** The prefix of [s] before the first [sep]. *)
Fixpoint before (sep : char) (s : pystr) : pystr :=
  match s with
  | [] => []
  | c :: s' => if (c =? sep)%N then [] else c :: before sep s'
  end.

Definition slash : char := 47%N.
Definition dot : char := 46%N.

(** [s] without the slashes it starts with. *)
Fixpoint dropwhile_slash (s : pystr) : pystr :=
  match s with
  | [] => []
  | c :: s' => if (c =? slash)%N then dropwhile_slash s' else s
  end.

(** [posixpath.join(a, b)] *)
Definition posix_join (a b : pystr) : pystr :=
  match b with
  | c :: _ => if (c =? slash)%N then b
              else match last a with
                   | None => b
                   | Some d => if (d =? slash)%N then a ++ b else a ++ slash :: b
                   end
  | [] => match last a with
          | None => []
          | Some d => if (d =? slash)%N then a else a ++ [slash]
          end
  end.

(** [posixpath.basename(p)] *)
Definition posix_basename (p : pystr) : pystr :=
  reverse (before slash (reverse p)).

(** [posixpath.dirname(p)]: [p] up to its last slash, without the
    slashes that end it unless it holds nothing else. *)
Definition posix_dirname (p : pystr) : pystr :=
  let head := take (length p - length (before slash (reverse p))) p in
  if forallb (fun c => (c =? slash)%N) head then head
  else reverse (dropwhile_slash (reverse head)).

(** [posixpath.splitext(p)[0]]: [p] without its last extension; dots
    that start the file name do not start an extension. *)
Definition posix_splitext_root (p : pystr) : pystr :=
  let name_rev := before slash (reverse p) in
  let ext_rev := before dot name_rev in
  if (length ext_rev =? length name_rev)%nat then p
  else
    let stem_rev := drop (S (length ext_rev)) name_rev in
    if forallb (fun c => (c =? dot)%N) stem_rev then p
    else take (length p - S (length ext_rev)) p.

(** Modelled from the spec: [basic_clean_text], whose module
    [src/utils/text_cleaning.py] is not among the sources; "Clean the
    page text (collapse whitespace / normalize)". Runs of white space
    become one blank, and the ends are trimmed. *)
Fixpoint collapse_spaces (after_space : bool) (s : pystr) : pystr :=
  match s with
  | [] => []
  | c :: s' =>
      if isspace c
      then (if after_space then collapse_spaces true s'
            else 32%N :: collapse_spaces true s')
      else c :: collapse_spaces false s'
  end.

Definition clean_text (s : pystr) : pystr := strip (collapse_spaces false s).

(** A file format for the two cache files: the byte 0 alone stands for
    [None]; the byte 1 starts a list of records, one byte each, a record
    being [{"id": byte}]; anything else does not load. *)
Definition toy_record (b : N) : dict := {[ py "id" := VInt (Z.of_N b) ]}.

Definition toy_byte (d : dict) : N :=
  match d !! py "id" with
  | Some (VInt n) => Z.to_N n
  | _ => 0%N
  end.

Definition toy_dump (ds : list dict) : file_content := 1%N :: map toy_byte ds.

Definition toy_load (c : file_content) : outcome (option (list dict)) :=
  match c with
  | [0%N] => Returned None
  | 1%N :: bytes => Returned (Some (map toy_record bytes))
  | _ => Raised (OtherException (py "ValueError") (py "cannot load"))
  end.

(** An extractor that takes one second per byte of the PDF and returns
    its bytes as the text of a single page. *)
Definition toy_extract (fs : gmap pystr file_content) (pdf_path : pystr) : extraction :=
  match fs !! pdf_path with
  | Some bytes =>
      Ends (Z.of_nat (length bytes))
        (Returned (Extracted (JsonData pdf_path [] [bytes]) []))
  | None =>
      Ends 0 (Raised (OtherException (py "FileNotFoundError") pdf_path))
  end.

Definition toy : Externals := {|
  path_join := posix_join;
  path_basename := posix_basename;
  path_splitext_root := posix_splitext_root;
  path_dirname := posix_dirname;
  json_dump := toy_dump;
  json_load := toy_load;
  pickle_dump := toy_dump;
  pickle_load := toy_load;
  basic_clean_text := clean_text;
  extract_pdf_content := toy_extract;
  build_chunk_index := fun chunks =>
    Returned (map (fun r => {[ py "content" := VStr (Chunker.content r) ]}) chunks);
  build_section_reps := fun sections _ => Returned sections
|}.

(** As [toy], with an extractor that never returns. *)
Definition stuck : Externals := {|
  path_join := posix_join;
  path_basename := posix_basename;
  path_splitext_root := posix_splitext_root;
  path_dirname := posix_dirname;
  json_dump := toy_dump;
  json_load := toy_load;
  pickle_dump := toy_dump;
  pickle_load := toy_load;
  basic_clean_text := clean_text;
  extract_pdf_content := fun _ _ => NeverEnds;
  build_chunk_index := fun chunks =>
    Returned (map (fun r => {[ py "content" := VStr (Chunker.content r) ]}) chunks);
  build_section_reps := fun sections _ => Returned sections
|}.

Definition alice : pystr := py "alice".
Definition alice_dir : pystr := py "data/user_uploads/alice".

(** Alice has uploaded [a.pdf] and [b.pdf]. The cache of [a.pdf] holds
    no Section record and one chunk; the sections file of [b.pdf] does
    not load. *)
Definition disk0 : gmap pystr file_content :=
  list_to_map
    [ (py "data/user_uploads/alice/a.pdf", [37; 80; 68; 70]%N);
      (py "data/user_uploads/alice/a_sections.json", [1]%N);
      (py "data/user_uploads/alice/a_index.pkl", [1; 7]%N);
      (py "data/user_uploads/alice/b.pdf", replicate 121 37%N);
      (py "data/user_uploads/alice/b_sections.json", [9]%N);
      (py "data/user_uploads/alice/b_index.pkl", [1; 8]%N) ].

Definition users0 : gmap pystr user_record :=
  {[ alice := UserRecord (py "$2b$hash")
                [py "data/user_uploads/alice/a.pdf";
                 py "data/user_uploads/alice/b.pdf"] [] ]}.

Definition state0 : state := State disk0 {[ alice_dir ]} ∅ users0.

(** The same, with a cache of [b.pdf] that loads: two Section records
    and one chunk. *)
Definition state1 : state :=
  set_files (insert (py "data/user_uploads/alice/b_sections.json") [1; 5; 6]%N)
    state0.

(** A table of contents that starts on the third page, and two pages
    for the segmenter. *)
Definition late_toc : list toc_entry :=
  [(1, py "Intro", 3); (1, py "Methods", 5)].

Definition page0 : pystr := py "  " ++ replicate 1200 97%N ++ py "  ".
Definition page1 : pystr := replicate 300 98%N.

End Toy.

(* ===================================================================== *)
(** ** Words for further properties of the segmenter *)
(* ===================================================================== *)

(** A record without its section title. *)
Definition without_title (r : chunk_record) : pystr * Z * Z * pystr :=
  (rec_file_path r, page_idx r, chunk_index r, content r).

(* ===================================================================== *)
(** ** web_demo.py: users, uploads and questions *)
(* ===================================================================== *)

Module WebApp.

Import WebDemo.
Local Open Scope py_scope.

(** [s.startswith(prefix)] *)
Fixpoint startswith (s prefix : pystr) : bool :=
  match prefix, s with
  | [], _ => true
  | p :: prefix', c :: s' => (c =? p)%N && startswith s' prefix'
  | _ :: _, [] => false
  end.

(** [a == b] on strings *)
Definition str_eqb (a b : pystr) : bool := bool_decide (a = b).

(** [x in l] *)
Definition str_in (x : pystr) (l : list pystr) : bool := bool_decide (x ∈ l).

(** [l.remove(x)], for an [x] that is in [l]: the first occurrence goes. *)
Fixpoint list_remove (x : pystr) (l : list pystr) : list pystr :=
  match l with
  | [] => []
  | y :: l' => if str_eqb y x then l' else y :: list_remove x l'
  end.

(** [s.split(sep)] for a separator that is not empty: the pieces between
    the occurrences of [sep] found from left to right; [cur] is the piece
    being read. One unit of fuel per character is enough. *)
Fixpoint split_fuel (fuel : nat) (sep cur s : pystr) : list pystr :=
  match fuel with
  | O => [cur ++ s]
  | S fuel' =>
      match s with
      | [] => [cur]
      | c :: s' =>
          if startswith s sep
          then cur :: split_fuel fuel' sep [] (drop (length sep) s)
          else split_fuel fuel' sep (cur ++ [c]) s'
      end
  end.

Definition split (s sep : pystr) : list pystr := split_fuel (length s) sep [] s.

(** [s.replace(old, new)] for an [old] that is not empty. *)
Fixpoint replace_fuel (fuel : nat) (old new s : pystr) : pystr :=
  match fuel with
  | O => s
  | S fuel' =>
      match s with
      | [] => []
      | c :: s' =>
          if startswith s old
          then new ++ replace_fuel fuel' old new (drop (length old) s)
          else c :: replace_fuel fuel' old new s'
      end
  end.

Definition replace (s old new : pystr) : pystr := replace_fuel (length s) old new s.

(** [l[0]] and [l[-1]] of a list of strings that is not empty. *)
Definition first_piece (l : list pystr) : pystr := default [] (head l).
Definition last_piece (l : list pystr) : pystr := default [] (last l).

(** What [gr.update(...)] carries: the keyword arguments given. *)
Record gr_update := GrUpdate {
  upd_visible : option bool;
  upd_value : option (option pystr);
  upd_choices : option (list pystr)
}.

(** The functions of [src.utils.auth] and [src.chatbot], and
    [json.dump] on the user database. [hash_password] salts the hash: it
    is a function of the entropy it draws as well. *)
Class AppExternals := {
  hash_password : nat -> pystr -> pystr;
  verify_password : pystr -> pystr -> bool;
  user_db_dump : gmap pystr user_record -> file_content;
  (** [PDFChatBot(sections, chunk_index, system_prompt=prompt)
        .answer(question, fine_only=fine_only)] *)
  chat_answer : list dict -> list dict -> pystr -> pystr -> bool -> outcome pystr
}.

(** The state of the application: the disk, the objects and [_USER_DB]
    as before, the dictionary [USERS] of stored password hashes, and the
    entropy the next salt is drawn from. *)
Record app_state := App {
  world : state;
  USERS : gmap pystr pystr;
  entropy : nat
}.

Definition MA (A : Type) : Type := app_state -> res A * app_state.

Definition retA {A} (a : A) : MA A := fun ap => (Ok a, ap).

Definition bindA {A B} (m : MA A) (k : A -> MA B) : MA B :=
  fun ap =>
    match m ap with
    | (Ok a, ap') => k a ap'
    | (Raise e, ap') => (Raise e, ap')
    | (NoReturn, ap') => (NoReturn, ap')
    end.

(** Code that only needs the disk, the objects and [_USER_DB]. *)
Definition in_world {A} (m : M A) : MA A :=
  fun ap =>
    let '(r, st) := m (world ap) in
    (r, App st (USERS ap) (entropy ap)).

(** [try: body  except <class> as e: handler e] *)
Definition try_exceptA {A} (body : MA A) (caught : exn -> bool)
           (handler : exn -> MA A) : MA A :=
  fun ap =>
    match body ap with
    | (Raise e, ap') => if caught e then handler e ap' else (Raise e, ap')
    | r => r
    end.

Declare Scope app_scope.
Delimit Scope app_scope with app.
Notation "x <- m ;; k" := (bindA m (fun x => k))
  (at level 100, m at next level, right associativity) : app_scope.
Notation "m ;;; k" := (bindA m (fun _ => k))
  (at level 100, right associativity) : app_scope.

(** [except OSError] *)
Definition is_OSError (e : exn) : bool :=
  match e with
  | OtherException name _ =>
      str_eqb name (py "OSError") || str_eqb name (py "FileNotFoundError")
      || str_eqb name (py "SameFileError")
  | _ => false
  end.

(** [os.remove(p)]: what is not a regular file cannot be removed. *)
Definition remove_file (p : pystr) : M unit :=
  fun st =>
    match files st !! p with
    | Some _ => (Ok tt, set_files (delete p) st)
    | None => (Raise (OtherException (py "OSError") p), st)
    end.

Definition set_user_db (f : gmap pystr user_record -> gmap pystr user_record)
           (st : state) : state :=
  State (files st) (dirs st) (heap st) (f (user_db st)).

Definition DEFAULT_PROMPT : pystr :=
  py "You are an assistant chatbot trained to answer questions. ."
  ++ [10%N]
  ++ py "You must answer questions using only the information found "
  ++ py "in the uploaded reference document. "
  ++ [10%N]
  ++ py "Do not invent or assume facts. If the answer is not "
  ++ py "available in the document, clearly state: "
  ++ [8220%N]
  ++ py "The answer to your question is not found in the provided "
  ++ py "document."
  ++ [8221%N]
  ++ [10%N]
  ++ py "Your responses should be accurate, clear, concise, and "
  ++ py "professional"
  ++ [8212%N]
  ++ py "suitable. "
  ++ [10%N]
  ++ py "Cite the section explicitly in your answer."
  ++ [10%N]
  ++ py "Paraphrasing is allowed, but always stay faithful to the "
  ++ py "document content."
  ++ [10%N]
  ++ py "Do not summarize the entire document or explain concepts "
  ++ py "not mentioned in the file."
  ++ [10%N].

Section WithApp.

Context `{Externals} `{AppExternals}.
Local Open Scope app_scope.

Definition USER_DB_PATH : pystr := path_join (py "data") (py "user_db.json").

Definition _save_user_db : MA unit :=
  in_world (fun st => write_file USER_DB_PATH (user_db_dump (user_db st)) st).

(** A call of [hash_password]. *)
Definition call_hash_password (password : pystr) : MA pystr :=
  fun ap =>
    (Ok (hash_password (entropy ap) password),
     App (world ap) (USERS ap) (S (entropy ap))).

Definition authenticate (username password : pystr) : MA bool :=
  fun ap =>
    (Ok (match USERS ap !! username with
         | None => false
         | Some stored_hash =>
             if startswith stored_hash (py "$2b$")
             then verify_password password stored_hash
             else str_eqb stored_hash password
         end), ap).

Definition login (username password : pystr) : MA (bool * pystr * pystr) :=
  authenticated <- authenticate username password ;;
  if authenticated then retA (true, username, py "Login successful.")
  else
    fun ap =>
      match USERS ap !! username with
      | None =>
          (hashed_pwd <- call_hash_password password ;;
           (fun ap1 =>
              (Ok tt,
               App (set_user_db (insert username (UserRecord hashed_pwd [] []))
                      (world ap1))
                   (<[username := hashed_pwd]> (USERS ap1)) (entropy ap1))) ;;;
           _save_user_db ;;;
           retA (true, username, py "New user created and logged in.")) ap
      | Some _ => (Ok (false, [], py "Invalid credentials."), ap)
      end.

(** [_USER_DB["users"].get(uid, {}).get(key, [])] *)
Definition user_prompts (st : state) (uid : pystr) : list pystr :=
  match user_db st !! uid with Some u => prompts u | None => [] end.

Definition user_uploads (st : state) (uid : pystr) : list pystr :=
  match user_db st !! uid with Some u => uploads u | None => [] end.

Definition login_and_prepare (username password : pystr)
  : MA (bool * pystr * pystr * gr_update * gr_update * gr_update) :=
  logged <- login username password ;;
  let '(success, uid, msg) := logged in
  fun ap =>
    let main_area_update := GrUpdate (Some success) None None in
    let prompt_val :=
      if success
      then match last (user_prompts (world ap) uid) with
           | Some p => p
           | None => DEFAULT_PROMPT
           end
      else DEFAULT_PROMPT in
    let prompt_update := GrUpdate None (Some (Some prompt_val)) None in
    let uploads := if success then user_uploads (world ap) uid else [] in
    let dropdown_update :=
      GrUpdate None (Some (path_basename <$> head uploads))
        (Some (map path_basename uploads)) in
    (Ok (success, uid, msg, main_area_update, prompt_update, dropdown_update), ap).

(** [shutil.copy(src, dst)] *)
Definition shutil_copy (src dst : pystr) : M unit :=
  fun st =>
    match files st !! src with
    | None => (Raise (OtherException (py "FileNotFoundError") src), st)
    | Some c =>
        let target :=
          if bool_decide (dst ∈ dirs st) then path_join dst (path_basename src)
          else dst in
        if str_eqb src target
        then (Raise (OtherException (py "SameFileError") src), st)
        else if bool_decide (target ∈ dirs st)
        then (Raise (OtherException (py "OSError") target), st)
        else write_file target c st
    end.

(** The [with _DB_LOCK] block of [load_pdf]. *)
Definition record_upload (username dest_path system_prompt : pystr) : MA unit :=
  default_hash <- call_hash_password (py "default") ;;
  (fun ap =>
     let fresh_record :=
       UserRecord (default default_hash (USERS ap !! username)) [] [] in
     let user_record := default fresh_record (user_db (world ap) !! username) in
     let uploads' :=
       if str_in dest_path (uploads user_record) then uploads user_record
       else uploads user_record ++ [dest_path] in
     let prompts' :=
       if truthy system_prompt && negb (str_in system_prompt (prompts user_record))
       then prompts user_record ++ [system_prompt]
       else prompts user_record in
     (Ok tt,
      App (set_user_db
             (insert username (UserRecord (password user_record) uploads' prompts'))
             (world ap))
          (USERS ap) (entropy ap))) ;;;
  _save_user_db.

Definition load_pdf (pdf_file : option pystr) (system_prompt username : pystr)
  : MA loaded :=
  if negb (truthy username) then retA (None, None, py "Please log in first.")
  else
    match pdf_file with
    | None => retA (None, None, py "Please upload a PDF.")
    | Some pdf_file_name =>
        user_dir <- in_world (ensure_user_dir username) ;;
        let dest_path := path_join user_dir (path_basename pdf_file_name) in
        in_world (shutil_copy pdf_file_name dest_path) ;;;
        processed <-
          try_exceptA
            (built <- in_world (process_pdf dest_path user_dir EXTRACT_TIMEOUT) ;;
             retA (inl built))
            is_RuntimeError
            (fun e => retA (inr (exn_str e))) ;;
        match processed with
        | inr message => retA (None, None, message)
        | inl (sections, chunk_index) =>
            let msg := py "Processed " ++ path_basename dest_path in
            record_upload username dest_path system_prompt ;;;
            retA (Some sections, Some chunk_index, msg)
        end
    end.

(** The [for p in (sec_path, idx_path)] loop of [delete_cached_pdf]. *)
Fixpoint remove_cached (paths : list pystr) : M unit :=
  match paths with
  | [] => ret tt
  | p :: rest =>
      (p_exists <- path_exists p ;;
       removed <- (if p_exists
                   then try_except (remove_file p) is_OSError (fun _ => ret tt)
                   else ret tt) ;;
       remove_cached rest)%py
  end.

Definition delete_cached_pdf (selected_name username : pystr)
  : MA (option (list loc) * option (list dict) * gr_update * pystr) :=
  let no_update := GrUpdate None None None in
  if negb (truthy username)
  then retA (None, None, no_update, py "Please log in first.")
  else if negb (truthy selected_name)
  then retA (None, None, no_update, py "No PDF selected.")
  else
    user_dir <- in_world (ensure_user_dir username) ;;
    let pdf_path := path_join user_dir selected_name in
    pdf_exists <- in_world (path_exists pdf_path) ;;
    if negb pdf_exists then retA (None, None, no_update, py "File not found.")
    else
      removed <-
        try_exceptA
          (in_world (remove_file pdf_path) ;;; retA None)
          is_OSError
          (fun e => retA (Some (py "Delete failed: " ++ exn_str e))) ;;
      match removed with
      | Some message => retA (None, None, no_update, message)
      | None =>
          let pdf_basename := path_splitext_root selected_name in
          let '(sec_path, idx_path) := _cache_paths user_dir pdf_basename in
          in_world (remove_cached [sec_path; idx_path]) ;;;
          uploads <-
            (fun ap =>
               let uploads := user_uploads (world ap) username in
               let uploads' :=
                 if str_in pdf_path uploads then list_remove pdf_path uploads
                 else uploads in
               (Ok uploads',
                App (set_user_db
                       (fun db =>
                          match db !! username with
                          | Some u =>
                              <[username := UserRecord (password u) uploads' (prompts u)]> db
                          | None => db
                          end)
                       (world ap))
                    (USERS ap) (entropy ap))) ;;
          _save_user_db ;;;
          let choices : option (list pystr) := Some (map path_basename uploads) in
          let dropdown_update :=
            GrUpdate None (Some (head (default [] choices))) choices in
          let msg :=
            match choices with
            | Some _ => py "Deleted " ++ selected_name
            | None => py "All PDFs deleted."
            end in
          retA (None, None, dropdown_update, msg)
      end.

(** What [ask_question] returns: one message, or the answer and the
    references. *)
Inductive asked :=
| Refused (message : pystr)
| Answered (answer_output reference_output : pystr).

(** The post-processing of the model's text in [ask_question]. *)
Definition finish_answer (answer : pystr) : pystr * pystr :=
  let answer :=
    replace answer (py "<|endoftext|><|im_start|>user") (py "=== System Prompt ===") in
  let answer :=
    replace answer (py "<|im_end|>" ++ [10%N] ++ py "<|im_start|>assistant") [] in
  let answer := replace answer (py "<|im_end|>") [] in
  let answer_output := strip (last_piece (split answer (py "=== Answer ==="))) in
  let reference_output :=
    strip (last_piece
             (split (strip (first_piece (split answer (py "=== User Question ==="))))
                (py "=== Document Context ==="))) in
  (answer_output, reference_output).

Definition ask_question (question : pystr) (sections : option (list loc))
           (chunk_index : option (list dict)) (system_prompt username : pystr)
           (use_index : bool) : M asked :=
  (let fine_only := negb use_index in
   if negb (truthy username) then ret (Refused (py "Please log in first."))
   else
     match sections, chunk_index with
     | Some sections, Some chunk_index =>
         let prompt := if truthy system_prompt then system_prompt else DEFAULT_PROMPT in
         section_items <- get_dicts sections ;;
         answer <- lift (chat_answer section_items chunk_index prompt question fine_only) ;;
         let '(answer_output, reference_output) := finish_answer answer in
         ret (Answered answer_output reference_output)
     | _, _ => ret (Refused (py "Please upload and process a PDF first."))
     end)%py.

End WithApp.

End WebApp.

(* ===================================================================== *)
(** ** Words for the properties of users, uploads and answers *)
(* ===================================================================== *)

Module WebAppSpec.

Import WebDemo IndexCacheSpec WebApp.

(** [USERS] holds the password of every user of [_USER_DB], and nothing
    else. *)
Definition users_agree (ap : app_state) : Prop :=
  USERS ap = password <$> user_db (world ap).

(** [sep] occurs in [s]. *)
Definition occurs (sep s : pystr) : Prop := exists a b, s = a ++ sep ++ b.

(** No occurrence of [sep] in [cur ++ s] starts inside [cur]. *)
Definition no_early (sep cur s : pystr) : Prop :=
  forall a b, cur ++ s = a ++ sep ++ b -> (length cur <= length a)%nat.

(** The model's text once [ask_question] has rewritten the chat-template
    tokens. *)
Definition without_tokens (answer : pystr) : pystr :=
  let answer :=
    replace answer (py "<|endoftext|><|im_start|>user") (py "=== System Prompt ===") in
  let answer :=
    replace answer (py "<|im_end|>" ++ [10%N] ++ py "<|im_start|>assistant") [] in
  replace answer (py "<|im_end|>") [].

(** [tail] holds no [sep] and is what follows an occurrence of [sep] in
    [s], or all of [s] when [sep] does not occur in it. *)
Definition cut_after (sep s tail : pystr) : Prop :=
  not (occurs sep tail) /\
  ((not (occurs sep s) /\ tail = s) \/ exists pre, s = pre ++ sep ++ tail).

(** [head] holds no [sep] and is what precedes an occurrence of [sep]
    in [s], or all of [s] when [sep] does not occur in it. *)
Definition cut_before (sep s head : pystr) : Prop :=
  not (occurs sep head) /\
  ((not (occurs sep s) /\ head = s) \/ exists post, s = head ++ sep ++ post).

Section OverApp.

Context `{Externals} `{AppExternals}.

(** The state once [load_pdf] has made the user's directory and copied
    the upload [c] to [dest_path]. *)
Definition with_upload (st : state) (username dest_path : pystr)
           (c : file_content) : state :=
  set_files (insert dest_path c)
    (set_dirs (fun d => {[ user_dir_of username ]} ∪ d) st).

(** The record a user has, or would be given by [load_pdf]. *)
Definition record_or_default (ap : app_state) (username : pystr) : user_record :=
  default
    (UserRecord
       (default (hash_password (entropy ap) (py "default")) (USERS ap !! username))
       [] [])
    (user_db (world ap) !! username).

(** An upload that [load_pdf] can copy: the user is logged in, the
    uploaded file [c] is there under [pdf_file_name], and the place it
    goes to is neither a directory nor the uploaded file itself. *)
Definition upload_ready (ap : app_state) (username pdf_file_name : pystr)
           (c : file_content) : Prop :=
  let user_dir := user_dir_of username in
  let dest_path := path_join user_dir (path_basename pdf_file_name) in
  truthy username = true
  /\ files (world ap) !! pdf_file_name = Some c
  /\ (dest_path ∉ dirs (world ap)) /\ dest_path <> user_dir
  /\ pdf_file_name <> dest_path.

(** [_USER_DB] once the first entry for [pdf_path] is off the upload
    list of [username]. *)
Definition db_without (st : state) (username pdf_path : pystr)
  : gmap pystr user_record :=
  match user_db st !! username with
  | Some u =>
      <[username := UserRecord (password u)
                      (list_remove pdf_path (uploads u)) (prompts u)]> (user_db st)
  | None => user_db st
  end.

(** Whether [authenticate] accepts [password] against [stored_hash]. *)
Definition accepts (stored_hash password : pystr) : bool :=
  if startswith stored_hash (py "$2b$")
  then verify_password password stored_hash
  else str_eqb stored_hash password.

(** Appending what is not there yet. *)
Definition add_once (x : pystr) (l : list pystr) : list pystr :=
  if str_in x l then l else l ++ [x].

End OverApp.

End WebAppSpec.

(* ===================================================================== *)
(** ** A second small instance *)
(* ===================================================================== *)

Module Toy2.

Import WebDemo WebApp Toy.

(** As [toy], with an index builder and a section builder whose results
    the toy file format keeps: one chunk entry per chunk, holding its
    length, and one Section record, holding the number of chunks. *)
Definition toy2 : Externals := {|
  path_join := posix_join;
  path_basename := posix_basename;
  path_splitext_root := posix_splitext_root;
  path_dirname := posix_dirname;
  json_dump := toy_dump;
  json_load := toy_load;
  pickle_dump := toy_dump;
  pickle_load := toy_load;
  basic_clean_text := clean_text;
  extract_pdf_content := toy_extract;
  build_chunk_index := fun chunks =>
    Returned (map (fun r => toy_record (N.of_nat (length (Chunker.content r)))) chunks);
  build_section_reps := fun _ chunk_index =>
    Returned [toy_record (N.of_nat (length chunk_index))]
|}.

(** A hash that starts like a bcrypt hash and keeps the salt and the
    password readable; a model that answers with its prompt and its
    question between the markers. *)
Definition toy_hash (salt : nat) (password : pystr) : pystr :=
  py "$2b$" ++ [N.of_nat salt] ++ password.

Definition toy_app : AppExternals := {|
  hash_password := toy_hash;
  verify_password := fun password stored_hash =>
    str_eqb (drop 5 stored_hash) password;
  user_db_dump := fun db => [N.of_nat (size db)];
  chat_answer := fun _ _ prompt question _ =>
    Returned (py "=== System Prompt ===" ++ prompt
              ++ py "=== Document Context === p. 1 === User Question ==="
              ++ question ++ py "=== Answer === 42 " ++ py "<|im_end|>")
|}.

(** Alice is registered and has uploaded [a.pdf]; Bob is not known. *)
Definition app0 : app_state :=
  App state0 {[ alice := py "$2b$hash" ]} 0.

Definition bob : pystr := py "bob".

(** The same, with two files waiting to be uploaded: a short one, and
    one of 121 bytes, that the extractor needs 121 seconds for. *)
Definition app1 : app_state :=
  App (set_files (fun fs => <[py "/tmp/c.pdf" := [37; 80]%N]>
                              (<[py "/tmp/late.pdf" := replicate 121 37%N]> fs))
         state0)
      {[ alice := py "$2b$hash" ]} 0.

(** [state0] with a directory where the index file of [a.pdf] goes. *)
Definition state3 : state :=
  set_dirs (fun d => {[ py "data/user_uploads/alice/a_index.pkl" ]} ∪ d) state0.

(** [state0] with one Section record in memory. *)
Definition state2 : state :=
  set_heap (fun _ => {[ 1%positive := toy_record 5 ]}) state0.

End Toy2.

(* ===================================================================== *)
(** ** Facts about Python strings *)
(* ===================================================================== *)

Section PyStrFacts.

Lemma lstrip_split s : exists l, s = l ++ lstrip s /\ all_space l.
Proof.
  induction s as [|c s IH]; simpl.
  - exists []. split; [done | constructor].
  - destruct (isspace c) eqn:Hc.
    + destruct IH as (l & Hl & Hsp). exists (c :: l). split.
      * simpl. by rewrite <- Hl.
      * by constructor.
    + exists []. split; [done | constructor].
Qed.

Lemma rstrip_split s : exists r, s = rstrip s ++ r /\ all_space r.
Proof.
  unfold rstrip. destruct (lstrip_split (reverse s)) as (l & Hl & Hsp).
  exists (reverse l). split.
  - rewrite <- reverse_app, <- Hl. by rewrite reverse_involutive.
  - unfold all_space in *. rewrite Forall_forall in *. intros c Hc.
    apply Hsp. by apply elem_of_reverse.
Qed.

Lemma strip_split s :
  exists l r, s = l ++ strip s ++ r /\ all_space l /\ all_space r.
Proof.
  destruct (lstrip_split s) as (l & Hl & Hls).
  destruct (rstrip_split (lstrip s)) as (r & Hr & Hrs).
  exists l, r. unfold strip. by rewrite <- Hr, <- Hl.
Qed.

Lemma strip_length s : (length (strip s) <= length s)%nat.
Proof.
  destruct (strip_split s) as (l & r & Hs & _).
  rewrite Hs at 2. rewrite !length_app. lia.
Qed.

Lemma lstrip_head s c s' : lstrip s = c :: s' -> isspace c = false.
Proof.
  induction s as [|d s IH]; simpl; [done|].
  destruct (isspace d) eqn:Hd; [done|]. intros [= <- _]. done.
Qed.

Lemma lstrip_fixed c s : isspace c = false -> lstrip (c :: s) = c :: s.
Proof. intros Hc. simpl. by rewrite Hc. Qed.

Lemma rstrip_last s c s' : rstrip s = s' ++ [c] -> isspace c = false.
Proof.
  unfold rstrip. intros H. apply (f_equal reverse) in H.
  rewrite reverse_involutive, reverse_app in H. simpl in H.
  by apply lstrip_head in H.
Qed.

Lemma rstrip_fixed s c : isspace c = false -> rstrip (s ++ [c]) = s ++ [c].
Proof.
  intros Hc. unfold rstrip. rewrite reverse_app, reverse_singleton.
  simpl. rewrite Hc. by rewrite reverse_cons, reverse_involutive.
Qed.

(** [rstrip] keeps the first character of what it leaves. *)
Lemma rstrip_head c s d s' :
  rstrip (c :: s) = d :: s' -> d = c.
Proof.
  destruct (rstrip_split (c :: s)) as (r & Hr & _).
  intros H. rewrite H in Hr. simpl in Hr. by injection Hr as -> _.
Qed.

(** A string that neither starts nor ends with white space is its own
    [strip]. *)
Lemma strip_fixed c s d :
  isspace c = false -> isspace d = false ->
  last (c :: s) = Some d -> strip (c :: s) = c :: s.
Proof.
  intros Hc Hd Hlast. unfold strip. rewrite lstrip_fixed by done.
  destruct (last_Some (c :: s) d) as [(s' & Hs') _]; [done|].
  rewrite Hs'. by apply rstrip_fixed.
Qed.

(** What [strip] leaves starts and ends with a character that is not
    white space. *)
Lemma strip_ends s c s' :
  strip s = c :: s' ->
  isspace c = false /\ exists d, last (strip s) = Some d /\ isspace d = false.
Proof.
  intros H. split.
  - unfold strip in H. destruct (lstrip s) as [|c0 t] eqn:Hl.
    + by vm_compute in H.
    + apply rstrip_head in H as ->. by apply lstrip_head in Hl.
  - destruct (last (strip s)) as [d|] eqn:Hl.
    + exists d. split; [done|]. apply last_Some in Hl as [t Ht].
      unfold strip in Ht. by apply rstrip_last in Ht.
    + apply last_None in Hl. congruence.
Qed.

Lemma strip_idemp s : strip (strip s) = strip s.
Proof.
  destruct (strip s) as [|c s'] eqn:H; [done|].
  destruct (strip_ends _ _ _ H) as (Hc & d & Hd & Hsp).
  rewrite H in Hd. by eapply strip_fixed.
Qed.

Lemma truthy_true s : truthy s = true <-> s <> [].
Proof. by destruct s. Qed.

Lemma slice_window {A} (s : list A) (start size : Z) :
  0 <= start -> 0 < size ->
  slice s start (start + size) = take (Z.to_nat size) (drop (Z.to_nat start) s).
Proof.
  intros Hs Hn. unfold slice, slice_bound.
  destruct (Z.ltb_spec start 0); [lia|].
  destruct (Z.ltb_spec (start + size) 0); [lia|].
  destruct (Z.le_gt_cases (Z.of_nat (length s)) start) as [Hge|Hlt].
  - rewrite !drop_ge by lia. by rewrite !take_nil.
  - rewrite (Z.min_l start) by lia.
    destruct (Z.le_gt_cases (start + size) (Z.of_nat (length s))).
    + rewrite Z.min_l by lia. f_equal. lia.
    + rewrite Z.min_r by lia.
      rewrite !take_ge; [done | rewrite length_drop; lia | rewrite length_drop; lia].
Qed.

End PyStrFacts.

(* ===================================================================== *)
(** ** Windows *)
(* ===================================================================== *)

Section WindowFacts.

Context {A : Type}.
Implicit Types (s : list A) (size fuel : nat).

Lemma windows_fuel_nil fuel size : windows_fuel fuel size (@nil A) = [].
Proof. by destruct fuel. Qed.

Lemma windows_fuel_cons fuel size x s :
  windows_fuel (S fuel) size (x :: s)
  = take size (x :: s) :: windows_fuel fuel size (drop size (x :: s)).
Proof. done. Qed.

(** Fuel beyond the length of the text changes nothing. *)
Lemma windows_fuel_enough fuel size s :
  (0 < size)%nat -> (length s <= fuel)%nat ->
  windows_fuel fuel size s = windows size s.
Proof.
  intros Hsize. unfold windows.
  assert (Hgen : forall n f1 f2 (t : list A),
             (length t <= n)%nat -> (length t <= f1)%nat -> (length t <= f2)%nat ->
             windows_fuel f1 size t = windows_fuel f2 size t).
  { induction n as [|n IH]; intros f1 f2 t Hn H1 H2.
    - destruct t; [|simpl in Hn; lia]. by rewrite !windows_fuel_nil.
    - destruct t as [|x t]; [by rewrite !windows_fuel_nil|].
      destruct f1 as [|f1]; [simpl in H1; lia|].
      destruct f2 as [|f2]; [simpl in H2; lia|].
      rewrite !windows_fuel_cons. f_equal.
      apply IH; rewrite length_drop; simpl in *; lia. }
  intros Hf. by apply (Hgen (length s)).
Qed.

Lemma windows_fuel_concat fuel size s :
  (0 < size)%nat -> (length s <= fuel)%nat ->
  concat (windows_fuel fuel size s) = s.
Proof.
  intros Hsize. revert s. induction fuel as [|fuel IH]; intros s Hf.
  - by destruct s; [|simpl in Hf; lia].
  - destruct s as [|x s]; [done|]. rewrite windows_fuel_cons.
    cbn [concat]. rewrite IH.
    + apply take_drop.
    + rewrite length_drop. simpl in *. lia.
Qed.

Lemma windows_fuel_bounds fuel size s :
  (0 < size)%nat ->
  Forall (fun w => (0 < length w <= size)%nat) (windows_fuel fuel size s).
Proof.
  intros Hsize. revert s. induction fuel as [|fuel IH]; intros s.
  - constructor.
  - destruct s as [|x s]; [constructor|]. rewrite windows_fuel_cons.
    constructor; [|apply IH].
    rewrite length_take. simpl. lia.
Qed.

(** Every window but the last is full. *)
Lemma windows_fuel_full fuel size s i w :
  windows_fuel fuel size s !! i = Some w ->
  (S i < length (windows_fuel fuel size s))%nat ->
  length w = size.
Proof.
  revert s i. induction fuel as [|fuel IH]; intros s i; [done|].
  destruct s as [|x s]; [done|]. rewrite windows_fuel_cons.
  destruct i as [|i]; simpl.
  - intros [= <-] Hlen.
    destruct (drop size (x :: s)) as [|y t] eqn:Hd.
    { rewrite windows_fuel_nil in Hlen. simpl in Hlen. lia. }
    apply (f_equal length) in Hd. rewrite length_drop in Hd.
    change (firstn size (x :: s)) with (take size (x :: s)).
    rewrite length_take. simpl in *. lia.
  - intros Hw Hlen. eapply IH; [exact Hw | lia].
Qed.

End WindowFacts.

Lemma windows_concat {A} size (s : list A) :
  (0 < size)%nat -> concat (windows size s) = s.
Proof. intros. by apply windows_fuel_concat. Qed.

Lemma windows_bounds {A} size (s : list A) :
  (0 < size)%nat -> Forall (fun w => (0 < length w <= size)%nat) (windows size s).
Proof. intros. by apply windows_fuel_bounds. Qed.

Lemma windows_full {A} size (s : list A) i w :
  windows size s !! i = Some w -> (S i < length (windows size s))%nat ->
  length w = size.
Proof. apply windows_fuel_full. Qed.

Lemma windows_nil {A} size : windows size (@nil A) = [].
Proof. done. Qed.

(** A text that fits in one window is that window. *)
Lemma windows_short {A} size (s : list A) :
  s <> [] -> (length s <= size)%nat -> windows size s = [s].
Proof.
  intros Hne Hlen. unfold windows. destruct s as [|x s]; [done|].
  cbn [length]. rewrite windows_fuel_cons.
  rewrite take_ge by done. rewrite drop_ge by done.
  by rewrite windows_fuel_nil.
Qed.

(** A longer text gives a full window and the windows of the rest. *)
Lemma windows_long {A} size (s : list A) :
  (0 < size)%nat -> (size < length s)%nat ->
  windows size s = take size s :: windows size (drop size s).
Proof.
  intros Hsize Hlen. unfold windows at 1. destruct s as [|x s]; [simpl in Hlen; lia|].
  cbn [length]. rewrite windows_fuel_cons. f_equal.
  apply windows_fuel_enough; [done|]. rewrite length_drop. simpl. lia.
Qed.

(* ===================================================================== *)
(** ** The chunker computes the specified segmentation *)
(* ===================================================================== *)

Section ChunkerFacts.

Variable basic_clean_text : pystr -> pystr.

Lemma len_drop_lt (text : pystr) (start : Z) :
  0 <= start -> (start <? len text) = true ->
  exists c t, drop (Z.to_nat start) text = c :: t.
Proof.
  intros H0 Hlt. apply Z.ltb_lt in Hlt. unfold len in Hlt.
  destruct (drop (Z.to_nat start) text) as [|c t] eqn:Hd; [|by eauto].
  apply (f_equal length) in Hd. rewrite length_drop in Hd. simpl in Hd. lia.
Qed.

Lemma len_drop_ge (text : pystr) (start : Z) :
  0 <= start -> (start <? len text) = false ->
  drop (Z.to_nat start) text = [].
Proof.
  intros H0 Hge. apply Z.ltb_ge in Hge. unfold len in Hge.
  apply drop_ge. lia.
Qed.

(** The loop appends to [chunks] the kept windows of what is left of the
    text from [start] on. *)
Lemma chunk_loop_windows fuel : forall text chunk_size start chunks,
  0 < chunk_size -> 0 <= start ->
  (length (drop (Z.to_nat start) text) <= fuel)%nat ->
  chunk_loop fuel text chunk_size start chunks
  = Some (chunks ++ List.filter truthy
            (map strip (windows_fuel fuel (Z.to_nat chunk_size)
                          (drop (Z.to_nat start) text)))).
Proof.
  induction fuel as [|fuel IH]; intros text cs start chunks Hcs Hstart Hfuel.
  - destruct (drop (Z.to_nat start) text) as [|c t] eqn:Hd; [|simpl in Hfuel; lia].
    simpl. destruct (start <? len text) eqn:Hlt.
    + destruct (len_drop_lt text start) as (c & t & Hct); congruence.
    + by rewrite app_nil_r.
  - cbn [chunk_loop]. destruct (start <? len text) eqn:Hlt.
    + destruct (len_drop_lt text start) as (c & t & Hct); [done..|].
      rewrite Hct in *. rewrite windows_fuel_cons. rewrite <- Hct.
      rewrite slice_window by done.
      rewrite IH; [|done|lia|].
      * f_equal. rewrite drop_drop.
        replace (Z.to_nat (start + cs)) with (Z.to_nat start + Z.to_nat cs)%nat by lia.
        cbn [map List.filter].
        destruct (truthy (strip (take (Z.to_nat cs) (drop (Z.to_nat start) text)))).
        -- by rewrite <- app_assoc.
        -- done.
      * replace (Z.to_nat (start + cs)) with (Z.to_nat start + Z.to_nat cs)%nat by lia.
        rewrite <- drop_drop, Hct, length_drop. simpl in *. lia.
    + rewrite len_drop_ge by done. rewrite windows_fuel_nil. by rewrite app_nil_r.
Qed.

(** With a positive [chunk_size], fuel for one round per character is
    enough, and the result is the specified list of kept windows. *)
Lemma chunk_text_fuel_windows fuel text chunk_size :
  0 < chunk_size -> (length (basic_clean_text text) <= fuel)%nat ->
  chunk_text_fuel basic_clean_text fuel text chunk_size
  = Some (kept_windows (Z.to_nat chunk_size) (basic_clean_text text)).
Proof.
  intros Hcs Hfuel. unfold chunk_text_fuel, kept_windows.
  rewrite chunk_loop_windows; [|done|done|by rewrite drop_0].
  simpl. rewrite drop_0. by rewrite windows_fuel_enough by (done || lia).
Qed.

Lemma chunk_text_windows text chunk_size :
  0 < chunk_size ->
  chunk_text basic_clean_text text chunk_size
  = Some (kept_windows (Z.to_nat chunk_size) (basic_clean_text text)).
Proof. intros. by apply chunk_text_fuel_windows. Qed.

(** With a [chunk_size] that is not positive the loop does not advance:
    on a cleaned text that is not empty no amount of fuel gives a
    result. *)
Lemma chunk_loop_stuck fuel : forall text chunk_size start chunks,
  chunk_size <= 0 -> start <= 0 -> text <> [] ->
  chunk_loop fuel text chunk_size start chunks = None.
Proof.
  induction fuel as [|fuel IH]; intros text cs start chunks Hcs Hstart Hne;
    cbn [chunk_loop].
  - destruct (Z.ltb_spec start (len text)) as [|Hge]; [done|].
    unfold len in Hge. destruct text; [done | simpl in Hge; lia].
  - destruct (Z.ltb_spec start (len text)) as [|Hge].
    + apply IH; [done | lia | done].
    + unfold len in Hge. destruct text; [done | simpl in Hge; lia].
Qed.

Lemma chunk_text_fuel_stuck fuel text chunk_size :
  chunk_size <= 0 -> basic_clean_text text <> [] ->
  chunk_text_fuel basic_clean_text fuel text chunk_size = None.
Proof. intros. by apply chunk_loop_stuck. Qed.

Lemma emit_chunks_app pdf_path page title splitted acc :
  emit_chunks pdf_path page title splitted acc
  = acc ++ map (fun '(c_i, c_text) => ChunkRecord pdf_path page title c_i c_text)
             splitted.
Proof.
  unfold emit_chunks. revert acc.
  induction splitted as [|[c_i c_text] l IH]; intros acc; simpl.
  - by rewrite app_nil_r.
  - rewrite IH. by rewrite <- app_assoc.
Qed.

Lemma pages_loop_records pdf_path toc pages : forall first acc,
  pages_loop basic_clean_text pdf_path toc (enumerate_from first pages) acc
  = Some (acc ++ pages_records basic_clean_text pdf_path toc first pages).
Proof.
  unfold pages_records.
  induction pages as [|text pages IH]; intros first acc; simpl.
  - by rewrite app_nil_r.
  - rewrite chunk_text_windows by done.
    rewrite IH, emit_chunks_app. by rewrite <- app_assoc.
Qed.

(** [process_extracted_file] returns, for every document, the records the
    specification describes. *)
Lemma process_extracted_file_records d :
  process_extracted_file basic_clean_text d
  = Some (document_records basic_clean_text d).
Proof. unfold process_extracted_file, enumerate. apply pages_loop_records. Qed.

End ChunkerFacts.

(* ===================================================================== *)
(** ** Section assignment *)
(* ===================================================================== *)

Section SectionAssignment.

Implicit Types (toc : list toc_entry) (p : Z).

Lemma toc_sorted_strongly toc :
  toc_sorted toc -> StronglySorted (fun a b => toc_start a <= toc_start b) toc.
Proof.
  apply Sorted_StronglySorted. intros a b c Hab Hbc. lia.
Qed.

Lemma last_cons_default {A} (x : A) (l : list A) :
  last (x :: l) = Some (default x (last l)).
Proof.
  destruct l as [|y l]; [done|]. rewrite last_cons_cons.
  destruct (last (y :: l)) eqn:H; [done|]. by apply last_None in H.
Qed.

Lemma filter_upto_none p toc :
  Forall (fun e => p + 1 < toc_start e) toc ->
  List.filter (fun e => toc_start e <=? p + 1) toc = [].
Proof.
  induction 1 as [|e toc He _ IH]; [done|]. cbn [List.filter].
  destruct (Z.leb_spec (toc_start e) (p + 1)); [lia | done].
Qed.

(** In a sorted table every entry starts no earlier than the first. *)
Lemma toc_sorted_before p toc :
  toc_sorted toc ->
  (forall e, head toc = Some e -> p + 1 < toc_start e) ->
  Forall (fun e => p + 1 < toc_start e) toc.
Proof.
  intros Hs Hbefore. destruct toc as [|e toc]; [constructor|].
  specialize (Hbefore e eq_refl).
  apply toc_sorted_strongly, StronglySorted_cons in Hs as [Hall _].
  constructor; [done|]. eapply Forall_impl; [exact Hall|].
  intros e' He'. simpl in He'. lia.
Qed.

(** On a sorted table the scan ends on the last entry that starts at or
    before the page, and keeps the title it was started with when there
    is none. *)
Lemma section_scan_sorted p toc : forall current,
  toc_sorted toc ->
  section_scan p toc current
  = match last_entry_upto p toc with
    | Some e => toc_title e
    | None => current
    end.
Proof.
  unfold last_entry_upto.
  induction toc as [|e toc IH]; intros current Hs; [done|].
  assert (Htl : toc_sorted toc) by (by inversion Hs).
  destruct (Z.le_gt_cases (toc_start e) (p + 1)) as [Hle|Hgt].
  - destruct e as [[lvl title] start_p]. cbn [section_scan List.filter toc_start] in *.
    destruct (Z.geb_spec (p + 1) start_p); [|lia].
    destruct (Z.leb_spec start_p (p + 1)); [|lia].
    rewrite IH by done. rewrite last_cons_default.
    by destruct (last (List.filter _ toc)).
  - rewrite filter_upto_none.
    + destruct e as [[lvl title] start_p]. cbn [section_scan toc_start] in *.
      destruct (Z.geb_spec (p + 1) start_p); [lia | done].
    + apply toc_sorted_before; [done|]. intros e' [= <-]. lia.
Qed.

(** C1. For a table-of-contents sorted by [start_page], the title
    [get_section_of_page] gives page [p] is the title of the last entry
    whose [start_page] is at most [p + 1]; and a page that lies before the
    first entry's [start_page], which includes every page of an empty
    table, gets the sentinel title [default_section]. *)
Theorem C1_section_of_page_sorted p toc :
  toc_sorted toc ->
  get_section_of_page p toc
  = match last_entry_upto p toc with
    | Some e => toc_title e
    | None => default_section
    end
  /\ ((forall e, head toc = Some e -> p + 1 < toc_start e) ->
      last_entry_upto p toc = None
      /\ get_section_of_page p toc = default_section).
Proof.
  intros Hs.
  assert (Hscan := section_scan_sorted p toc default_section Hs).
  split; [done|]. intros Hbefore.
  assert (Hnone : last_entry_upto p toc = None).
  { unfold last_entry_upto. by rewrite filter_upto_none by by apply toc_sorted_before. }
  split; [done|]. unfold get_section_of_page. by rewrite Hscan, Hnone.
Qed.

End SectionAssignment.

(* ===================================================================== *)
(** ** Coverage and chunk length *)
(* ===================================================================== *)

Section Segmentation.

Variable basic_clean_text : pystr -> pystr.

Lemma concat_filter_truthy (l : list pystr) :
  concat (List.filter truthy l) = concat l.
Proof.
  induction l as [|s l IH]; [done|]. cbn [List.filter].
  destruct s as [|c s]; simpl; [done|]. by rewrite IH.
Qed.

Lemma filter_all_space (s : pystr) :
  all_space s -> List.filter not_space s = [].
Proof.
  induction 1 as [|c s Hc _ IH]; [done|]. cbn [List.filter].
  unfold not_space at 1. by rewrite Hc.
Qed.

(** Each window splits into the white space [strip] removes in front,
    what [strip] keeps, and the white space it removes behind. *)
Lemma trimmed_windows (ws : list pystr) :
  exists pads : list trimmed,
    map trimmed_whole pads = ws
    /\ map trimmed_kept pads = map strip ws
    /\ Forall trimmed_ok pads.
Proof.
  induction ws as [|w ws (pads & Hw & Hk & Hok)].
  - exists []. by repeat split.
  - destruct (strip_split w) as (l & r & Hsplit & Hl & Hr).
    exists ((l, strip w, r) :: pads). simpl. rewrite Hw, Hk, <- Hsplit.
    repeat split; [done..|]. by constructor.
Qed.

Lemma trimmed_not_space (pads : list trimmed) :
  Forall trimmed_ok pads ->
  List.filter not_space (concat (map trimmed_whole pads))
  = List.filter not_space (concat (map trimmed_kept pads)).
Proof.
  induction 1 as [|[[l c] r] pads [Hl Hr] _ IH]; [done|].
  simpl. rewrite !List.filter_app, IH.
  by rewrite (filter_all_space l), (filter_all_space r), app_nil_r.
Qed.

(** C2. For a positive [chunk_size], [chunk_text] returns, and the
    cleaned text is the concatenation of stretches [l ++ c ++ r] where
    [l] and [r] are white space and the chunks returned are, in order,
    the [c] that are not empty. So the chunks concatenated are the
    cleaned text with those stretches of white space taken out (a window
    of white space only has an empty [c]): nothing else is lost, and
    nothing is duplicated. *)
Theorem C2_chunks_cover_cleaned_text text chunk_size :
  0 < chunk_size ->
  exists (chunks : list pystr) (pads : list trimmed),
    chunk_text basic_clean_text text chunk_size = Some chunks
    /\ concat (map trimmed_whole pads) = basic_clean_text text
    /\ Forall trimmed_ok pads
    /\ chunks = List.filter truthy (map trimmed_kept pads)
    /\ concat chunks = concat (map trimmed_kept pads)
    /\ List.filter not_space (concat chunks)
       = List.filter not_space (basic_clean_text text).
Proof.
  intros Hcs.
  set (ws := windows (Z.to_nat chunk_size) (basic_clean_text text)).
  destruct (trimmed_windows ws) as (pads & Hw & Hk & Hok).
  exists (kept_windows (Z.to_nat chunk_size) (basic_clean_text text)), pads.
  assert (Hcat : concat (map trimmed_whole pads) = basic_clean_text text).
  { rewrite Hw. apply windows_concat. lia. }
  unfold kept_windows. fold ws. rewrite <- Hk.
  repeat split.
  - rewrite chunk_text_windows by done. unfold kept_windows. fold ws.
    by rewrite Hk.
  - done.
  - done.
  - apply concat_filter_truthy.
  - rewrite concat_filter_truthy, <- Hcat. symmetry. by apply trimmed_not_space.
Qed.

Lemma kept_windows_length size cleaned :
  (0 < size)%nat ->
  Forall (fun c => (length c <= size)%nat) (kept_windows size cleaned).
Proof.
  intros Hsize. unfold kept_windows.
  pose proof (windows_bounds size cleaned Hsize) as Hb.
  induction Hb as [|w ws [_ Hw] _ IH]; [constructor|].
  cbn [map List.filter]. pose proof (strip_length w).
  destruct (truthy (strip w)); [constructor; [lia|done] | done].
Qed.

(** A chunk that is not the last one kept comes from a window that is
    not the last one, hence from a full window. *)
Lemma kept_not_last_full size (ws : list pystr) :
  (forall i w, ws !! i = Some w -> (S i < length ws)%nat -> length w = size) ->
  forall j c,
    List.filter truthy (map strip ws) !! j = Some c ->
    (S j < length (List.filter truthy (map strip ws)))%nat ->
    exists w, w ∈ ws /\ length w = size /\ c = strip w.
Proof.
  induction ws as [|w0 ws IH]; intros Hfull j c Hj Hlen; [done|].
  assert (Hfull' : forall i w, ws !! i = Some w -> (S i < length ws)%nat ->
                               length w = size).
  { intros i w Hi Hl. apply (Hfull (S i) w); [done | simpl; lia]. }
  cbn [map List.filter] in Hj, Hlen.
  destruct (truthy (strip w0)).
  - destruct j as [|j]; simpl in Hj, Hlen.
    + injection Hj as <-. exists w0. split; [left|split; [|done]].
      apply (Hfull 0%nat w0); [done|].
      destruct ws; [simpl in Hlen; lia | simpl; lia].
    + destruct (IH Hfull' j c Hj) as (w & Hin & Hw); [lia|].
      exists w. split; [by right | done].
  - destruct (IH Hfull' j c Hj Hlen) as (w & Hin & Hw).
    exists w. split; [by right | done].
Qed.

(** C5. [chunk_text text CHUNK_SIZE] returns, with [CHUNK_SIZE = 500];
    every chunk has at most 500 characters; and every chunk but the last
    is what [strip] leaves of a window of exactly 500 characters of the
    cleaned text, so that a chunk other than the last is shorter than 500
    only by the white space trimmed from it. *)
Theorem C5_chunk_length_budget text :
  exists chunks : list pystr,
    CHUNK_SIZE = 500
    /\ chunk_text basic_clean_text text CHUNK_SIZE = Some chunks
    /\ Forall (fun c => len c <= 500) chunks
    /\ (forall j c, chunks !! j = Some c -> (S j < length chunks)%nat ->
          exists w, w ∈ windows 500 (basic_clean_text text)
                    /\ len w = 500 /\ c = strip w
                    /\ (len c < 500 -> strip w <> w)).
Proof.
  exists (kept_windows 500 (basic_clean_text text)).
  split; [done|]. split; [by apply chunk_text_windows|]. split.
  - eapply Forall_impl; [apply kept_windows_length; lia|].
    intros c Hc. unfold len. simpl in Hc. lia.
  - intros j c Hj Hlen.
    destruct (kept_not_last_full 500 (windows 500 (basic_clean_text text)))
      with (j := j) (c := c) as (w & Hin & Hw & Hc); [|done..|].
    { intros i w. apply windows_full. }
    exists w. unfold len. repeat split; [done | lia | done |].
    intros Hshort Heq. rewrite <- Hc in Heq. subst w. lia.
Qed.

End Segmentation.

(* ===================================================================== *)
(** ** The records of a document *)
(* ===================================================================== *)

Section Records.

Variable basic_clean_text : pystr -> pystr.

Implicit Types (pdf_path : pystr) (toc : list toc_entry) (kept pages : list pystr).

Lemma pages_records_cons pdf_path toc first text pages :
  pages_records basic_clean_text pdf_path toc first (text :: pages)
  = page_records pdf_path toc first
      (kept_windows (Z.to_nat CHUNK_SIZE) (basic_clean_text text))
    ++ pages_records basic_clean_text pdf_path toc (first + 1) pages.
Proof. done. Qed.

Lemma pages_records_app pdf_path toc pages1 : forall first pages2,
  pages_records basic_clean_text pdf_path toc first (pages1 ++ pages2)
  = pages_records basic_clean_text pdf_path toc first pages1
    ++ pages_records basic_clean_text pdf_path toc
         (first + Z.of_nat (length pages1)) pages2.
Proof.
  induction pages1 as [|text pages1 IH]; intros first pages2.
  - simpl. by rewrite Z.add_0_r.
  - rewrite <- app_comm_cons, !pages_records_cons, IH, <- app_assoc.
    do 3 f_equal. simpl length. lia.
Qed.

Lemma enumerate_from_fst {A} (l : list A) : forall i,
  map fst (enumerate_from i l) = seqZ i (Z.of_nat (length l)).
Proof.
  induction l as [|x l IH]; intros i; [done|].
  cbn [enumerate_from map fst length]. rewrite seqZ_cons by lia.
  rewrite IH. do 2 f_equal. lia.
Qed.

Lemma enumerate_from_snd {A} (l : list A) : forall i,
  map snd (enumerate_from i l) = l.
Proof. induction l as [|x l IH]; intros i; [done|]. simpl. by rewrite IH. Qed.

Lemma enumerate_from_bounds {A} (l : list A) : forall i j x,
  (j, x) ∈ enumerate_from i l -> i <= j < i + Z.of_nat (length l).
Proof.
  induction l as [|y l IH]; intros i j x Hin; simpl in Hin.
  - by apply elem_of_nil in Hin.
  - apply elem_of_cons in Hin as [[= -> ->]|Hin].
    + simpl length. lia.
    + apply IH in Hin. simpl length. lia.
Qed.

(** What every record of a page carries. *)
Lemma page_records_fields pdf_path toc page kept r :
  r ∈ page_records pdf_path toc page kept ->
  rec_file_path r = pdf_path /\ page_idx r = page
  /\ section_title r = get_section_of_page page toc
  /\ content r ∈ kept
  /\ 0 <= chunk_index r < Z.of_nat (length kept).
Proof.
  unfold page_records. intros Hin.
  apply list_elem_of_fmap in Hin as ([c_i c_text] & -> & Hin). simpl.
  repeat split; try done.
  - rewrite <- (enumerate_from_snd kept 0).
    apply list_elem_of_fmap. by exists (c_i, c_text).
  - apply enumerate_from_bounds in Hin. lia.
  - apply enumerate_from_bounds in Hin. lia.
Qed.

Lemma page_records_index pdf_path toc page kept :
  map chunk_index (page_records pdf_path toc page kept)
  = seqZ 0 (Z.of_nat (length kept)).
Proof.
  unfold page_records, enumerate. rewrite <- enumerate_from_fst.
  rewrite map_map. apply map_ext. by intros [c_i c_text].
Qed.

Lemma page_records_content pdf_path toc page kept :
  map content (page_records pdf_path toc page kept) = kept.
Proof.
  unfold page_records, enumerate. rewrite <- (enumerate_from_snd kept 0) at 2.
  rewrite map_map. apply map_ext. by intros [c_i c_text].
Qed.

Lemma page_records_length pdf_path toc page kept :
  length (page_records pdf_path toc page kept) = length kept.
Proof.
  rewrite <- (page_records_content pdf_path toc page kept) at 2.
  by rewrite length_map.
Qed.

(** The pages of the records from [first] on lie in the range of pages
    processed. *)
Lemma pages_records_page pdf_path toc pages : forall first r,
  r ∈ pages_records basic_clean_text pdf_path toc first pages ->
  first <= page_idx r < first + Z.of_nat (length pages).
Proof.
  induction pages as [|text pages IH]; intros first r Hin.
  - by apply elem_of_nil in Hin.
  - rewrite pages_records_cons in Hin. apply elem_of_app in Hin as [Hin|Hin].
    + apply page_records_fields in Hin as (_ & -> & _). simpl length. lia.
    + apply IH in Hin. simpl length. lia.
Qed.

Lemma on_page_app p (recs1 recs2 : list chunk_record) :
  on_page p (recs1 ++ recs2) = on_page p recs1 ++ on_page p recs2.
Proof. apply List.filter_app. Qed.

Lemma on_page_page_records pdf_path toc page kept p :
  on_page p (page_records pdf_path toc page kept)
  = if page =? p then page_records pdf_path toc page kept else [].
Proof.
  unfold on_page, page_records.
  induction (enumerate kept) as [|[c_i c_text] l IH]; simpl.
  - by destruct (page =? p).
  - rewrite IH. by destruct (page =? p).
Qed.

Lemma on_page_outside p (recs : list chunk_record) :
  (forall r, r ∈ recs -> page_idx r <> p) -> on_page p recs = [].
Proof.
  unfold on_page. induction recs as [|r recs IH]; intros Hout; [done|].
  cbn [List.filter]. destruct (Z.eqb_spec (page_idx r) p) as [Heq|_].
  - exfalso. apply (Hout r); [left | done].
  - apply IH. intros r' Hr'. apply Hout. by right.
Qed.

(** The records of page [p] are the records of that page's kept
    windows. *)
Lemma on_page_pages_records pdf_path toc pages : forall first p,
  on_page p (pages_records basic_clean_text pdf_path toc first pages)
  = match (if first <=? p then pages !! Z.to_nat (p - first) else None) with
    | Some text => page_records pdf_path toc p
                     (kept_windows (Z.to_nat CHUNK_SIZE) (basic_clean_text text))
    | None => []
    end.
Proof.
  induction pages as [|text pages IH]; intros first p.
  - by destruct (first <=? p).
  - rewrite pages_records_cons, on_page_app, on_page_page_records, IH.
    destruct (Z.leb_spec first p) as [Hle|Hlt].
    + destruct (Z.eqb_spec first p) as [->|Hne].
      * destruct (Z.leb_spec (p + 1) p); [lia|].
        rewrite Z.sub_diag. simpl. by rewrite app_nil_r.
      * destruct (Z.leb_spec (first + 1) p); [|lia].
        replace (Z.to_nat (p - first)) with (S (Z.to_nat (p - (first + 1)))) by lia.
        done.
    + destruct (Z.eqb_spec first p); [lia|].
      destruct (Z.leb_spec (first + 1) p); [lia | done].
Qed.

Lemma strongly_sorted_lookup {A} (R : relation A) (l : list A) :
  StronglySorted R l ->
  forall i j a b, (i < j)%nat -> l !! i = Some a -> l !! j = Some b -> R a b.
Proof.
  induction 1 as [|x l _ IH Hall]; intros i j a b Hij Hi Hj; [done|].
  destruct j as [|j]; [lia|]. simpl in Hj. destruct i as [|i]; simpl in Hi.
  - injection Hi as <-. rewrite Forall_forall in Hall. apply Hall.
    apply list_elem_of_lookup. eauto.
  - apply (IH i j); [lia | done..].
Qed.

Lemma enumerate_records_sorted pdf_path page title (l : list pystr) : forall i,
  StronglySorted rec_before
    (map (fun '(c_i, c_text) => ChunkRecord pdf_path page title c_i c_text)
         (enumerate_from i l)).
Proof.
  induction l as [|x l IH]; intros i; [constructor|].
  cbn [enumerate_from map]. constructor; [apply IH|].
  apply Forall_forall. intros r Hin.
  apply list_elem_of_fmap in Hin as ([c_i c_text] & -> & Hin).
  apply enumerate_from_bounds in Hin. right. simpl. lia.
Qed.

Lemma pages_records_sorted pdf_path toc pages : forall first,
  StronglySorted rec_before
    (pages_records basic_clean_text pdf_path toc first pages).
Proof.
  induction pages as [|text pages IH]; intros first; [constructor|].
  rewrite pages_records_cons. apply StronglySorted_app_2.
  - intros r1 r2 H1 H2. apply page_records_fields in H1 as (_ & H1 & _).
    apply pages_records_page in H2. left. lia.
  - apply enumerate_records_sorted.
  - apply IH.
Qed.

Lemma pages_records_fields pdf_path toc pages : forall first r,
  r ∈ pages_records basic_clean_text pdf_path toc first pages ->
  rec_file_path r = pdf_path
  /\ section_title r = get_section_of_page (page_idx r) toc
  /\ exists text, text ∈ pages
       /\ content r ∈ kept_windows (Z.to_nat CHUNK_SIZE) (basic_clean_text text).
Proof.
  induction pages as [|text pages IH]; intros first r Hin.
  - by apply elem_of_nil in Hin.
  - rewrite pages_records_cons in Hin. apply elem_of_app in Hin as [Hin|Hin].
    + apply page_records_fields in Hin as (Hf & Hp & Ht & Hc & _).
      rewrite Hp. repeat split; [done..|]. exists text. split; [left | done].
    + apply IH in Hin as (Hf & Ht & text' & Hin & Hc).
      repeat split; [done..|]. exists text'. split; [by right | done].
Qed.

(** What is kept of a window is not empty and has no white space left
    at either end. *)
Lemma kept_windows_trimmed size cleaned c :
  c ∈ kept_windows size cleaned -> c <> [] /\ strip c = c.
Proof.
  unfold kept_windows. intros Hin.
  apply list_elem_of_In, List.filter_In in Hin as [Hin Htruthy].
  apply truthy_true in Htruthy. split; [done|].
  apply list_elem_of_In, list_elem_of_fmap in Hin as (w & -> & _).
  apply strip_idemp.
Qed.

End Records.

(* ===================================================================== *)
(** ** Properties of [process_extracted_file] *)
(* ===================================================================== *)

Section Documents.

Variable basic_clean_text : pystr -> pystr.

(** C4. [process_extracted_file] returns for every document; for every
    page [p] the chunk indexes of the records of that page are, in order,
    0, 1, ..., k-1, where k is the number of records of the page; these
    records carry, in order, exactly the chunks [chunk_text] returns for
    the page, that is the windows left after the empty ones were dropped,
    so a dropped window takes no number; and the content of every record
    is not empty (nor does it start or end with white space). *)
Theorem C4_chunk_index_contiguous d :
  exists recs : list chunk_record,
    process_extracted_file basic_clean_text d = Some recs
    /\ (forall p : Z,
          map chunk_index (on_page p recs)
          = seqZ 0 (Z.of_nat (length (on_page p recs))))
    /\ (forall (p : nat) (text : pystr),
          pages_text d !! p = Some text ->
          exists splitted,
            chunk_text basic_clean_text text CHUNK_SIZE = Some splitted
            /\ splitted = kept_windows 500 (basic_clean_text text)
            /\ map content (on_page (Z.of_nat p) recs) = splitted)
    /\ Forall (fun r => content r <> [] /\ strip (content r) = content r) recs.
Proof.
  exists (document_records basic_clean_text d).
  split; [apply process_extracted_file_records|].
  unfold document_records. split; [|split].
  - intros p. rewrite on_page_pages_records.
    destruct (if 0 <=? p then _ else _) as [text|]; [|done].
    by rewrite page_records_index, page_records_length.
  - intros p text Hp. eexists. split; [by apply chunk_text_windows|].
    split; [done|]. rewrite on_page_pages_records.
    destruct (Z.leb_spec 0 (Z.of_nat p)); [|lia].
    rewrite Z.sub_0_r, Nat2Z.id, Hp. apply page_records_content.
  - apply Forall_forall. intros r Hin.
    apply pages_records_fields in Hin as (_ & _ & text & _ & Hc).
    by apply kept_windows_trimmed in Hc.
Qed.

(** C10. [process_extracted_file] returns for every document, and of any
    two records it returns the earlier one has the smaller or the same
    [page_idx] and, when the pages are the same, the smaller
    [chunk_index]; every record carries the document's [file_path] and
    the section title [get_section_of_page] gives its own page in the
    document's table-of-contents. *)
Theorem C10_records_ordered_and_tagged d :
  exists recs : list chunk_record,
    process_extracted_file basic_clean_text d = Some recs
    /\ (forall (i j : nat) r1 r2,
          (i < j)%nat -> recs !! i = Some r1 -> recs !! j = Some r2 ->
          page_idx r1 <= page_idx r2
          /\ (page_idx r1 = page_idx r2 -> chunk_index r1 < chunk_index r2))
    /\ Forall (fun r =>
                 rec_file_path r = file_path d
                 /\ section_title r = get_section_of_page (page_idx r) (toc d))
              recs.
Proof.
  exists (document_records basic_clean_text d).
  split; [apply process_extracted_file_records|].
  unfold document_records. split.
  - intros i j r1 r2 Hij H1 H2.
    pose proof (strongly_sorted_lookup _ _
                  (pages_records_sorted basic_clean_text (file_path d) (toc d)
                     (pages_text d) 0) i j r1 r2 Hij H1 H2) as [Hlt|[Heq Hlt]].
    + split; lia.
    + split; [lia | done].
  - apply Forall_forall. intros r Hin.
    apply pages_records_fields in Hin as (Hf & Ht & _).
    done.
Qed.

(** C9. A page whose text cleans to the empty string: [chunk_text]
    returns the empty list for it (whatever the chunk size), and
    [process_extracted_file] returns, for a document with that page
    between the pages [before] and [after], the records of [before]
    followed by the records of [after] under their own page numbers,
    with no record for the page itself. *)
Theorem C9_empty_page_yields_no_chunks text :
  basic_clean_text text = [] ->
  (forall chunk_size, chunk_text basic_clean_text text chunk_size = Some [])
  /\ (forall pdf_path toc before after,
        let here := Z.of_nat (length before) in
        exists recs1 recs2,
          pages_loop basic_clean_text pdf_path toc (enumerate_from 0 before) []
          = Some recs1
          /\ pages_loop basic_clean_text pdf_path toc
               (enumerate_from (here + 1) after) []
             = Some recs2
          /\ process_extracted_file basic_clean_text
               (JsonData pdf_path toc (before ++ text :: after))
             = Some (recs1 ++ recs2)
          /\ on_page here (recs1 ++ recs2) = []).
Proof.
  intros Hempty. split.
  - intros cs. unfold chunk_text, chunk_text_fuel. by rewrite Hempty.
  - intros pdf_path toc before after here.
    exists (pages_records basic_clean_text pdf_path toc 0 before),
           (pages_records basic_clean_text pdf_path toc (here + 1) after).
    rewrite !pages_loop_records, process_extracted_file_records.
    unfold document_records. cbn [file_path Chunker.toc pages_text].
    rewrite pages_records_app, pages_records_cons, Hempty.
    repeat split.
    apply on_page_outside. intros r Hin.
    apply elem_of_app in Hin as [Hin|Hin]; apply pages_records_page in Hin;
      subst here; lia.
Qed.

Lemma no_space_at_lookup (s : pystr) positions i :
  no_space_at s positions = true -> i ∈ positions ->
  exists c, s !! i = Some c /\ isspace c = false.
Proof.
  unfold no_space_at. rewrite forallb_forall. intros Hall Hin.
  apply list_elem_of_In, Hall in Hin.
  destruct (s !! i) as [c|]; [|done]. exists c. split; [done|].
  by destruct (isspace c).
Qed.

Lemma strip_fixed_ends (s : pystr) c d :
  s !! 0%nat = Some c -> isspace c = false ->
  last s = Some d -> isspace d = false ->
  strip s = s.
Proof.
  intros H0 Hc Hl Hd. destruct s as [|c' s]; [done|].
  injection H0 as ->. by eapply strip_fixed.
Qed.

(** The three windows of a cleaned text of 1200 characters. *)
Lemma windows_1200 {A} (s : list A) :
  length s = 1200%nat ->
  windows 500 s = [take 500 s; take 500 (drop 500 s); drop 1000 s].
Proof.
  intros Hlen.
  rewrite windows_long by lia.
  rewrite windows_long by (rewrite ?length_drop; lia).
  rewrite drop_drop. change (500 + 500)%nat with 1000%nat.
  rewrite windows_short; [done | | rewrite length_drop; lia].
  intros Hnil. apply (f_equal length) in Hnil. rewrite length_drop in Hnil.
  simpl in Hnil. lia.
Qed.

Lemma windows_300 {A} (s : list A) :
  length s = 300%nat -> windows 500 s = [s].
Proof.
  intros Hlen. apply windows_short; [|lia].
  intros ->. simpl in Hlen. lia.
Qed.

(** C3. The end-to-end example. With the table-of-contents
    [(1, "Intro", 1), (1, "Methods", 2)], a page 0 whose cleaned text has
    1200 characters, none of them white space at the ends of the windows
    of 500 (positions 0, 499, 500, 999, 1000 and 1199), and a page 1 whose
    cleaned text has 300 characters, the first and the last not white
    space, [process_extracted_file] returns exactly four records: for
    page 0 the chunks 0, 1 and 2, of 500, 500 and 200 characters, under
    "Intro", and for page 1 the chunk 0, of 300 characters, under
    "Methods". *)
Theorem C3_end_to_end_example pdf_path page0 page1 :
  let cleaned0 := basic_clean_text page0 in
  let cleaned1 := basic_clean_text page1 in
  length cleaned0 = 1200%nat ->
  no_space_at cleaned0 [0; 499; 500; 999; 1000; 1199]%nat = true ->
  length cleaned1 = 300%nat ->
  no_space_at cleaned1 [0; 299]%nat = true ->
  process_extracted_file basic_clean_text
    (JsonData pdf_path example_toc [page0; page1])
  = Some [ ChunkRecord pdf_path 0 (py "Intro") 0 (take 500 cleaned0);
           ChunkRecord pdf_path 0 (py "Intro") 1 (take 500 (drop 500 cleaned0));
           ChunkRecord pdf_path 0 (py "Intro") 2 (drop 1000 cleaned0);
           ChunkRecord pdf_path 1 (py "Methods") 0 cleaned1 ]
  /\ length (take 500 cleaned0) = 500%nat
  /\ length (take 500 (drop 500 cleaned0)) = 500%nat
  /\ length (drop 1000 cleaned0) = 200%nat
  /\ length cleaned1 = 300%nat.
Proof.
  intros cleaned0 cleaned1 Hlen0 Hns0 Hlen1 Hns1.
  assert (Hat0 : forall i, i ∈ [0; 499; 500; 999; 1000; 1199]%nat ->
                   exists c, cleaned0 !! i = Some c /\ isspace c = false)
    by (intros i; by apply no_space_at_lookup).
  assert (Hat1 : forall i, i ∈ [0; 299]%nat ->
                   exists c, cleaned1 !! i = Some c /\ isspace c = false)
    by (intros i; by apply no_space_at_lookup).
  destruct (Hat0 0%nat) as (a0 & Ha0 & Hsa0); [repeat constructor|].
  destruct (Hat0 499%nat) as (a1 & Ha1 & Hsa1); [repeat constructor|].
  destruct (Hat0 500%nat) as (a2 & Ha2 & Hsa2); [repeat constructor|].
  destruct (Hat0 999%nat) as (a3 & Ha3 & Hsa3); [repeat constructor|].
  destruct (Hat0 1000%nat) as (a4 & Ha4 & Hsa4); [repeat constructor|].
  destruct (Hat0 1199%nat) as (a5 & Ha5 & Hsa5); [repeat constructor|].
  destruct (Hat1 0%nat) as (b0 & Hb0 & Hsb0); [repeat constructor|].
  destruct (Hat1 299%nat) as (b1 & Hb1 & Hsb1); [repeat constructor|].
  assert (L0 : length (take 500 cleaned0) = 500%nat)
    by (rewrite length_take; lia).
  assert (L1 : length (take 500 (drop 500 cleaned0)) = 500%nat)
    by (rewrite length_take, length_drop; lia).
  assert (L2 : length (drop 1000 cleaned0) = 200%nat)
    by (rewrite length_drop; lia).
  assert (S0 : strip (take 500 cleaned0) = take 500 cleaned0).
  { apply (strip_fixed_ends _ a0 a1); [|done| |done].
    - by rewrite (lookup_take_lt cleaned0) by lia.
    - rewrite last_lookup, L0. by rewrite (lookup_take_lt cleaned0) by (simpl; lia). }
  assert (S1 : strip (take 500 (drop 500 cleaned0)) = take 500 (drop 500 cleaned0)).
  { apply (strip_fixed_ends _ a2 a3); [|done| |done].
    - rewrite (lookup_take_lt (drop 500 cleaned0)) by lia.
      by rewrite (lookup_drop cleaned0).
    - rewrite last_lookup, L1.
      rewrite (lookup_take_lt (drop 500 cleaned0)) by (simpl; lia).
      by rewrite (lookup_drop cleaned0). }
  assert (S2 : strip (drop 1000 cleaned0) = drop 1000 cleaned0).
  { apply (strip_fixed_ends _ a4 a5); [|done| |done].
    - by rewrite (lookup_drop cleaned0).
    - rewrite last_lookup, L2. by rewrite (lookup_drop cleaned0). }
  assert (S3 : strip cleaned1 = cleaned1).
  { apply (strip_fixed_ends _ b0 b1); [done..| |done].
    by rewrite last_lookup, Hlen1. }
  assert (T0 : forall s : pystr, (0 < length s)%nat -> truthy s = true).
  { intros [|c s] Hs; [simpl in Hs; lia | done]. }
  split; [|done].
  rewrite process_extracted_file_records.
  unfold document_records, pages_records.
  cbn [file_path toc pages_text enumerate_from map concat].
  change (Z.to_nat CHUNK_SIZE) with 500%nat.
  fold cleaned0 cleaned1. unfold kept_windows.
  rewrite (windows_1200 cleaned0 Hlen0), (windows_300 cleaned1 Hlen1).
  cbn [map]. rewrite S0, S1, S2, S3. cbn [List.filter].
  rewrite !T0 by lia. done.
Qed.

End Documents.

(* ===================================================================== *)
(** ** The cache helpers *)
(* ===================================================================== *)

Import WebDemo IndexCacheSpec.
Local Open Scope py_scope.

Section CacheFacts.

Context `{Externals}.

Lemma same_disk_refl st : same_disk st st.
Proof. by repeat split. Qed.

Lemma same_disk_trans st1 st2 st3 :
  same_disk st1 st2 -> same_disk st2 st3 -> same_disk st1 st3.
Proof. unfold same_disk. intros (-> & -> & ->) (-> & -> & ->). done. Qed.

Lemma holds_weaken (h h' : gmap loc dict) ls ds :
  h ⊆ h' -> holds h ls ds -> holds h' ls ds.
Proof.
  intros Hsub Hh. unfold holds. eapply Forall2_impl; [exact Hh|].
  intros l d Hl. exact (lookup_weaken h h' l d Hl Hsub).
Qed.

Lemma holds_app (h : gmap loc dict) ls1 ds1 ls2 ds2 :
  holds h ls1 ds1 -> holds h ls2 ds2 -> holds h (ls1 ++ ls2) (ds1 ++ ds2).
Proof. apply Forall2_app. Qed.

Lemma holds_deref (h : gmap loc dict) ls ds :
  holds h ls ds -> map (deref h) ls = ds.
Proof.
  induction 1 as [|l d ls ds Hl _ IH]; [done|].
  simpl. unfold deref at 1. by rewrite Hl, IH.
Qed.

(** A new object is at an address not in use, and leaves the others as
    they are. *)
Lemma new_dict_spec d st :
  exists l st',
    new_dict d st = (Ok l, st')
    /\ same_disk st st' /\ heap st ⊆ heap st'
    /\ heap st !! l = None /\ heap st' !! l = Some d.
Proof.
  unfold new_dict. eexists _, _. split; [done|].
  assert (Hfresh : heap st !! fresh (dom (heap st)) = None).
  { apply not_elem_of_dom, is_fresh. }
  repeat split.
  - simpl. by apply insert_subseteq.
  - done.
  - simpl. apply lookup_insert_eq.
Qed.

Lemma new_dicts_spec ds : forall st,
  exists ls st',
    new_dicts ds st = (Ok ls, st')
    /\ same_disk st st' /\ heap st ⊆ heap st' /\ holds (heap st') ls ds.
Proof.
  induction ds as [|d ds IH]; intros st.
  - exists [], st. repeat split; [done|constructor].
  - destruct (new_dict_spec d st) as (l & st1 & Hnew & Hd1 & Hsub1 & _ & Hl).
    destruct (IH st1) as (ls & st' & Hrest & Hd2 & Hsub2 & Hholds).
    exists (l :: ls), st'. cbn [new_dicts]. unfold bind at 1. rewrite Hnew.
    unfold bind at 1. rewrite Hrest. split; [done|].
    split; [by eapply same_disk_trans|]. split; [by etrans|].
    constructor; [|done]. exact (lookup_weaken _ _ l d Hl Hsub2).
Qed.

Lemma load_sections_spec c st :
  match json_load c with
  | Returned (Some secs) =>
      exists ls st',
        load_sections c st = (Ok (Some ls), st')
        /\ same_disk st st' /\ heap st ⊆ heap st' /\ holds (heap st') ls secs
  | Returned None => load_sections c st = (Ok None, st)
  | Raised e => load_sections c st = (Raise e, st)
  end.
Proof.
  unfold load_sections, bind, lift. destruct (json_load c) as [[secs|]|e]; [|done..].
  destruct (new_dicts_spec secs st) as (ls & st' & Hnew & Hrest).
  exists ls, st'. by rewrite Hnew.
Qed.

Lemma path_exists_file p c st :
  files st !! p = Some c -> path_exists p st = (Ok true, st).
Proof.
  intros Hp. unfold path_exists. rewrite bool_decide_eq_true_2; [done|].
  left. apply elem_of_dom. eauto.
Qed.

Lemma path_exists_state p st : exists b, path_exists p st = (Ok b, st).
Proof. unfold path_exists. eauto. Qed.

(** Name the result and the final state, and leave what is said of
    them. *)
Ltac close_with st' :=
  eexists _, st'; split; [done|]; split; [by repeat split|]; split; [done|]; split.

(** [_load_cache] always returns, writes nothing, and gives the cached
    index when both files load, and nothing when one of them cannot be
    read. *)
Lemma load_cache_spec user_dir pdf_basename st :
  exists r st',
    _load_cache user_dir pdf_basename st = (Ok r, st')
    /\ same_disk st st' /\ heap st ⊆ heap st'
    /\ match cached_index (files st) user_dir pdf_basename with
       | Some (secs, idx) =>
           exists ls, r = (Some ls, Some idx) /\ holds (heap st') ls secs
       | None => r.1 = None \/ r.2 = None
       end
    /\ (cache_unreadable st user_dir pdf_basename -> r = (None, None)).
Proof.
  unfold _load_cache, cached_index, cache_unreadable, _cache_paths.
  cbn [fst snd].
  set (sec_path := path_join user_dir (pdf_basename ++ py "_sections.json")).
  set (idx_path := path_join user_dir (pdf_basename ++ py "_index.pkl")).
  destruct (path_exists_state sec_path st) as [b1 Hb1].
  destruct (path_exists_state idx_path st) as [b2 Hb2].
  unfold bind at 1. rewrite Hb1. unfold bind at 1. rewrite Hb2.
  destruct (files st !! sec_path) as [c_sec|] eqn:Hsec;
    destruct (files st !! idx_path) as [c_idx|] eqn:Hidx.
  - (* both files are there *)
    rewrite (path_exists_file _ _ _ Hsec) in Hb1. injection Hb1 as <-.
    rewrite (path_exists_file _ _ _ Hidx) in Hb2. injection Hb2 as <-.
    cbn [andb]. unfold try_except, bind at 1, read_file at 1. rewrite Hsec.
    pose proof (load_sections_spec c_sec st) as Hload.
    unfold bind at 1.
    destruct (json_load c_sec) as [[secs|]|e1] eqn:Hjson.
    + destruct Hload as (ls & st1 & -> & Hd & Hsub & Hholds).
      unfold bind at 1, read_file at 1.
      destruct Hd as (Hf & Hdirs & Hdb). rewrite Hf, Hidx.
      unfold bind, lift, ret.
      destruct (pickle_load c_idx) as [[idx|]|e2] eqn:Hpickle; cbn [is_Exception];
        close_with st1.
      * by exists ls.
      * intros [?|[?|[(c & e & Hc & He)|(c & e & Hc & He)]]]; congruence.
      * by right.
      * intros [?|[?|[(c & e & Hc & He)|(c & e & Hc & He)]]]; congruence.
      * by left.
      * done.
    + rewrite Hload. unfold bind at 1, read_file at 1. rewrite Hidx.
      unfold bind, lift, ret.
      destruct (pickle_load c_idx) as [[idx|]|e2] eqn:Hpickle; cbn [is_Exception];
        close_with st; try (by left).
      * intros [?|[?|[(c & e & Hc & He)|(c & e & Hc & He)]]]; congruence.
      * intros [?|[?|[(c & e & Hc & He)|(c & e & Hc & He)]]]; congruence.
      * done.
    + rewrite Hload. cbn [is_Exception]. unfold ret.
      close_with st; [by left | done].
  - (* no index file *)
    destruct (b1 && b2) eqn:Hb.
    + unfold try_except, bind at 1, read_file at 1. rewrite Hsec.
      pose proof (load_sections_spec c_sec st) as Hload.
      unfold bind at 1.
      destruct (json_load c_sec) as [[secs|]|e1] eqn:Hjson.
      * destruct Hload as (ls & st1 & -> & Hd & Hsub & Hholds).
        unfold bind at 1, read_file at 1.
        destruct Hd as (Hf & Hdirs & Hdb). rewrite Hf, Hidx.
        cbn [is_Exception]. unfold ret.
        close_with st1; [by left | done].
      * rewrite Hload. unfold bind at 1, read_file at 1. rewrite Hidx.
        cbn [is_Exception]. unfold ret.
        close_with st; [by left | done].
      * rewrite Hload. cbn [is_Exception]. unfold ret.
        close_with st; [by left | done].
    + unfold ret. close_with st; [by left | done].
  - (* no sections file *)
    destruct (b1 && b2) eqn:Hb.
    + unfold try_except, bind at 1, read_file at 1. rewrite Hsec.
      cbn [is_Exception]. unfold ret.
      close_with st; [by left | done].
    + unfold ret. close_with st; [by left | done].
  - destruct (b1 && b2) eqn:Hb.
    + unfold try_except, bind at 1, read_file at 1. rewrite Hsec.
      cbn [is_Exception]. unfold ret.
      close_with st; [by left | done].
    + unfold ret. close_with st; [by left | done].
Qed.

(** When the wait for the extractor times out and the extractor ends
    later on, [process_pdf] raises its own error and the state is as it
    was. *)
Lemma process_pdf_timeout pdf_path user_dir timeout st d e :
  extract_pdf_content (files st) pdf_path = Ends d e ->
  timeout < d ->
  process_pdf pdf_path user_dir timeout st
  = (Raise (RuntimeError timeout_message), st).
Proof.
  intros Hrun Hlate.
  unfold process_pdf, bind at 1, try_except, with_executor, lift, future_result.
  rewrite Hrun. cbn [snd].
  destruct (Z.leb_spec d timeout); [lia | done].
Qed.

(** With an extractor that never ends, [process_pdf] does not return,
    and the state is as it was. *)
Lemma process_pdf_never_ends pdf_path user_dir timeout st :
  extract_pdf_content (files st) pdf_path = NeverEnds ->
  process_pdf pdf_path user_dir timeout st = (NoReturn, st).
Proof.
  intros Hrun.
  unfold process_pdf, bind at 1, try_except, with_executor, lift, future_result.
  by rewrite Hrun.
Qed.

(** A failure of the extractor within the time allowed is passed on as
    it is. *)
Lemma process_pdf_extractor_fails pdf_path user_dir timeout st d e :
  extract_pdf_content (files st) pdf_path = Ends d (Raised e) ->
  d <= timeout ->
  is_TimeoutError e = false ->
  process_pdf pdf_path user_dir timeout st = (Raise e, st).
Proof.
  intros Hrun Hintime Hother.
  unfold process_pdf, bind at 1, try_except, with_executor, lift, future_result.
  rewrite Hrun. cbn [snd].
  destruct (Z.leb_spec d timeout); [|lia].
  by rewrite Hother.
Qed.

(** With nothing usable in the cache, [load_existing_pdf] is a run of
    [process_pdf]. *)
Lemma load_existing_pdf_miss st username selected_name :
  let user_dir := user_dir_of username in
  let pdf_path := path_join user_dir selected_name in
  truthy username = true -> truthy selected_name = true ->
  (pdf_path ∈ dom (files st) \/ pdf_path ∈ dirs st) ->
  cache_unreadable st user_dir (path_splitext_root selected_name) ->
  exists st1,
    files st1 = files st /\ user_db st1 = user_db st /\ heap st ⊆ heap st1
    /\ load_existing_pdf selected_name username st
       = rebuild_result selected_name
           (process_pdf pdf_path user_dir EXTRACT_TIMEOUT st1).
Proof.
  intros user_dir pdf_path Huser Hname Hpdf Hbad.
  unfold load_existing_pdf. rewrite Huser, Hname. cbn [negb].
  unfold ensure_user_dir, bind at 1, bind at 1, makedirs, ret.
  fold (user_dir_of username). fold user_dir. fold pdf_path.
  set (st0 := set_dirs (fun d => {[user_dir]} ∪ d) st).
  unfold bind at 1, path_exists. rewrite bool_decide_eq_true_2; cycle 1.
  { destruct Hpdf as [Hf|Hd]; [by left|]. right. simpl. set_solver. }
  cbn [negb].
  destruct (load_cache_spec user_dir (path_splitext_root selected_name) st0)
    as (r & st1 & Hload & (Hf & Hdirs & Hdb) & Hsub & _ & Hnone).
  rewrite (Hnone Hbad) in Hload. unfold bind at 1. rewrite Hload.
  exists st1. split; [done|]. split; [done|]. split; [done|].
  unfold try_except, bind, ret, rebuild_result.
  destruct (process_pdf pdf_path user_dir EXTRACT_TIMEOUT st1)
    as [[[sections chunk_index]|e|] st2]; [done| |done].
  by destruct e.
Qed.

End CacheFacts.

(* ===================================================================== *)
(** ** Timeouts and unreadable caches *)
(* ===================================================================== *)

Section CacheClaims.

Context `{Externals}.

(** C6. The timeout guard of [process_pdf] waits for the worker. When
    the extraction is over its budget because it never ends, the
    [TimeoutError] of [future.result] does not leave the [with] block of
    the executor: [process_pdf] does not return, no [RuntimeError] is
    raised, and its callers, whose [except RuntimeError] would turn that
    error into a message, do not return either. When the extraction is
    over its budget and ends, [process_pdf] raises
    [RuntimeError("PDF extraction timed out (over 2 minutes).")] and the
    callers get the message. The state after the call is the state
    before it in both cases: neither the sections file nor the
    chunk-index file is written. *)
Theorem C6_timeout_guard_waits_for_the_worker pdf_path user_dir timeout st :
  let caller selected_name :=
    try_except
      (built <- process_pdf pdf_path user_dir timeout ;;
       let '(sections, chunk_index) := built in
       ret (Some sections, Some chunk_index, py "Processed " ++ selected_name))
      is_RuntimeError
      (fun e => ret (None, None, exn_str e)) in
  (extract_pdf_content (files st) pdf_path = NeverEnds ->
   process_pdf pdf_path user_dir timeout st = (NoReturn, st)
   /\ forall selected_name, caller selected_name st = (NoReturn, st))
  /\ (forall d e,
        extract_pdf_content (files st) pdf_path = Ends d e -> timeout < d ->
        process_pdf pdf_path user_dir timeout st
        = (Raise (RuntimeError timeout_message), st)
        /\ forall selected_name,
             caller selected_name st = (Ok (None, None, timeout_message), st)).
Proof.
  intros caller. split.
  - intros Hrun.
    pose proof (process_pdf_never_ends pdf_path user_dir timeout st Hrun) as Hhang.
    split; [done|]. intros selected_name.
    unfold caller, try_except, bind at 1. by rewrite Hhang.
  - intros d e Hrun Hlate.
    pose proof (process_pdf_timeout pdf_path user_dir timeout st d e Hrun Hlate)
      as Hraise.
    split; [done|]. intros selected_name.
    unfold caller, try_except, bind at 1. by rewrite Hraise.
Qed.

(** C7. If one of the two cache files of a document is missing or fails
    to load, [_load_cache] returns [(None, None)], without raising and
    without writing, whatever the other file holds; and
    [load_existing_pdf], for a logged-in user and a PDF that exists,
    then does what [process_pdf] does on that PDF: its result, or the
    message of its [RuntimeError]. Whatever is on disk, [_load_cache]
    returns. *)
Theorem C7_unreadable_cache_is_rebuilt st user_dir pdf_basename :
  cache_unreadable st user_dir pdf_basename ->
  (exists st',
      _load_cache user_dir pdf_basename st = (Ok (None, None), st')
      /\ same_disk st st')
  /\ (forall username selected_name,
        user_dir = user_dir_of username ->
        pdf_basename = path_splitext_root selected_name ->
        truthy username = true -> truthy selected_name = true ->
        (path_join user_dir selected_name ∈ dom (files st)
         \/ path_join user_dir selected_name ∈ dirs st) ->
        exists st1,
          files st1 = files st
          /\ load_existing_pdf selected_name username st
             = rebuild_result selected_name
                 (process_pdf (path_join user_dir selected_name) user_dir
                    EXTRACT_TIMEOUT st1))
  /\ (forall st0 user_dir0 pdf_basename0,
        exists r st',
          _load_cache user_dir0 pdf_basename0 st0 = (Ok r, st')
          /\ same_disk st0 st').
Proof.
  intros Hbad. split; [|split].
  - destruct (load_cache_spec user_dir pdf_basename st)
      as (r & st' & Hload & Hdisk & _ & _ & Hnone).
    exists st'. by rewrite <- (Hnone Hbad).
  - intros username selected_name -> -> Huser Hname Hpdf.
    destruct (load_existing_pdf_miss st username selected_name Huser Hname Hpdf Hbad)
      as (st1 & Hf & _ & _ & Heq).
    by exists st1.
  - intros st0 user_dir0 pdf_basename0.
    destruct (load_cache_spec user_dir0 pdf_basename0 st0)
      as (r & st' & Hload & Hdisk & _).
    by exists r, st'.
Qed.

End CacheClaims.

(* ===================================================================== *)
(** ** Loading every cached document *)
(* ===================================================================== *)

Section MergeFacts.

Context `{Externals}.

Lemma dict_copy_fresh sec d st :
  heap st !! sec = Some d ->
  dict_copy sec st
  = (Ok (fresh (dom (heap st))), set_heap (insert (fresh (dom (heap st))) d) st).
Proof.
  intros Hsec. unfold dict_copy, bind, get_dict, new_dict, deref. by rewrite Hsec.
Qed.

(** The loop copies every Section record and tags the copy; the records
    it was given are as they were. *)
Lemma tag_sections_spec pdf_basename sections : forall ds tagged st,
  holds (heap st) sections ds ->
  exists ls st',
    tag_sections sections pdf_basename tagged st = (Ok (tagged ++ ls), st')
    /\ same_disk st st' /\ heap st ⊆ heap st'
    /\ holds (heap st') ls (map (tag_section pdf_basename) ds).
Proof.
  induction sections as [|sec rest IH]; intros ds tagged st Hholds.
  - apply Forall2_nil_inv_l in Hholds as ->.
    exists [], st. rewrite app_nil_r. repeat split; [done|constructor].
  - apply Forall2_cons_inv_l in Hholds as (d & ds' & Hsec & Hrest & ->).
    cbn [tag_sections]. unfold bind at 1. rewrite (dict_copy_fresh sec d st Hsec).
    set (l := fresh (dom (heap st))).
    assert (Hl : heap st !! l = None) by apply not_elem_of_dom, is_fresh.
    unfold bind at 1, dict_setitem.
    set (st2 := set_heap _ (set_heap _ st)).
    assert (Hheap2 : heap st2 = <[l := tag_section pdf_basename d]> (heap st)).
    { subst st2. simpl. unfold deref. rewrite lookup_insert_eq. simpl.
      by rewrite insert_insert_eq. }
    assert (Hsub2 : heap st ⊆ heap st2).
    { rewrite Hheap2. by apply insert_subseteq. }
    destruct (IH ds' (tagged ++ [l]) st2) as (ls & st' & Hrun & Hd & Hsub & Hh).
    { by eapply holds_weaken. }
    exists (l :: ls), st'. rewrite Hrun, <- app_assoc. split; [done|].
    split; [|split; [by etrans|]].
    + destruct Hd as (Hf & Hdirs & Hdb). by repeat split.
    + constructor; [|done].
      apply (lookup_weaken (heap st2)); [|done].
      rewrite Hheap2. apply lookup_insert_eq.
Qed.

Lemma merged_sections_cons fs user_dir pdf_path rest :
  merged_sections fs user_dir (pdf_path :: rest)
  = match cached_index fs user_dir (path_splitext_root (path_basename pdf_path)) with
    | Some (sections, _) =>
        map (tag_section (path_splitext_root (path_basename pdf_path))) sections
    | None => []
    end ++ merged_sections fs user_dir rest.
Proof. done. Qed.

Lemma merged_chunks_cons fs user_dir pdf_path rest :
  merged_chunks fs user_dir (pdf_path :: rest)
  = match cached_index fs user_dir (path_splitext_root (path_basename pdf_path)) with
    | Some (_, chunk_index) => chunk_index
    | None => []
    end ++ merged_chunks fs user_dir rest.
Proof. done. Qed.

(** The loop over the uploads appends, document after document, the
    tagged copies of the cached Section records and the cached chunks. *)
Lemma load_all_loop_spec user_dir uploads : forall all_sections all_chunks st,
  exists ls st',
    load_all_loop user_dir uploads all_sections all_chunks st
    = (Ok (all_sections ++ ls,
           all_chunks ++ merged_chunks (files st) user_dir uploads), st')
    /\ same_disk st st' /\ heap st ⊆ heap st'
    /\ holds (heap st') ls (merged_sections (files st) user_dir uploads).
Proof.
  induction uploads as [|pdf_path rest IH]; intros all_sections all_chunks st.
  - exists [], st. cbn. rewrite !app_nil_r. repeat split; [done|constructor].
  - cbn [load_all_loop]. rewrite merged_sections_cons, merged_chunks_cons.
    set (pdf_basename := path_splitext_root (path_basename pdf_path)).
    destruct (load_cache_spec user_dir pdf_basename st)
      as (r & st1 & Hload & Hd1 & Hsub1 & Hspec & _).
    unfold bind at 1. rewrite Hload.
    assert (Hf1 : files st1 = files st) by apply Hd1.
    destruct (cached_index (files st) user_dir pdf_basename) as [[secs idx]|].
    + destruct Hspec as (ls0 & -> & Hh0).
      destruct (tag_sections_spec pdf_basename ls0 secs [] st1 Hh0)
        as (ls1 & st2 & Htag & Hd2 & Hsub2 & Hh1).
      unfold bind at 1. rewrite Htag. cbn [app].
      assert (Hf2 : files st2 = files st) by (rewrite <- Hf1; apply Hd2).
      destruct (IH (all_sections ++ ls1) (all_chunks ++ idx) st2)
        as (ls & st' & Hrun & Hd3 & Hsub3 & Hh).
      rewrite Hf2 in Hrun, Hh.
      exists (ls1 ++ ls), st'. rewrite Hrun, <- !app_assoc. split; [done|].
      split; [by repeat (eapply same_disk_trans; [eassumption|])|].
      split; [by repeat (etrans; [eassumption|])|].
      apply holds_app; [by eapply holds_weaken | done].
    + destruct (IH all_sections all_chunks st1)
        as (ls & st' & Hrun & Hd3 & Hsub3 & Hh).
      rewrite Hf1 in Hrun, Hh.
      exists ls, st'. cbn [app]. split.
      * destruct r as [[s|] [c|]]; cbn [fst snd] in Hspec;
          [by destruct Hspec | done..].
      * split; [by eapply same_disk_trans|]. split; [by etrans | done].
Qed.

End MergeFacts.

Lemma load_all_cached_pdfs_readers (E1 E2 : Externals) username :
  same_readers E1 E2 ->
  @load_all_cached_pdfs E1 username = @load_all_cached_pdfs E2 username.
Proof.
  destruct E1, E2. unfold same_readers. cbn.
  intros (-> & -> & -> & -> & ->). reflexivity.
Qed.

(** C8, amended. For a logged-in user, [load_all_cached_pdfs] returns,
    leaves every file and the user database as they are, and leaves
    every object in memory as it is. When the documents of the user's
    upload list that have a cached index hold at least one Section
    record between them, it returns new objects holding, in upload
    order, the cached Section records, each with the key ["file_name"]
    set to the base name of its PDF, together with the concatenation of
    the cached chunk indexes; when they hold none, it returns
    [(None, None)] and a message. The tagging loop leaves the records it
    copies as they are. The result does not depend on the extractor, the
    cleaner, the index builder or the section builder. *)
Theorem C8_merge_is_concatenation `{E : Externals} st username :
  truthy username = true ->
  let user_dir := user_dir_of username in
  let uploads := uploads_of st username in
  let sections := merged_sections (files st) user_dir uploads in
  let chunks := merged_chunks (files st) user_dir uploads in
  (exists result st',
      load_all_cached_pdfs username st = (Ok result, st')
      /\ files st' = files st /\ user_db st' = user_db st
      /\ heap st ⊆ heap st'
      /\ match sections with
         | [] => exists msg, result = (None, None, msg)
         | _ :: _ =>
             exists ls msg,
               result = (Some ls, Some chunks, msg)
               /\ holds (heap st') ls sections
               /\ map (deref (heap st')) ls = sections
         end)
  /\ (forall pdf_basename secs ds tagged st0,
        holds (heap st0) secs ds ->
        exists ls st1,
          tag_sections secs pdf_basename tagged st0 = (Ok (tagged ++ ls), st1)
          /\ holds (heap st1) secs ds
          /\ holds (heap st1) ls (map (tag_section pdf_basename) ds))
  /\ (forall E' : Externals,
        same_readers E' E ->
        @load_all_cached_pdfs E' username st = load_all_cached_pdfs username st).
Proof.
  intros Huser user_dir uploads sections chunks. split; [|split].
  - unfold load_all_cached_pdfs. rewrite Huser. cbn [negb].
    unfold ensure_user_dir, bind at 1, bind at 1, makedirs, ret.
    fold (user_dir_of username). fold user_dir.
    set (st0 := set_dirs (fun d => {[user_dir]} ∪ d) st).
    unfold bind at 1, get_uploads.
    change (match user_db st0 !! username with
            | Some u => WebDemo.uploads u
            | None => []
            end) with uploads.
    subst sections chunks.
    destruct uploads as [|pdf_path rest] eqn:Hup.
    + exists (None, None, py "No cached PDFs were found."), st0.
      repeat split; [done|]. by eexists.
    + destruct (load_all_loop_spec user_dir (pdf_path :: rest) [] [] st0)
        as (ls & st' & Hrun & (Hf & Hdirs & Hdb) & Hsub & Hh).
      unfold bind at 1. rewrite Hrun. cbn [app].
      change (files st0) with (files st) in Hh.
      destruct ls as [|l ls].
      * apply Forall2_nil_inv_l in Hh. rewrite Hh.
        eexists _, st'. unfold ret. repeat split; [done..|]. by eexists.
      * pose proof Hh as Hh'.
        apply Forall2_cons_inv_l in Hh' as (d & ds & _ & _ & Heq). rewrite Heq.
        rewrite <- Heq.
        eexists _, st'. unfold ret. repeat split; [done..|].
        destruct (merged_sections _ _ _) eqn:Hm in |- *; [by rewrite Hm in Heq|].
        rewrite <- Hm. eexists _, _. repeat split; [done|].
        by apply holds_deref.
  - intros pdf_basename secs ds tagged st0 Hh.
    destruct (tag_sections_spec pdf_basename secs ds tagged st0 Hh)
      as (ls & st1 & Hrun & _ & Hsub & Hh1).
    exists ls, st1. repeat split; [done| |done]. by eapply holds_weaken.
  - intros E' Hsame. by rewrite (load_all_cached_pdfs_readers E' E username Hsame).
Qed.

(* ===================================================================== *)
(** ** The theorems at work on the small instance *)
(* ===================================================================== *)

Import Toy.

(** C1 at work: page 1 of the example table is under "Methods", and
    page 0 of a table that starts on page 3 is under the sentinel. *)
Lemma C1_witness :
  toc_sorted example_toc
  /\ get_section_of_page 1 example_toc = py "Methods"
  /\ toc_sorted late_toc
  /\ get_section_of_page 0 late_toc = default_section.
Proof.
  assert (S1 : toc_sorted example_toc) by (repeat constructor; simpl; lia).
  assert (S2 : toc_sorted late_toc) by (repeat constructor; simpl; lia).
  split; [exact S1|]. split.
  - rewrite (proj1 (C1_section_of_page_sorted 1 example_toc S1)). reflexivity.
  - split; [exact S2|].
    apply (proj2 (C1_section_of_page_sorted 0 late_toc S2)).
    intros e [= <-]. simpl. lia.
Defined.

(** C2 at work, with windows of five characters. *)
Lemma C2_witness :
  0 < 5
  /\ exists chunks,
       chunk_text clean_text (py "  hello world   foo ") 5 = Some chunks
       /\ List.filter not_space (concat chunks)
          = List.filter not_space (clean_text (py "  hello world   foo ")).
Proof.
  split; [lia|].
  destruct (C2_chunks_cover_cleaned_text clean_text (py "  hello world   foo ") 5)
    as (chunks & pads & Hrun & _ & _ & _ & _ & Hsame); [lia|].
  exists chunks. split; [exact Hrun | exact Hsame].
Defined.

(** C3 at work: a page of 1200 letters between blanks and a page of
    300 letters. *)
Lemma C3_witness :
  length (clean_text page0) = 1200%nat
  /\ length (clean_text page1) = 300%nat
  /\ exists recs,
       process_extracted_file clean_text
         (JsonData (py "doc.pdf") example_toc [page0; page1]) = Some recs
       /\ map (fun r => (page_idx r, chunk_index r, section_title r, length (content r)))
             recs
          = [ (0, 0, py "Intro", 500%nat); (0, 1, py "Intro", 500%nat);
              (0, 2, py "Intro", 200%nat); (1, 0, py "Methods", 300%nat) ].
Proof.
  split; [vm_compute; reflexivity|]. split; [vm_compute; reflexivity|].
  destruct (C3_end_to_end_example clean_text (py "doc.pdf") page0 page1)
    as (Hrun & L0 & L1 & L2 & L3); [vm_compute; reflexivity..|].
  eexists. split; [exact Hrun|].
  cbn [map page_idx chunk_index section_title content].
  rewrite L0, L1, L2, L3. reflexivity.
Defined.

(** C9 at work: a page of blanks between two pages of text. *)
Lemma C9_witness :
  clean_text (py "   ") = []
  /\ chunk_text clean_text (py "   ") 500 = Some []
  /\ exists recs,
       process_extracted_file clean_text
         (JsonData (py "doc.pdf") example_toc [py "ab"; py "   "; py "cd"])
       = Some recs
       /\ on_page 1 recs = [].
Proof.
  split; [reflexivity|].
  destruct (C9_empty_page_yields_no_chunks clean_text (py "   ") eq_refl)
    as [Hchunks Hpages].
  split; [apply Hchunks|].
  destruct (Hpages (py "doc.pdf") example_toc [py "ab"] [py "cd"])
    as (recs1 & recs2 & _ & _ & Hrun & Hnone).
  exists (recs1 ++ recs2). split; [exact Hrun | exact Hnone].
Defined.

(** C6 at work on [b.pdf]: with the extractor that never returns the
    call does not return; with the extractor that needs 121 seconds it
    raises. *)
Lemma C6_witness :
  @process_pdf stuck (py "data/user_uploads/alice/b.pdf") alice_dir 120 state0
  = (NoReturn, state0)
  /\ @process_pdf toy (py "data/user_uploads/alice/b.pdf") alice_dir 120 state0
     = (Raise (RuntimeError timeout_message), state0).
Proof.
  split.
  - apply (@C6_timeout_guard_waits_for_the_worker stuck
             (py "data/user_uploads/alice/b.pdf") alice_dir 120 state0).
    reflexivity.
  - eapply (@C6_timeout_guard_waits_for_the_worker toy
              (py "data/user_uploads/alice/b.pdf") alice_dir 120 state0).
    + vm_compute. reflexivity.
    + vm_compute. reflexivity.
Defined.

(** The sections file of [b.pdf] does not load. *)
Lemma state0_b_unreadable : @cache_unreadable toy state0 alice_dir (py "b").
Proof.
  right. right. left.
  exists [9%N], (OtherException (py "ValueError") (py "cannot load")).
  split; vm_compute; reflexivity.
Defined.

(** C7 at work on the cache of [b.pdf]. *)
Lemma C7_witness :
  @cache_unreadable toy state0 alice_dir (py "b")
  /\ (exists st',
        @_load_cache toy alice_dir (py "b") state0 = (Ok (None, None), st')
        /\ same_disk state0 st')
  /\ (exists st1,
        files st1 = files state0
        /\ @load_existing_pdf toy (py "b.pdf") alice state0
           = rebuild_result (py "b.pdf")
               (@process_pdf toy (@path_join toy alice_dir (py "b.pdf")) alice_dir
                  EXTRACT_TIMEOUT st1)).
Proof.
  split; [exact state0_b_unreadable|].
  destruct (@C7_unreadable_cache_is_rebuilt toy state0 alice_dir (py "b")
              state0_b_unreadable) as (Hload & Hrebuild & _).
  split; [exact Hload|].
  apply (Hrebuild alice (py "b.pdf")); try (vm_compute; reflexivity).
  left. apply elem_of_dom. exists (replicate 121 37%N). vm_compute. reflexivity.
Defined.

(** C8 at work, once the cache of [b.pdf] loads. *)
Lemma C8_witness :
  truthy alice = true
  /\ exists result st',
       @load_all_cached_pdfs toy alice state1 = (Ok result, st')
       /\ files st' = files state1.
Proof.
  split; [reflexivity|].
  destruct (proj1 (@C8_merge_is_concatenation toy state1 alice eq_refl))
    as (result & st' & Hrun & Hfiles & _).
  exists result, st'. split; [exact Hrun | exact Hfiles].
Defined.

(** C8 as stated fails. Alice's [a.pdf] has a cached index with one
    chunk and no Section record, the cache of her [b.pdf] does not load:
    the concatenation of the cached chunk indexes is that one chunk, and
    [load_all_cached_pdfs] returns [(None, None)]. *)
Lemma C8_counterexample :
  @merged_chunks toy (files state0) (@user_dir_of toy alice) (uploads_of state0 alice)
  = [toy_record 7]
  /\ fst (@load_all_cached_pdfs toy alice state0)
     = Ok (None, None, py "No cached data found. Process PDFs first.")
  /\ ~ (exists ls msg st',
          @load_all_cached_pdfs toy alice state0
          = (Ok (Some ls,
                 Some (@merged_chunks toy (files state0) (@user_dir_of toy alice)
                         (uploads_of state0 alice)),
                 msg), st')).
Proof.
  assert (Hrun : fst (@load_all_cached_pdfs toy alice state0)
                 = Ok (None, None, py "No cached data found. Process PDFs first."))
    by (vm_compute; reflexivity).
  split; [vm_compute; reflexivity|]. split; [exact Hrun|].
  intros (ls & msg & st' & Heq). rewrite Heq in Hrun. discriminate.
Qed.

(* ===================================================================== *)
(** ** Further properties of the chunker *)
(* ===================================================================== *)

Section ChunkerMore.

Variable clean : pystr -> pystr.

Lemma section_scan_all_upto p (pre : list toc_entry) : forall current,
  Forall (fun x => toc_start x <= p + 1) pre ->
  forall rest,
    section_scan p (pre ++ rest) current
    = section_scan p rest
        (match last pre with Some x => toc_title x | None => current end).
Proof.
  induction pre as [|[[lvl title] start_p] pre IH]; intros current Hall rest;
    [done|].
  apply Forall_cons in Hall as [Hx Hall]. cbn [toc_start] in Hx.
  rewrite <- app_comm_cons. cbn [section_scan].
  destruct (Z.geb_spec (p + 1) start_p); [|lia].
  rewrite IH by done. rewrite last_cons_default.
  by destruct (last pre).
Qed.

(** X1. The scan of [get_section_of_page] stops at the first entry that
    starts after the page: with the entries [pre] all starting at or
    before page [p + 1] and the next entry [e] starting later, the
    result is the title of the last entry of [pre] (the sentinel when
    [pre] is empty), whatever follows [e], also entries that start at
    or before the page. *)
Theorem X1_section_scan_stops_at_first_later_entry p pre e rest :
  Forall (fun x => toc_start x <= p + 1) pre ->
  p + 1 < toc_start e ->
  get_section_of_page p (pre ++ e :: rest)
  = match last pre with
    | Some x => toc_title x
    | None => default_section
    end.
Proof.
  intros Hall Hlater. unfold get_section_of_page.
  rewrite section_scan_all_upto by done.
  destruct e as [[lvl title] start_p]. cbn [section_scan toc_start] in *.
  destruct (Z.geb_spec (p + 1) start_p); [lia | done].
Qed.

Lemma section_scan_origin p (toc : list toc_entry) : forall current,
  section_scan p toc current = current
  \/ exists e, e ∈ toc /\ toc_title e = section_scan p toc current
               /\ toc_start e <= p + 1.
Proof.
  induction toc as [|[[lvl title] start_p] toc IH]; intros current; [by left|].
  cbn [section_scan]. destruct (Z.geb_spec (p + 1) start_p) as [Hge|]; [|by left].
  right. destruct (IH title) as [Heq|(e & Hin & Ht & Hs)].
  - exists (lvl, title, start_p). rewrite Heq. split; [left|]. split; [done|].
    simpl. lia.
  - exists e. split; [by right | done].
Qed.

(** X2. Whatever the order of the table-of-contents, the title
    [get_section_of_page] gives a page is the sentinel or the title of an
    entry of the table that starts at or before that page: a page is
    never put in a section that starts after it. *)
Theorem X2_section_starts_at_or_before_page p (toc : list toc_entry) :
  get_section_of_page p toc = default_section
  \/ exists e, e ∈ toc /\ toc_title e = get_section_of_page p toc
               /\ toc_start e <= p + 1.
Proof. apply section_scan_origin. Qed.

(** X3. With a chunk size that is zero or negative, [chunk_text] does
    not return on a text whose cleaned form is not empty: the loop never
    advances, and no amount of fuel gives a result. *)
Theorem X3_chunk_text_loops_on_nonpositive_size text chunk_size :
  chunk_size <= 0 -> clean text <> [] ->
  (forall fuel, chunk_text_fuel clean fuel text chunk_size = None)
  /\ chunk_text clean text chunk_size = None.
Proof.
  intros Hsize Hne. split.
  - intros fuel. by apply chunk_text_fuel_stuck.
  - by apply chunk_text_fuel_stuck.
Qed.

Lemma windows_fuel_count {A} fuel size (s : list A) :
  (0 < size)%nat ->
  (length (windows_fuel fuel size s) * size < length s + size)%nat.
Proof.
  intros Hsize. revert s. induction fuel as [|fuel IH]; intros s; [simpl; lia|].
  destruct s as [|x s]; [simpl; lia|]. rewrite windows_fuel_cons.
  cbn [length]. specialize (IH (drop size (x :: s))).
  rewrite length_drop in IH. cbn [length] in IH.
  rewrite Nat.mul_succ_l.
  destruct (length (windows_fuel fuel size (drop size (x :: s)))) as [|k];
    rewrite ?Nat.mul_succ_l in *; lia.
Qed.

Lemma kept_windows_count size cleaned :
  (length (kept_windows size cleaned) <= length (windows size cleaned))%nat.
Proof.
  unfold kept_windows.
  etransitivity; [apply List.filter_length_le|]. by rewrite length_map.
Qed.

Lemma kept_windows_total (ws : list pystr) :
  (length (concat (List.filter truthy (map strip ws))) <= length (concat ws))%nat.
Proof.
  induction ws as [|w ws IH]; [done|]. cbn [map List.filter concat].
  pose proof (strip_length w).
  destruct (truthy (strip w)); cbn [concat]; rewrite ?length_app; lia.
Qed.

(** X4. For every positive chunk size [chunk_text] returns; each chunk
    is not empty, has no white space at either end and has at most
    [chunk_size] characters; there are at most ceil(n / chunk_size)
    chunks, n being the length of the cleaned text; and together they
    have at most n characters. *)
Theorem X4_chunk_text_shape text chunk_size :
  0 < chunk_size ->
  exists chunks,
    chunk_text clean text chunk_size = Some chunks
    /\ Forall (fun c => c <> [] /\ strip c = c /\ len c <= chunk_size) chunks
    /\ Z.of_nat (length chunks) * chunk_size < len (clean text) + chunk_size
    /\ len (concat chunks) <= len (clean text).
Proof.
  intros Hsize. exists (kept_windows (Z.to_nat chunk_size) (clean text)).
  split; [by apply chunk_text_windows|]. split; [|split].
  - apply Forall_forall. intros c Hc.
    destruct (kept_windows_trimmed _ _ _ Hc) as [Hne Hstrip].
    split; [done|]. split; [done|].
    pose proof (kept_windows_length (Z.to_nat chunk_size) (clean text)) as Hlen.
    rewrite Forall_forall in Hlen. specialize (Hlen ltac:(lia) c Hc).
    unfold len. lia.
  - pose proof (kept_windows_count (Z.to_nat chunk_size) (clean text)).
    pose proof (windows_fuel_count (length (clean text)) (Z.to_nat chunk_size)
                  (clean text) ltac:(lia)) as Hcount.
    fold (windows (Z.to_nat chunk_size) (clean text)) in Hcount.
    unfold len. nia.
  - unfold kept_windows, len.
    pose proof (kept_windows_total (windows (Z.to_nat chunk_size) (clean text))) as Ht.
    rewrite (windows_concat (Z.to_nat chunk_size) (clean text)) in Ht by lia. lia.
Qed.

(** X5. A text whose cleaned form fits in one window gives one chunk,
    the cleaned text trimmed, or no chunk when that is empty (the cleaned
    text is empty or white space only). *)
Theorem X5_chunk_text_single_window text chunk_size :
  0 < chunk_size -> len (clean text) <= chunk_size ->
  chunk_text clean text chunk_size
  = Some (if truthy (strip (clean text)) then [strip (clean text)] else []).
Proof.
  intros Hsize Hfits. rewrite chunk_text_windows by done. unfold kept_windows.
  destruct (clean text) as [|c s] eqn:Hclean; [done|].
  rewrite windows_short; [done..|]. unfold len in Hfits. lia.
Qed.

Lemma pages_records_without_title pdf_path toc1 toc2 pages : forall first,
  map without_title (pages_records clean pdf_path toc1 first pages)
  = map without_title (pages_records clean pdf_path toc2 first pages).
Proof.
  induction pages as [|text pages IH]; intros first; [done|].
  rewrite !pages_records_cons, !map_app, IH. f_equal.
  unfold page_records. rewrite !map_map. apply map_ext. by intros [c_i c_text].
Qed.

(** X6. The table-of-contents decides the section titles and nothing
    else: for two tables, [process_extracted_file] returns records that
    agree, one by one, on file, page, chunk index and content. *)
Theorem X6_toc_only_sets_titles pdf_path toc1 toc2 pages :
  exists recs1 recs2,
    process_extracted_file clean (JsonData pdf_path toc1 pages) = Some recs1
    /\ process_extracted_file clean (JsonData pdf_path toc2 pages) = Some recs2
    /\ map without_title recs1 = map without_title recs2.
Proof.
  eexists _, _. rewrite !process_extracted_file_records.
  split; [done|]. split; [done|]. apply pages_records_without_title.
Qed.

End ChunkerMore.

(* ===================================================================== *)
(** ** The extra properties at work *)
(* ===================================================================== *)

(** X1 at work: the entry for page 2 that comes after a later one is
    not seen. *)
Lemma X1_witness :
  get_section_of_page 1 [(1, py "A", 1); (1, py "B", 3); (1, py "C", 2)] = py "A".
Proof.
  apply (X1_section_scan_stops_at_first_later_entry 1
           [(1, py "A", 1)] (1, py "B", 3) [(1, py "C", 2)]).
  - repeat constructor. vm_compute. discriminate.
  - vm_compute. reflexivity.
Defined.

(** X3 at work: a chunk size of zero. *)
Lemma X3_witness :
  0 <= 0 /\ clean_text (py "abc") <> []
  /\ chunk_text clean_text (py "abc") 0 = None.
Proof.
  assert (Hne : clean_text (py "abc") <> []) by (vm_compute; discriminate).
  split; [lia|]. split; [exact Hne|].
  apply (X3_chunk_text_loops_on_nonpositive_size clean_text (py "abc") 0); [lia|exact Hne].
Defined.

(** X4 at work on a page of 1200 letters between blanks. *)
Lemma X4_witness :
  exists chunks,
    chunk_text clean_text page0 500 = Some chunks
    /\ Z.of_nat (length chunks) * 500 < len (clean_text page0) + 500.
Proof.
  destruct (X4_chunk_text_shape clean_text page0 500) as (chunks & Hrun & _ & Hcount & _);
    [lia|].
  exists chunks. split; [exact Hrun|exact Hcount].
Defined.

(** X5 at work on a short text. *)
Lemma X5_witness :
  chunk_text clean_text (py " ab  cd ") 500 = Some [py "ab cd"].
Proof.
  rewrite (X5_chunk_text_single_window clean_text (py " ab  cd ") 500);
    [vm_compute; reflexivity|lia|vm_compute; discriminate].
Defined.

(* ===================================================================== *)
(** ** Users, uploads and questions *)
(* ===================================================================== *)

Import WebApp WebAppSpec Toy2.

(* ===================================================================== *)
(** ** Writing and reading the cache *)
(* ===================================================================== *)

Section CacheRoundTrip.

Context `{Externals}.

(** Whether a path can be opened depends on the files and directories
    there are. *)
Lemma open_error_same_disk st st' p :
  files st' = files st -> dirs st' = dirs st ->
  open_error st' p = open_error st p.
Proof. unfold open_error. by intros -> ->. Qed.

(** [_save_cache] opens the sections file, writes it, and then opens the
    index file: it stops where an [open] raises. *)
Lemma save_cache_spec user_dir pdf_basename sections chunk_index st :
  let paths := _cache_paths user_dir pdf_basename in
  let st1 :=
    set_files (insert (fst paths) (json_dump (map (deref (heap st)) sections))) st in
  _save_cache user_dir pdf_basename sections chunk_index st
  = match open_error st (fst paths) with
    | Some e => (Raise e, st)
    | None =>
        match open_error st1 (snd paths) with
        | Some e => (Raise e, st1)
        | None => (Ok tt, set_files (insert (snd paths) (pickle_dump chunk_index)) st1)
        end
    end.
Proof.
  intros paths st1. unfold _save_cache. fold paths.
  destruct paths as [sec_path idx_path] eqn:Hpaths. cbn [fst snd] in *.
  unfold bind at 1, get_dicts. unfold bind at 1, open_write at 1.
  destruct (open_error st sec_path) as [e|]; [done|].
  fold st1. unfold open_write. by destruct (open_error st1 idx_path).
Qed.

Lemma cached_index_written fs user_dir pdf_basename secs chunk_index :
  json_load (json_dump secs) = Returned (Some secs) ->
  pickle_load (pickle_dump chunk_index) = Returned (Some chunk_index) ->
  fst (_cache_paths user_dir pdf_basename) <> snd (_cache_paths user_dir pdf_basename) ->
  cached_index
    (<[snd (_cache_paths user_dir pdf_basename) := pickle_dump chunk_index]>
       (<[fst (_cache_paths user_dir pdf_basename) := json_dump secs]> fs))
    user_dir pdf_basename
  = Some (secs, chunk_index).
Proof.
  intros Hjson Hpickle Hne. unfold cached_index.
  destruct (_cache_paths user_dir pdf_basename) as [sec_path idx_path].
  cbn [fst snd] in *.
  rewrite lookup_insert_ne by done. rewrite !lookup_insert_eq.
  by rewrite Hjson, Hpickle.
Qed.

(** X7. What [_save_cache] has written, [_load_cache] reads back: if
    [_save_cache] returned (both files could be opened), the two cache
    paths differ and the loaders undo the dumps of these Section records
    and of this chunk index, then [_load_cache] returns new objects
    holding the same Section records, and the same chunk index, and
    writes nothing. *)
Theorem X7_save_then_load_cache user_dir pdf_basename sections secs chunk_index
        st st1 :
  holds (heap st) sections secs ->
  json_load (json_dump secs) = Returned (Some secs) ->
  pickle_load (pickle_dump chunk_index) = Returned (Some chunk_index) ->
  fst (_cache_paths user_dir pdf_basename) <> snd (_cache_paths user_dir pdf_basename) ->
  _save_cache user_dir pdf_basename sections chunk_index st = (Ok tt, st1) ->
  exists st2 ls,
    _load_cache user_dir pdf_basename st1 = (Ok (Some ls, Some chunk_index), st2)
    /\ holds (heap st2) ls secs
    /\ files st2 = files st1.
Proof.
  intros Hholds Hjson Hpickle Hne Hsave. rewrite save_cache_spec in Hsave.
  rewrite (holds_deref _ _ _ Hholds) in Hsave.
  destruct (open_error st _) as [e|]; [done|].
  destruct (open_error _ _) as [e|]; [done|].
  injection Hsave as <-.
  destruct (load_cache_spec user_dir pdf_basename
              (set_files
                 (insert (snd (_cache_paths user_dir pdf_basename))
                    (pickle_dump chunk_index))
                 (set_files
                    (insert (fst (_cache_paths user_dir pdf_basename))
                       (json_dump secs)) st)))
    as (r & st2 & Hload & (Hf & _) & _ & Hspec & _).
  cbn [files set_files] in Hspec.
  rewrite cached_index_written in Hspec by done.
  destruct Hspec as (ls & -> & Hh).
  exists st2, ls. by repeat split.
Qed.

(** The steps of [process_pdf] after the extraction. *)
Lemma process_pdf_unfold pdf_path user_dir timeout st :
  process_pdf pdf_path user_dir timeout st
  = match extract_pdf_content (files st) pdf_path with
    | NeverEnds => (NoReturn, st)
    | Ends d ending =>
        match future_result (Ends d ending) timeout with
        | Raised e =>
            if is_TimeoutError e then (Raise (RuntimeError timeout_message), st)
            else (Raise e, st)
        | Returned extracted =>
            match build_chunk_index
                    (document_records basic_clean_text (ex_data extracted)) with
            | Raised e => (Raise e, st)
            | Returned chunk_index =>
                match build_section_reps (ex_sections extracted) chunk_index with
                | Raised e => (Raise e, st)
                | Returned section_items =>
                    (sections <- new_dicts section_items ;;
                     _save_cache user_dir (path_splitext_root (path_basename pdf_path))
                       sections chunk_index ;;;
                     ret (sections, chunk_index)) st
                end
            end
        end
    end.
Proof.
  unfold process_pdf. unfold bind at 1, try_except, with_executor, lift at 1.
  destruct (extract_pdf_content (files st) pdf_path) as [d ending|]; [|done].
  destruct (future_result _ _) as [extracted|e]; [|by destruct (is_TimeoutError e)].
  unfold bind at 1, lift_loop. rewrite process_extracted_file_records.
  unfold bind at 1, lift at 1.
  destruct (build_chunk_index _) as [chunk_index|e]; [|done].
  unfold bind at 1, lift at 1.
  by destruct (build_section_reps _ _) as [section_items|e].
Qed.

(** How [process_pdf] ends, and what it leaves. *)
Lemma process_pdf_outcome pdf_path user_dir timeout st :
  let paths := _cache_paths user_dir (path_splitext_root (path_basename pdf_path)) in
  exists r st',
    process_pdf pdf_path user_dir timeout st = (r, st')
    /\ match r with
       | Ok (sections, chunk_index) =>
           files st'
           = <[snd paths := pickle_dump chunk_index]>
               (<[fst paths := json_dump (map (deref (heap st')) sections)]>
                  (files st))
           /\ dirs st' = dirs st /\ user_db st' = user_db st
           /\ heap st ⊆ heap st'
       | Raise e =>
           (dirs st' = dirs st /\ user_db st' = user_db st /\ heap st ⊆ heap st')
           /\ (st' = st
               \/ (open_error st (fst paths) = Some e /\ files st' = files st)
               \/ (open_error st (fst paths) = None
                   /\ open_error st' (snd paths) = Some e
                   /\ exists secs, files st' = <[fst paths := json_dump secs]> (files st)))
       | NoReturn =>
           extract_pdf_content (files st) pdf_path = NeverEnds /\ st' = st
       end.
Proof.
  intros paths. rewrite process_pdf_unfold.
  destruct (extract_pdf_content (files st) pdf_path) as [d ending|];
    [|by eexists _, _].
  destruct (future_result _ _) as [extracted|e].
  2:{ destruct (is_TimeoutError e); eexists _, _; (split; [done|]);
        (split; [done|by left]). }
  destruct (build_chunk_index _) as [chunk_index|e];
    [|by eexists _, _; split; [done|]; split; [done|left]].
  destruct (build_section_reps _ _) as [section_items|e];
    [|by eexists _, _; split; [done|]; split; [done|left]].
  destruct (new_dicts_spec section_items st)
    as (ls & st1 & Hnew & (Hf & Hd & Hdb) & Hsub & Hh).
  unfold bind at 1. rewrite Hnew. unfold bind at 1. rewrite save_cache_spec.
  fold paths. rewrite (open_error_same_disk st st1) by done.
  destruct (open_error st (fst paths)) as [e|] eqn:Hsec.
  { eexists _, _. split; [done|]. split; [done|]. right. left. done. }
  destruct (open_error _ (snd paths)) as [e|] eqn:Hidx.
  { eexists _, _. split; [done|]. cbn [files dirs user_db heap set_files].
    split; [done|]. right. right. split; [done|]. split; [done|].
    eexists. by rewrite Hf. }
  unfold ret. eexists _, _. split; [done|]. cbn [files dirs user_db heap set_files].
  by rewrite Hf.
Qed.

(** X8. [process_pdf] writes nothing but its two cache files, and
    writes them last. When it returns, the disk is the one before with
    the Section records it returns dumped into the sections file and the
    chunk index it returns dumped into the index file. When it raises,
    either the state is the one before (the timeout, the extractor, the
    index builder or the section builder raised), or the error is that
    of an [open] in [_save_cache]: of the sections file, and no file has
    changed, or of the index file, and the sections file is written
    without the index file. When it does not return, the extractor never
    ends and the state is the one before. Directories and the user
    database are as before throughout. *)
Theorem X8_process_pdf_writes_cache_last pdf_path user_dir timeout st :
  let paths := _cache_paths user_dir (path_splitext_root (path_basename pdf_path)) in
  exists r st',
    process_pdf pdf_path user_dir timeout st = (r, st')
    /\ dirs st' = dirs st /\ user_db st' = user_db st /\ heap st ⊆ heap st'
    /\ match r with
       | Ok (sections, chunk_index) =>
           files st'
           = <[snd paths := pickle_dump chunk_index]>
               (<[fst paths := json_dump (map (deref (heap st')) sections)]>
                  (files st))
       | Raise e =>
           st' = st
           \/ (open_error st (fst paths) = Some e /\ files st' = files st)
           \/ (open_error st (fst paths) = None
               /\ open_error st' (snd paths) = Some e
               /\ exists secs, files st' = <[fst paths := json_dump secs]> (files st))
       | NoReturn =>
           extract_pdf_content (files st) pdf_path = NeverEnds /\ st' = st
       end.
Proof.
  intros paths.
  destruct (process_pdf_outcome pdf_path user_dir timeout st)
    as (r & st' & Hrun & Hout).
  exists r, st'. split; [done|]. fold paths in Hout.
  destruct r as [[sections chunk_index]|e|].
  - by destruct Hout as (? & ? & ? & ?).
  - by destruct Hout as ((? & ? & ?) & ?).
  - by destruct Hout as [? ->].
Qed.

Lemma load_existing_pdf_hit st username selected_name secs chunk_index :
  let user_dir := user_dir_of username in
  truthy username = true -> truthy selected_name = true ->
  (path_join user_dir selected_name ∈ dom (files st)
   \/ path_join user_dir selected_name ∈ dirs st) ->
  cached_index (files st) user_dir (path_splitext_root selected_name)
  = Some (secs, chunk_index) ->
  exists ls st',
    load_existing_pdf selected_name username st
    = (Ok (Some ls, Some chunk_index, py "Loaded cached data for " ++ selected_name),
       st')
    /\ holds (heap st') ls secs
    /\ files st' = files st /\ user_db st' = user_db st.
Proof.
  intros user_dir Huser Hname Hpdf Hcached.
  unfold load_existing_pdf. rewrite Huser, Hname. cbn [negb].
  unfold ensure_user_dir, bind at 1, bind at 1, makedirs, ret.
  fold (user_dir_of username). fold user_dir.
  set (st0 := set_dirs (fun d => {[user_dir]} ∪ d) st).
  unfold bind at 1, path_exists. rewrite bool_decide_eq_true_2; cycle 1.
  { destruct Hpdf as [Hf|Hd]; [by left|]. right. simpl. set_solver. }
  cbn [negb].
  destruct (load_cache_spec user_dir (path_splitext_root selected_name) st0)
    as (r & st1 & Hload & (Hf & Hdirs & Hdb) & Hsub & Hspec & _).
  change (files st0) with (files st) in Hspec. rewrite Hcached in Hspec.
  destruct Hspec as (ls & -> & Hh).
  unfold bind at 1. rewrite Hload. exists ls, st1. by repeat split.
Qed.

(** X9. A cache that loads is used as it is: for a logged-in user and a
    PDF that exists, when both cache files load (and hold no [None]),
    [load_existing_pdf] returns objects holding the cached Section
    records, the cached chunk index and the message "Loaded cached data
    for <name>", and leaves every file as it is. *)
Theorem X9_load_existing_pdf_uses_cache st username selected_name secs chunk_index :
  let user_dir := user_dir_of username in
  truthy username = true -> truthy selected_name = true ->
  (path_join user_dir selected_name ∈ dom (files st)
   \/ path_join user_dir selected_name ∈ dirs st) ->
  cached_index (files st) user_dir (path_splitext_root selected_name)
  = Some (secs, chunk_index) ->
  exists ls st',
    load_existing_pdf selected_name username st
    = (Ok (Some ls, Some chunk_index, py "Loaded cached data for " ++ selected_name),
       st')
    /\ holds (heap st') ls secs
    /\ files st' = files st /\ user_db st' = user_db st.
Proof. apply load_existing_pdf_hit. Qed.

(** X10. A PDF that was processed is served from the cache the next
    time: if [process_pdf] returned for the PDF [selected_name] of a
    logged-in user, the cache is named after that PDF, its two paths
    differ, and the loaders undo the dumps of what was returned, then
    [load_existing_pdf] returns objects holding the same Section
    records, the same chunk index and "Loaded cached data for <name>",
    without writing. *)
Theorem X10_processed_pdf_is_served_from_cache st username selected_name
        sections chunk_index :
  let user_dir := user_dir_of username in
  let pdf_path := path_join user_dir selected_name in
  let st1 := snd (process_pdf pdf_path user_dir EXTRACT_TIMEOUT st) in
  let secs := map (deref (heap st1)) sections in
  truthy username = true -> truthy selected_name = true ->
  (pdf_path ∈ dom (files st) \/ pdf_path ∈ dirs st) ->
  path_splitext_root (path_basename pdf_path) = path_splitext_root selected_name ->
  fst (_cache_paths user_dir (path_splitext_root selected_name))
  <> snd (_cache_paths user_dir (path_splitext_root selected_name)) ->
  fst (process_pdf pdf_path user_dir EXTRACT_TIMEOUT st) = Ok (sections, chunk_index) ->
  json_load (json_dump secs) = Returned (Some secs) ->
  pickle_load (pickle_dump chunk_index) = Returned (Some chunk_index) ->
  exists ls st2,
    load_existing_pdf selected_name username st1
    = (Ok (Some ls, Some chunk_index, py "Loaded cached data for " ++ selected_name),
       st2)
    /\ holds (heap st2) ls secs
    /\ files st2 = files st1.
Proof.
  intros user_dir pdf_path st1 secs Huser Hname Hpdf Hbase Hne Hrun Hjson Hpickle.
  destruct (process_pdf_outcome pdf_path user_dir EXTRACT_TIMEOUT st)
    as (r & st' & Heq & Hout).
  subst st1 secs. rewrite Heq in *. cbn [fst snd] in *. subst r.
  destruct Hout as (Hfiles & Hdirs & _ & _). rewrite Hbase in Hfiles.
  destruct (load_existing_pdf_hit st' username selected_name
              (map (deref (heap st')) sections) chunk_index Huser Hname)
    as (ls & st2 & Hload & Hh & Hf2 & _).
  - fold user_dir. fold pdf_path. destruct Hpdf as [Hin|Hin].
    + left. rewrite Hfiles. apply elem_of_dom. apply elem_of_dom in Hin.
      rewrite !lookup_insert_is_Some'. auto.
    + right. by rewrite Hdirs.
  - fold user_dir. rewrite Hfiles. by apply cached_index_written.
  - by exists ls, st2.
Qed.

End CacheRoundTrip.

(* ===================================================================== *)
(** ** Logging in *)
(* ===================================================================== *)

Section Login.

Context `{Externals} `{AppExternals}.

(** A user that [USERS] does not know is registered. *)
Lemma login_unknown username password ap :
  USERS ap !! username = None ->
  let hashed := hash_password (entropy ap) password in
  let db := <[username := UserRecord hashed [] []]> (user_db (world ap)) in
  login username password ap
  = (Ok (true, username, py "New user created and logged in."),
     App (set_files (insert USER_DB_PATH (user_db_dump db))
            (set_user_db (insert username (UserRecord hashed [] [])) (world ap)))
         (<[username := hashed]> (USERS ap)) (S (entropy ap))).
Proof.
  intros Hnone. unfold login, bindA at 1, authenticate. rewrite Hnone.
  cbn [negb]. by rewrite Hnone.
Qed.

(** A user that [USERS] knows is checked, and nothing is changed. *)
Lemma login_known username password stored_hash ap :
  USERS ap !! username = Some stored_hash ->
  login username password ap
  = (Ok (if (if startswith stored_hash (py "$2b$")
             then verify_password password stored_hash
             else str_eqb stored_hash password)
         then (true, username, py "Login successful.")
         else (false, [], py "Invalid credentials.")), ap).
Proof.
  intros Hsome. unfold login, bindA at 1, authenticate. rewrite Hsome.
  destruct (if startswith stored_hash (py "$2b$") then _ else _); [done|].
  by rewrite Hsome.
Qed.

Lemma users_agree_insert ap username hashed ups prs w' :
  users_agree ap ->
  user_db w' = <[username := UserRecord hashed ups prs]> (user_db (world ap)) ->
  forall e, users_agree (App w' (<[username := hashed]> (USERS ap)) e).
Proof.
  unfold users_agree. intros Hagree Hdb e. cbn [USERS world].
  by rewrite Hdb, fmap_insert, Hagree.
Qed.

(** X11. [login] never turns an unknown name away: for any user name
    that [USERS] does not hold, the empty one included, and any password,
    it returns success with "New user created and logged in.", stores the
    salted hash of the password in [USERS] and in a new record of
    [_USER_DB] with no upload and no prompt, writes the database file,
    and touches no other file. *)
Theorem X11_login_registers_unknown_user username password ap :
  USERS ap !! username = None ->
  let hashed := hash_password (entropy ap) password in
  exists ap',
    login username password ap
    = (Ok (true, username, py "New user created and logged in."), ap')
    /\ USERS ap' = <[username := hashed]> (USERS ap)
    /\ user_db (world ap')
       = <[username := UserRecord hashed [] []]> (user_db (world ap))
    /\ files (world ap') !! USER_DB_PATH
       = Some (user_db_dump (user_db (world ap')))
    /\ (forall p, p <> USER_DB_PATH ->
                  files (world ap') !! p = files (world ap) !! p).
Proof.
  intros Hnone hashed. rewrite login_unknown by done. eexists. split; [done|].
  cbn [USERS world files user_db set_files set_user_db].
  repeat split.
  - apply lookup_insert_eq.
  - intros p Hp. by rewrite lookup_insert_ne.
Qed.

(** X12. Registering and logging in again: once [login] has registered
    a user with a password whose hash starts with "$2b$", a later
    [login] under that name succeeds exactly with the passwords that
    [verify_password] accepts against the stored hash, returning "Login
    successful." for them and "Invalid credentials." with an empty user
    name for the others, and changes nothing either way. *)
Theorem X12_login_after_registration username password attempt ap :
  USERS ap !! username = None ->
  let hashed := hash_password (entropy ap) password in
  let ap' := snd (login username password ap) in
  startswith hashed (py "$2b$") = true ->
  login username attempt ap'
  = (Ok (if verify_password attempt hashed
         then (true, username, py "Login successful.")
         else (false, [], py "Invalid credentials.")), ap').
Proof.
  intros Hnone hashed ap' Hprefix. subst ap'.
  rewrite (login_unknown username password ap Hnone). cbn [snd].
  rewrite (login_known username attempt hashed).
  - fold hashed. by rewrite Hprefix.
  - cbn [USERS]. apply lookup_insert_eq.
Qed.

(** X13. [login] returns, keeps every account there is, and keeps
    [USERS] and [_USER_DB] in step: when [USERS] holds the passwords of
    the users of [_USER_DB] and nothing else, it does so afterwards, and
    every user keeps the stored hash and the record they had; a failed
    or successful login of a known user changes nothing at all. *)
Theorem X13_login_keeps_accounts username password ap :
  users_agree ap ->
  exists r ap',
    login username password ap = (Ok r, ap')
    /\ users_agree ap'
    /\ (forall u h, USERS ap !! u = Some h -> USERS ap' !! u = Some h)
    /\ (forall u rec, user_db (world ap) !! u = Some rec ->
                      user_db (world ap') !! u = Some rec)
    /\ (is_Some (USERS ap !! username) -> ap' = ap).
Proof.
  intros Hagree. destruct (USERS ap !! username) as [stored|] eqn:Hu.
  - rewrite (login_known _ _ _ _ Hu). eexists _, ap. by repeat split.
  - rewrite login_unknown by done. eexists _, _. split; [done|].
    assert (Hdb : user_db (world ap) !! username = None).
    { unfold users_agree in Hagree. rewrite Hagree, lookup_fmap in Hu.
      by destruct (user_db (world ap) !! username). }
    split; [|split; [|split]].
    + by apply (users_agree_insert ap username _ [] []).
    + intros u h Hh. cbn [USERS]. rewrite lookup_insert_ne; [done|congruence].
    + intros u rec Hrec. cbn [world user_db set_files set_user_db].
      rewrite lookup_insert_ne; [done|congruence].
    + by intros [? ?].
Qed.

End Login.

(* ===================================================================== *)
(** ** Uploading *)
(* ===================================================================== *)

Section Upload.

Context `{Externals} `{AppExternals}.

Local Open Scope app_scope.

(** What [record_upload] leaves. *)
Lemma record_upload_spec username dest_path system_prompt ap :
  let r0 := record_or_default ap username in
  let prompts' :=
    if truthy system_prompt && negb (str_in system_prompt (prompts r0))
    then prompts r0 ++ [system_prompt] else prompts r0 in
  let rec' := UserRecord (password r0) (add_once dest_path (uploads r0)) prompts' in
  let db' := <[username := rec']> (user_db (world ap)) in
  record_upload username dest_path system_prompt ap
  = (Ok tt,
     App (set_files (insert USER_DB_PATH (user_db_dump db'))
            (set_user_db (insert username rec') (world ap)))
         (USERS ap) (S (entropy ap))).
Proof. done. Qed.

(** [load_pdf] up to the call of [process_pdf], for an upload that can be
    copied. *)
Lemma load_pdf_steps pdf_file_name system_prompt username c ap :
  let user_dir := user_dir_of username in
  let dest_path := path_join user_dir (path_basename pdf_file_name) in
  truthy username = true ->
  files (world ap) !! pdf_file_name = Some c ->
  dest_path ∉ dirs (world ap) -> dest_path <> user_dir ->
  pdf_file_name <> dest_path ->
  load_pdf (Some pdf_file_name) system_prompt username ap
  = match process_pdf dest_path user_dir EXTRACT_TIMEOUT
            (with_upload (world ap) username dest_path c) with
    | (Ok (sections, chunk_index), st) =>
        (record_upload username dest_path system_prompt ;;;
         retA (Some sections, Some chunk_index,
               py "Processed " ++ path_basename dest_path))
          (App st (USERS ap) (entropy ap))
    | (Raise e, st) =>
        if is_RuntimeError e
        then (Ok (None, None, exn_str e), App st (USERS ap) (entropy ap))
        else (Raise e, App st (USERS ap) (entropy ap))
    | (NoReturn, st) => (NoReturn, App st (USERS ap) (entropy ap))
    end.
Proof.
  intros user_dir dest_path Huser Hfile Hnodir Hneq Hsame.
  unfold load_pdf. rewrite Huser. cbn [negb].
  unfold bindA at 1, in_world at 1, ensure_user_dir, bind, makedirs, ret.
  fold (user_dir_of username). fold user_dir. fold dest_path.
  unfold bindA at 1, in_world at 1, shutil_copy.
  cbn [world files dirs set_dirs]. rewrite Hfile.
  assert (Hnot : ~ dest_path ∈ {[user_dir]} ∪ dirs (world ap)).
  { rewrite elem_of_union, elem_of_singleton. tauto. }
  rewrite bool_decide_eq_false_2 by done.
  unfold str_eqb. rewrite bool_decide_eq_false_2 by done.
  rewrite bool_decide_eq_false_2 by done.
  unfold write_file. cbn [USERS entropy].
  unfold bindA at 1, try_exceptA, bindA at 1, in_world at 1.
  cbn [world].
  change (set_files _ (set_dirs _ (world ap)))
    with (with_upload (world ap) username dest_path c).
  destruct (process_pdf dest_path user_dir EXTRACT_TIMEOUT
              (with_upload (world ap) username dest_path c))
    as [[[sections chunk_index]|e|] st]; cbn [USERS entropy].
  - done.
  - unfold retA. by destruct (is_RuntimeError e).
  - done.
Qed.

Lemma add_once_NoDup x l : NoDup l -> NoDup (add_once x l).
Proof.
  intros Hl. unfold add_once, str_in. case_bool_decide; [done|].
  apply NoDup_app. split; [done|]. split; [|apply NoDup_singleton].
  intros y Hy Hx. apply list_elem_of_singleton in Hx. by subst.
Qed.

(** A successful [load_pdf], in full. *)
Lemma load_pdf_success pdf_file_name system_prompt username c ap
      sections chunk_index st :
  let user_dir := user_dir_of username in
  let dest_path := path_join user_dir (path_basename pdf_file_name) in
  upload_ready ap username pdf_file_name c ->
  process_pdf dest_path user_dir EXTRACT_TIMEOUT
    (with_upload (world ap) username dest_path c)
  = (Ok (sections, chunk_index), st) ->
  let r0 := record_or_default ap username in
  let prompts' :=
    if truthy system_prompt && negb (str_in system_prompt (prompts r0))
    then prompts r0 ++ [system_prompt] else prompts r0 in
  let rec' := UserRecord (password r0) (add_once dest_path (uploads r0)) prompts' in
  let db' := <[username := rec']> (user_db (world ap)) in
  load_pdf (Some pdf_file_name) system_prompt username ap
  = (Ok (Some sections, Some chunk_index,
         py "Processed " ++ path_basename dest_path),
     App (set_files (insert USER_DB_PATH (user_db_dump db'))
            (set_user_db (insert username rec') st))
         (USERS ap) (S (entropy ap))).
Proof.
  intros user_dir dest_path (Huser & Hfile & Hnodir & Hneq & Hsame) Hrun.
  rewrite (load_pdf_steps pdf_file_name system_prompt username c ap) by done.
  fold user_dir dest_path. rewrite Hrun.
  destruct (process_pdf_outcome dest_path user_dir EXTRACT_TIMEOUT
              (with_upload (world ap) username dest_path c))
    as (r & st' & Heq & Hout).
  rewrite Hrun in Heq. injection Heq as <- <-.
  destruct Hout as (_ & _ & Hdb & _). cbn [user_db with_upload set_files set_dirs] in Hdb.
  unfold bindA at 1. rewrite record_upload_spec.
  unfold record_or_default. cbn [world USERS entropy]. by rewrite Hdb.
Qed.

(** X14. A successful [load_pdf] records the upload and the prompt once:
    the user's upload list gets the path of the copy appended unless it
    is there already, so a list without duplicates stays one and
    uploading the same file again changes nothing; the prompt list gets
    a prompt that is not empty appended unless it is there already; the
    records of the other users and [USERS] are as before. *)
Theorem X14_load_pdf_records_upload_once pdf_file_name system_prompt username c ap
        sections chunk_index st :
  let user_dir := user_dir_of username in
  let dest_path := path_join user_dir (path_basename pdf_file_name) in
  upload_ready ap username pdf_file_name c ->
  process_pdf dest_path user_dir EXTRACT_TIMEOUT
    (with_upload (world ap) username dest_path c)
  = (Ok (sections, chunk_index), st) ->
  exists ap',
    load_pdf (Some pdf_file_name) system_prompt username ap
    = (Ok (Some sections, Some chunk_index,
           py "Processed " ++ path_basename dest_path), ap')
    /\ user_uploads (world ap') username
       = add_once dest_path (user_uploads (world ap) username)
    /\ (NoDup (user_uploads (world ap) username) ->
        NoDup (user_uploads (world ap') username))
    /\ user_prompts (world ap') username
       = (if truthy system_prompt
          then add_once system_prompt (user_prompts (world ap) username)
          else user_prompts (world ap) username)
    /\ (forall u, u <> username ->
                  user_db (world ap') !! u = user_db (world ap) !! u)
    /\ USERS ap' = USERS ap.
Proof.
  intros user_dir dest_path Hready Hrun.
  rewrite (load_pdf_success _ system_prompt _ _ _ _ _ _ Hready Hrun).
  eexists. split; [done|].
  destruct (process_pdf_outcome dest_path user_dir EXTRACT_TIMEOUT
              (with_upload (world ap) username dest_path c))
    as (r & st' & Heq & Hout).
  fold user_dir dest_path in Hrun. rewrite Hrun in Heq. injection Heq as <- <-.
  destruct Hout as (_ & _ & Hdb & _). cbn [user_db with_upload set_files set_dirs] in Hdb.
  assert (Hup : uploads (record_or_default ap username)
                = user_uploads (world ap) username).
  { unfold record_or_default, user_uploads.
    by destruct (user_db (world ap) !! username). }
  assert (Hpr : prompts (record_or_default ap username)
                = user_prompts (world ap) username).
  { unfold record_or_default, user_prompts.
    by destruct (user_db (world ap) !! username). }
  cbn [world USERS].
  assert (Hnew : forall fs rec,
            user_uploads (set_files fs (set_user_db (insert username rec) st)) username
            = uploads rec
            /\ user_prompts (set_files fs (set_user_db (insert username rec) st)) username
               = prompts rec).
  { intros fs rec. unfold user_uploads, user_prompts.
    cbn [user_db set_files set_user_db]. by rewrite lookup_insert_eq. }
  rewrite (proj1 (Hnew _ _)), (proj2 (Hnew _ _)). cbn [uploads prompts].
  rewrite Hup, Hpr. fold user_dir dest_path.
  split; [done|]. split; [apply add_once_NoDup|]. split; [|split; [|done]].
  - unfold add_once. destruct (truthy system_prompt); [|done].
    by destruct (str_in system_prompt _).
  - intros u Hu. cbn [user_db set_files set_user_db].
    rewrite lookup_insert_ne by done. by rewrite Hdb.
Qed.

(** X15. [load_pdf] and the accounts. For a user with a record in
    [_USER_DB] a successful [load_pdf] keeps the password and keeps
    [USERS] and [_USER_DB] in step. For a name with no record and no
    entry in [USERS] it creates the record, with the hash of the password
    "default", and leaves [USERS] without the name. *)
Theorem X15_load_pdf_and_accounts pdf_file_name system_prompt username c ap
        sections chunk_index st :
  let user_dir := user_dir_of username in
  let dest_path := path_join user_dir (path_basename pdf_file_name) in
  let ap' := snd (load_pdf (Some pdf_file_name) system_prompt username ap) in
  upload_ready ap username pdf_file_name c ->
  process_pdf dest_path user_dir EXTRACT_TIMEOUT
    (with_upload (world ap) username dest_path c)
  = (Ok (sections, chunk_index), st) ->
  (forall rec, user_db (world ap) !! username = Some rec ->
     (exists rec', user_db (world ap') !! username = Some rec'
                   /\ password rec' = password rec)
     /\ (users_agree ap -> users_agree ap'))
  /\ (user_db (world ap) !! username = None -> USERS ap !! username = None ->
      (exists rec', user_db (world ap') !! username = Some rec'
                    /\ password rec' = hash_password (entropy ap) (py "default")
                    /\ uploads rec' = [dest_path])
      /\ USERS ap' !! username = None).
Proof.
  intros user_dir dest_path ap' Hready Hrun. subst ap'.
  rewrite (load_pdf_success _ system_prompt _ _ _ _ _ _ Hready Hrun). cbn [snd].
  destruct (process_pdf_outcome dest_path user_dir EXTRACT_TIMEOUT
              (with_upload (world ap) username dest_path c))
    as (r & st' & Heq & Hout).
  fold user_dir dest_path in Hrun. rewrite Hrun in Heq. injection Heq as <- <-.
  destruct Hout as (_ & _ & Hdb & _). cbn [user_db with_upload set_files set_dirs] in Hdb.
  cbn [world USERS user_db set_files set_user_db]. split.
  - intros rec Hrec. unfold record_or_default. rewrite Hrec. cbn [default password].
    split.
    + eexists. by rewrite lookup_insert_eq.
    + unfold users_agree. cbn [world USERS user_db set_files set_user_db].
      intros ->. rewrite Hdb, fmap_insert. cbn [password].
      symmetry. apply insert_id. by rewrite lookup_fmap, Hrec.
  - intros Hnone Hnouser. unfold record_or_default. rewrite Hnone, Hnouser.
    cbn [default password uploads]. split; [|done].
    eexists. rewrite lookup_insert_eq. by repeat split.
Qed.

(** X16. When the extraction of an upload is over its budget, the copy
    of the upload stays on disk, but it is not put on the user's upload
    list, no cache file and no database file is written, and [USERS] and
    the entropy are as before. If the extraction ends, [load_pdf]
    returns the timeout message and no index; if it never ends,
    [load_pdf] does not return. *)
Theorem X16_load_pdf_timeout_leaves_copy pdf_file_name system_prompt username c ap :
  let user_dir := user_dir_of username in
  let dest_path := path_join user_dir (path_basename pdf_file_name) in
  let copied := with_upload (world ap) username dest_path c in
  upload_ready ap username pdf_file_name c ->
  (forall d e,
     extract_pdf_content (files copied) dest_path = Ends d e ->
     EXTRACT_TIMEOUT < d ->
     load_pdf (Some pdf_file_name) system_prompt username ap
     = (Ok (None, None, timeout_message), App copied (USERS ap) (entropy ap)))
  /\ (extract_pdf_content (files copied) dest_path = NeverEnds ->
      load_pdf (Some pdf_file_name) system_prompt username ap
      = (NoReturn, App copied (USERS ap) (entropy ap)))
  /\ files copied = <[dest_path := c]> (files (world ap))
  /\ user_db copied = user_db (world ap).
Proof.
  intros user_dir dest_path copied (Huser & Hfile & Hnodir & Hneq & Hsame).
  split; [|split; [|done]].
  - intros d e Hrun Hlate.
    rewrite (load_pdf_steps pdf_file_name system_prompt username c ap) by done.
    fold user_dir dest_path copied.
    by rewrite (process_pdf_timeout dest_path user_dir EXTRACT_TIMEOUT _ d e Hrun Hlate).
  - intros Hrun.
    rewrite (load_pdf_steps pdf_file_name system_prompt username c ap) by done.
    fold user_dir dest_path copied.
    by rewrite (process_pdf_never_ends dest_path user_dir EXTRACT_TIMEOUT _ Hrun).
Qed.

End Upload.

(* ===================================================================== *)
(** ** Deleting *)
(* ===================================================================== *)

Section Delete.

Context `{Externals} `{AppExternals}.

Local Open Scope app_scope.

Lemma set_files_delete_absent p st :
  files st !! p = None -> set_files (delete p) st = st.
Proof.
  intros Hp. destruct st as [fs ds hp db]. unfold set_files. cbn in *.
  by rewrite delete_id.
Qed.

(** Whatever is at [p], a regular file, a directory or nothing, after
    the guarded removal there is no regular file at [p], and nothing else
    has changed. *)
Lemma remove_cached_cons p rest st :
  remove_cached (p :: rest) st = remove_cached rest (set_files (delete p) st).
Proof.
  cbn [remove_cached]. unfold bind at 1, path_exists.
  destruct (files st !! p) as [c|] eqn:Hp.
  - rewrite bool_decide_eq_true_2 by (left; apply elem_of_dom; eauto).
    unfold bind at 1, try_except, remove_file. by rewrite Hp.
  - rewrite set_files_delete_absent by done.
    destruct (bool_decide _).
    + unfold bind at 1, try_except, remove_file. rewrite Hp.
      cbn [is_OSError]. unfold str_eqb at 1.
      by rewrite bool_decide_eq_true_2.
    + by unfold bind at 1.
Qed.

Lemma remove_cached_two p q st :
  remove_cached [p; q] st = (Ok tt, set_files (fun fs => delete q (delete p fs)) st).
Proof. by rewrite !remove_cached_cons. Qed.

Lemma list_remove_absent x l : x ∉ l -> list_remove x l = l.
Proof.
  induction l as [|y l IH]; [done|]. intros Hx. cbn [list_remove].
  unfold str_eqb. rewrite bool_decide_eq_false_2.
  - rewrite IH; [done|]. intros Hin. apply Hx. by right.
  - intros ->. apply Hx. by left.
Qed.

Lemma list_remove_NoDup x l :
  NoDup l ->
  (x ∉ list_remove x l)
  /\ (forall y, y <> x -> y ∈ list_remove x l <-> y ∈ l).
Proof.
  induction 1 as [|y l Hy Hl IH]; [split; [apply not_elem_of_nil | done]|].
  cbn [list_remove]. unfold str_eqb. case_bool_decide as Heq.
  - subst y. split; [done|]. intros z Hz. rewrite elem_of_cons. tauto.
  - destruct IH as [IH1 IH2]. split.
    + rewrite elem_of_cons. intros [->|Hin]; [done | by apply IH1].
    + intros z Hz. rewrite !elem_of_cons, IH2 by done. done.
Qed.

Lemma list_remove_add_once x l : x ∉ l -> list_remove x (add_once x l) = l.
Proof.
  intros Hx. unfold add_once, str_in. rewrite bool_decide_eq_false_2 by done.
  induction l as [|y l IH]; cbn [List.app list_remove].
  - unfold str_eqb. by rewrite bool_decide_eq_true_2.
  - unfold str_eqb. rewrite bool_decide_eq_false_2.
    + rewrite IH; [done|]. intros Hin. apply Hx. by right.
    + intros ->. apply Hx. by left.
Qed.

Lemma user_uploads_db_without st username pdf_path fs ds hp :
  user_uploads (State fs ds hp (db_without st username pdf_path)) username
  = list_remove pdf_path (user_uploads st username).
Proof.
  unfold user_uploads, db_without. cbn [user_db].
  destruct (user_db st !! username) as [u|] eqn:Hu.
  - by rewrite lookup_insert_eq.
  - by rewrite Hu.
Qed.

Lemma db_without_other st username pdf_path u :
  u <> username -> db_without st username pdf_path !! u = user_db st !! u.
Proof.
  intros Hu. unfold db_without. destruct (user_db st !! username); [|done].
  by rewrite lookup_insert_ne.
Qed.

(** A successful [delete_cached_pdf], in full. *)
Lemma delete_cached_pdf_success selected_name username c ap :
  let user_dir := user_dir_of username in
  let pdf_path := path_join user_dir selected_name in
  let paths := _cache_paths user_dir (path_splitext_root selected_name) in
  truthy username = true -> truthy selected_name = true ->
  files (world ap) !! pdf_path = Some c ->
  let uploads' := list_remove pdf_path (user_uploads (world ap) username) in
  let db' := db_without (world ap) username pdf_path in
  delete_cached_pdf selected_name username ap
  = (Ok (None, None,
         GrUpdate None (Some (head (map path_basename uploads')))
           (Some (map path_basename uploads')),
         py "Deleted " ++ selected_name),
     App (State
            (<[USER_DB_PATH := user_db_dump db']>
               (delete (snd paths) (delete (fst paths)
                  (delete pdf_path (files (world ap))))))
            ({[user_dir]} ∪ dirs (world ap)) (heap (world ap)) db')
         (USERS ap) (entropy ap)).
Proof.
  intros user_dir pdf_path paths Huser Hname Hfile uploads' db'.
  unfold delete_cached_pdf. rewrite Huser, Hname. cbn [negb].
  unfold bindA at 1, in_world at 1, ensure_user_dir, bind, makedirs, ret.
  fold (user_dir_of username). fold user_dir. fold pdf_path.
  unfold bindA at 1, in_world at 1, path_exists. cbn [world files set_dirs].
  rewrite bool_decide_eq_true_2 by (left; apply elem_of_dom; eauto).
  cbn [negb].
  unfold bindA at 1, try_exceptA, bindA at 1, in_world at 1, remove_file.
  cbn [world files set_dirs]. rewrite Hfile. cbn [USERS entropy].
  unfold retA at 1.
  unfold _cache_paths. unfold bindA at 1, in_world at 1. cbn [world].
  rewrite remove_cached_two. cbn [USERS entropy].
  unfold bindA at 1. cbn [world USERS entropy].
  assert (Hup : (if str_in pdf_path (user_uploads (world ap) username)
                 then list_remove pdf_path (user_uploads (world ap) username)
                 else user_uploads (world ap) username) = uploads').
  { subst uploads'. unfold str_in. case_bool_decide; [done|].
    by rewrite list_remove_absent. }
  change (user_uploads (set_files _ (set_files _ (set_dirs _ (world ap)))) username)
    with (user_uploads (world ap) username).
  rewrite Hup.
  unfold bindA at 1, _save_user_db, in_world, write_file.
  cbn [world USERS entropy user_db set_user_db set_files set_dirs files dirs heap].
  unfold retA. cbn [default]. subst db' uploads'. unfold db_without, user_uploads.
  destruct (user_db (world ap) !! username) as [u|] eqn:Hu;
    unfold set_user_db, set_files, set_dirs;
    cbn [user_db files dirs heap world]; rewrite Hu; reflexivity.
Qed.

(** X17. A successful [delete_cached_pdf] (the user is logged in and the
    PDF is a regular file) removes the PDF and both cache files, writes
    the database file and touches no other file; it takes the first
    entry for the PDF off the user's upload list, so a list without
    duplicates no longer holds it and keeps its other entries; it
    offers the base names of the entries left, and its message is
    "Deleted <name>" also when none is left; the other users and [USERS]
    are as before. *)
Theorem X17_delete_removes_pdf_and_cache selected_name username c ap :
  let user_dir := user_dir_of username in
  let pdf_path := path_join user_dir selected_name in
  let paths := _cache_paths user_dir (path_splitext_root selected_name) in
  truthy username = true -> truthy selected_name = true ->
  files (world ap) !! pdf_path = Some c ->
  exists dropdown ap',
    delete_cached_pdf selected_name username ap
    = (Ok (None, None, dropdown, py "Deleted " ++ selected_name), ap')
    /\ files (world ap')
       = <[USER_DB_PATH := user_db_dump (user_db (world ap'))]>
           (delete (snd paths) (delete (fst paths)
              (delete pdf_path (files (world ap)))))
    /\ user_uploads (world ap') username
       = list_remove pdf_path (user_uploads (world ap) username)
    /\ (NoDup (user_uploads (world ap) username) ->
        (pdf_path ∉ user_uploads (world ap') username)
        /\ forall p, p <> pdf_path ->
             p ∈ user_uploads (world ap') username
             <-> p ∈ user_uploads (world ap) username)
    /\ upd_choices dropdown
       = Some (map path_basename (user_uploads (world ap') username))
    /\ (forall u, u <> username ->
                  user_db (world ap') !! u = user_db (world ap) !! u)
    /\ USERS ap' = USERS ap.
Proof.
  intros user_dir pdf_path paths Huser Hname Hfile.
  rewrite (delete_cached_pdf_success selected_name username c ap Huser Hname Hfile).
  eexists _, _. split; [done|].
  cbn [world files user_db USERS upd_choices].
  rewrite user_uploads_db_without. fold user_dir pdf_path.
  split; [done|]. split; [done|].
  split; [apply list_remove_NoDup|]. split; [done|]. split; [|done].
  intros u Hu. by apply db_without_other.
Qed.

(** X18. After a successful [delete_cached_pdf] the PDF is gone for the
    application: provided the PDF is not a directory, nor the user's
    directory, and the database file is neither the PDF nor its sections
    file, [load_existing_pdf] answers "File not found." for it, and
    there is no cached index for it to load. *)
Theorem X18_deleted_pdf_is_not_found selected_name username c ap :
  let user_dir := user_dir_of username in
  let pdf_path := path_join user_dir selected_name in
  let paths := _cache_paths user_dir (path_splitext_root selected_name) in
  let ap' := snd (delete_cached_pdf selected_name username ap) in
  truthy username = true -> truthy selected_name = true ->
  files (world ap) !! pdf_path = Some c ->
  pdf_path ∉ dirs (world ap) -> pdf_path <> user_dir ->
  USER_DB_PATH <> pdf_path -> USER_DB_PATH <> fst paths ->
  fst (load_existing_pdf selected_name username (world ap'))
  = Ok (None, None, py "File not found.")
  /\ cached_index (files (world ap')) user_dir (path_splitext_root selected_name)
     = None.
Proof.
  intros user_dir pdf_path paths ap' Huser Hname Hfile Hnodir Hneq Hdb1 Hdb2.
  subst ap'.
  rewrite (delete_cached_pdf_success selected_name username c ap Huser Hname Hfile).
  cbn [snd world]. split.
  - unfold load_existing_pdf. rewrite Huser, Hname. cbn [negb].
    unfold ensure_user_dir, bind at 1, bind at 1, makedirs, ret.
    fold (user_dir_of username). fold user_dir. fold pdf_path.
    unfold bind at 1, path_exists. cbn [files dirs set_dirs].
    rewrite bool_decide_eq_false_2; [done|].
    intros [Hin|Hin].
    + apply elem_of_dom in Hin as [x Hx].
      rewrite lookup_insert_ne in Hx by done.
      rewrite !lookup_delete in Hx. by repeat case_decide.
    + rewrite !elem_of_union, elem_of_singleton in Hin. tauto.
  - subst paths. unfold cached_index, _cache_paths in *. cbn [fst snd files] in *.
    rewrite lookup_insert_ne by done.
    rewrite !lookup_delete. by repeat case_decide.
Qed.

End Delete.

(* ===================================================================== *)
(** ** Uploading, then deleting *)
(* ===================================================================== *)

Section UploadDelete.

Context `{Externals} `{AppExternals}.

(** X19. Uploading a PDF that is not on the user's list and deleting it
    again leaves the list as it was: after a successful [load_pdf],
    [delete_cached_pdf] on the base name of the upload succeeds, the
    user's upload list is the one before the upload, and the copy of the
    PDF is gone (the database file not being that copy). *)
Theorem X19_upload_then_delete pdf_file_name system_prompt username c ap
        sections chunk_index st :
  let user_dir := user_dir_of username in
  let name := path_basename pdf_file_name in
  let dest_path := path_join user_dir name in
  let ap1 := snd (load_pdf (Some pdf_file_name) system_prompt username ap) in
  let ap2 := snd (delete_cached_pdf name username ap1) in
  upload_ready ap username pdf_file_name c ->
  process_pdf dest_path user_dir EXTRACT_TIMEOUT
    (with_upload (world ap) username dest_path c)
  = (Ok (sections, chunk_index), st) ->
  truthy name = true ->
  dest_path ∉ user_uploads (world ap) username ->
  USER_DB_PATH <> dest_path ->
  (exists dropdown,
      fst (delete_cached_pdf name username ap1)
      = Ok (None, None, dropdown, py "Deleted " ++ name))
  /\ user_uploads (world ap2) username = user_uploads (world ap) username
  /\ files (world ap2) !! dest_path = None.
Proof.
  intros user_dir name dest_path ap1 ap2 Hready Hrun Hname Hfresh Hdb.
  pose proof Hready as (Huser & _).
  assert (Hap1 : exists fs rec,
            ap1 = App (set_files fs (set_user_db (insert username rec) st))
                      (USERS ap) (S (entropy ap))
            /\ uploads rec = add_once dest_path (user_uploads (world ap) username)
            /\ is_Some (files (set_files fs (set_user_db (insert username rec) st))
                          !! dest_path)).
  { subst ap1.
    rewrite (load_pdf_success _ system_prompt _ _ _ _ _ _ Hready Hrun). cbn [snd].
    eexists _, _. split; [done|]. cbn [uploads]. split.
    - unfold record_or_default, user_uploads.
      by destruct (user_db (world ap) !! username).
    - destruct (process_pdf_outcome dest_path user_dir EXTRACT_TIMEOUT
                  (with_upload (world ap) username dest_path c))
        as (r & st' & Heq & Hout).
      fold user_dir name dest_path in Hrun. rewrite Hrun in Heq.
      injection Heq as <- <-. destruct Hout as (Hfiles & _).
      cbn [files set_files set_user_db]. rewrite Hfiles.
      rewrite !lookup_insert_is_Some'. do 3 right.
      cbn [files with_upload set_files set_dirs]. rewrite lookup_insert_eq. eauto. }
  destruct Hap1 as (fs & rec & Hap1 & Hups & [c' Hfile]).
  assert (Hold : user_uploads (world ap1) username
                 = add_once dest_path (user_uploads (world ap) username)).
  { rewrite Hap1. unfold user_uploads at 1.
    cbn [world user_db set_files set_user_db]. by rewrite lookup_insert_eq. }
  assert (Hfile1 : files (world ap1) !! path_join (user_dir_of username) name = Some c').
  { by rewrite Hap1. }
  subst ap2.
  rewrite (delete_cached_pdf_success name username c' ap1 Huser Hname Hfile1).
  cbn [fst snd world files]. split; [by eexists|]. split.
  - rewrite user_uploads_db_without, Hold. by apply list_remove_add_once.
  - rewrite lookup_insert_ne by done.
    rewrite !lookup_delete. by repeat case_decide.
Qed.

End UploadDelete.

(* ===================================================================== *)
(** ** Splitting the model's text *)
(* ===================================================================== *)

Section Splitting.

Implicit Types (s sep cur piece : pystr).

Lemma startswith_app s sep : startswith s sep = true -> s = sep ++ drop (length sep) s.
Proof.
  revert s. induction sep as [|p sep IH]; intros s; [done|].
  destruct s as [|c s]; [done|]. cbn [startswith].
  intros [Hc Hrest]%andb_true_iff. apply N.eqb_eq in Hc as ->.
  cbn [length drop app]. f_equal. by apply IH.
Qed.

Lemma startswith_prefix sep t : startswith (sep ++ t) sep = true.
Proof.
  induction sep as [|p sep IH]; [by destruct t|]. cbn [startswith app].
  by rewrite N.eqb_refl.
Qed.

Lemma occurs_trans sep x s :
  occurs x s -> occurs sep x -> occurs sep s.
Proof.
  intros (a & b & ->) (a' & b' & ->). exists (a ++ a'), (b' ++ b).
  by rewrite <- !app_assoc.
Qed.

Lemma occurs_length sep s : occurs sep s -> (length sep <= length s)%nat.
Proof. intros (a & b & ->). rewrite !length_app. lia. Qed.

Lemma strip_occurs s : occurs (strip s) s.
Proof. destruct (strip_split s) as (l & r & Hs & _). by exists l, r. Qed.

Lemma no_early_free sep cur : sep <> [] -> no_early sep cur [] -> ~ occurs sep cur.
Proof.
  intros Hsep Hearly (a & b & Heq). specialize (Hearly a b).
  rewrite app_nil_r in Hearly. specialize (Hearly Heq).
  rewrite Heq, !length_app in Hearly. destruct sep; [done|]. simpl in Hearly. lia.
Qed.

(** No piece of a split holds the separator, and every piece is a part
    of the text. *)
Lemma split_fuel_pieces sep fuel : forall cur s,
  sep <> [] -> (length s <= fuel)%nat -> no_early sep cur s ->
  Forall (fun piece => ~ occurs sep piece /\ occurs piece (cur ++ s))
         (split_fuel fuel sep cur s).
Proof.
  induction fuel as [|fuel IH]; intros cur s Hsep Hlen Hearly.
  - destruct s; [|simpl in Hlen; lia]. cbn [split_fuel]. constructor; [|done].
    rewrite app_nil_r. split; [by apply no_early_free|]. exists [], [].
    by rewrite app_nil_r.
  - destruct s as [|c s'].
    { cbn [split_fuel]. constructor; [|done]. split; [by apply no_early_free|].
      exists [], []. by rewrite !app_nil_r. }
    cbn [split_fuel]. destruct (startswith (c :: s') sep) eqn:Hstart.
    + apply startswith_app in Hstart. constructor.
      * split.
        -- intros (a & b & Heq). specialize (Hearly a (b ++ c :: s')).
           rewrite Heq, <- !app_assoc in Hearly. specialize (Hearly eq_refl).
           rewrite !length_app in Hearly. destruct sep; [done|].
           simpl in Hearly. lia.
        -- by exists [], (c :: s').
      * eapply Forall_impl.
        -- apply IH; [done| |].
           ++ rewrite length_drop. destruct sep; [done|]. simpl in *. lia.
           ++ intros a b _. simpl. lia.
        -- intros piece [Hfree Hpart]. split; [done|].
           eapply occurs_trans; [|exact Hpart]. exists (cur ++ sep), [].
           rewrite app_nil_r, Hstart at 1. by rewrite <- app_assoc.
    + eapply Forall_impl.
      * apply (IH (cur ++ [c]) s'); [done|simpl in Hlen; lia|].
        intros a b Heq. rewrite <- app_assoc in Heq. cbn [app] in Heq.
        pose proof (Hearly a b Heq) as Hle. rewrite length_app. cbn [length].
        destruct (decide (length a = length cur)) as [Hsame|]; [|lia].
        exfalso. apply app_inj_1 in Heq as [_ Heq]; [|done].
        rewrite Heq, startswith_prefix in Hstart. done.
      * intros piece [Hfree Hpart]. split; [done|].
        by rewrite <- app_assoc in Hpart.
Qed.

Lemma split_pieces s sep :
  sep <> [] ->
  Forall (fun piece => ~ occurs sep piece /\ occurs piece s) (split s sep).
Proof.
  intros Hsep. apply (split_fuel_pieces sep (length s) [] s); [done..|].
  intros a b _. simpl. lia.
Qed.

(** A text without the separator is its own single piece. *)
Lemma split_fuel_whole sep fuel : forall cur s,
  ~ occurs sep s -> split_fuel fuel sep cur s = [cur ++ s].
Proof.
  induction fuel as [|fuel IH]; intros cur s Hfree; [done|].
  destruct s as [|c s']; [by rewrite app_nil_r|]. cbn [split_fuel].
  destruct (startswith (c :: s') sep) eqn:Hstart.
  - exfalso. apply Hfree. apply startswith_app in Hstart.
    by exists [], (drop (length sep) (c :: s')).
  - rewrite IH.
    + by rewrite <- app_assoc.
    + intros (a & b & ->). apply Hfree. by exists (c :: a), b.
Qed.

Lemma first_piece_split s sep :
  sep <> [] ->
  ~ occurs sep (first_piece (split s sep)) /\ occurs (first_piece (split s sep)) s.
Proof.
  intros Hsep. pose proof (split_pieces s sep Hsep) as Hall.
  unfold first_piece. destruct (split s sep) as [|p l]; cbn [head default].
  - split; [|by exists [], s]. intros Hocc. apply occurs_length in Hocc.
    destruct sep; [done|]. simpl in Hocc. lia.
  - by apply Forall_cons in Hall as [Hp _].
Qed.

Lemma last_piece_split s sep :
  sep <> [] ->
  ~ occurs sep (last_piece (split s sep)) /\ occurs (last_piece (split s sep)) s.
Proof.
  intros Hsep. pose proof (split_pieces s sep Hsep) as Hall.
  unfold last_piece. destruct (last (split s sep)) as [p|] eqn:Hlast; cbn [default].
  - rewrite Forall_forall in Hall. apply Hall. by eapply last_Some_elem_of.
  - split; [|by exists [], s]. intros Hocc. apply occurs_length in Hocc.
    destruct sep; [done|]. simpl in Hocc. lia.
Qed.

End Splitting.

Section Answers.

Context `{Externals} `{AppExternals}.

Implicit Types (s sep cur piece : pystr).

Lemma split_fuel_last sep fuel : forall cur s,
  exists piece, last (split_fuel fuel sep cur s) = Some piece /\
    (piece = cur ++ s \/ exists pre, cur ++ s = pre ++ sep ++ piece).
Proof.
  induction fuel as [|fuel IH]; intros cur s.
  - exists (cur ++ s). split; [done|by left].
  - destruct s as [|c s'].
    { exists cur. split; [done|]. left. by rewrite app_nil_r. }
    cbn [split_fuel]. destruct (startswith (c :: s') sep) eqn:Hstart.
    + apply startswith_app in Hstart.
      destruct (IH [] (drop (length sep) (c :: s'))) as (piece & Hlast & Hpiece).
      exists piece. split.
      * destruct (split_fuel fuel sep [] (drop (length sep) (c :: s'))); [done|].
        by rewrite last_cons_cons.
      * right. destruct Hpiece as [->|(pre & Hpre)].
        -- exists cur. cbn [app]. by rewrite <- Hstart.
        -- exists (cur ++ sep ++ pre). cbn [app] in Hpre.
           rewrite Hstart at 1. rewrite Hpre. by rewrite <- !app_assoc.
    + destruct (IH (cur ++ [c]) s') as (piece & Hlast & Hpiece).
      exists piece. split; [done|]. by rewrite <- app_assoc in Hpiece.
Qed.

Lemma split_fuel_first sep fuel : forall cur s,
  exists piece, head (split_fuel fuel sep cur s) = Some piece /\
    (piece = cur ++ s \/ exists post, cur ++ s = piece ++ sep ++ post).
Proof.
  induction fuel as [|fuel IH]; intros cur s.
  - exists (cur ++ s). split; [done|by left].
  - destruct s as [|c s'].
    { exists cur. split; [done|]. left. by rewrite app_nil_r. }
    cbn [split_fuel]. destruct (startswith (c :: s') sep) eqn:Hstart.
    + apply startswith_app in Hstart. exists cur. split; [done|]. right.
      exists (drop (length sep) (c :: s')). by rewrite <- Hstart.
    + destruct (IH (cur ++ [c]) s') as (piece & Hhead & Hpiece).
      exists piece. split; [done|]. by rewrite <- app_assoc in Hpiece.
Qed.

Lemma last_piece_cut_after s sep :
  sep <> [] -> cut_after sep s (last_piece (split s sep)).
Proof.
  intros Hsep. destruct (last_piece_split s sep Hsep) as [Hfree _].
  split; [done|].
  destruct (split_fuel_last sep (length s) [] s) as (piece & Hlast & Hpiece).
  unfold last_piece, split in *. rewrite Hlast in *. cbn [default app] in *.
  destruct Hpiece as [->|Hpre]; [by left|by right].
Qed.

Lemma first_piece_cut_before s sep :
  sep <> [] -> cut_before sep s (first_piece (split s sep)).
Proof.
  intros Hsep. destruct (first_piece_split s sep Hsep) as [Hfree _].
  split; [done|].
  destruct (split_fuel_first sep (length s) [] s) as (piece & Hhead & Hpiece).
  unfold first_piece, split in *. rewrite Hhead in *. cbn [default app] in *.
  destruct Hpiece as [->|Hpost]; [by left|by right].
Qed.

Lemma finish_answer_free answer :
  let '(a, r) := finish_answer answer in
  ~ occurs (py "=== Answer ===") a /\ strip a = a /\
  ~ occurs (py "=== Document Context ===") r /\
  ~ occurs (py "=== User Question ===") r /\ strip r = r.
Proof.
  unfold finish_answer. change (replace (replace (replace answer _ _) _ _) _ _)
    with (without_tokens answer).
  set (t := without_tokens answer).
  split; [|split; [|split; [|split]]]; try apply strip_idemp.
  - intros Hocc. eapply (proj1 (last_piece_split t (py "=== Answer ===") _)).
    eapply occurs_trans; [apply strip_occurs|exact Hocc].
  - intros Hocc. eapply (proj1 (last_piece_split _ (py "=== Document Context ===") _)).
    eapply occurs_trans; [apply strip_occurs|exact Hocc].
  - intros Hocc.
    eapply (proj1 (first_piece_split t (py "=== User Question ===") _)).
    eapply occurs_trans; [apply strip_occurs|].
    eapply occurs_trans;
      [apply (last_piece_split _ (py "=== Document Context ===")); discriminate|].
    eapply occurs_trans; [apply strip_occurs|exact Hocc].
  Unshelve. all: discriminate.
Qed.

(** X20. When a user is logged in and an index is loaded, and the chat
    bot returns a text, [ask_question] returns an answer and a reference
    and leaves the state alone; the answer holds no ["=== Answer ==="]
    marker, the reference holds neither a ["=== Document Context ==="]
    nor a ["=== User Question ==="] marker, and both are stripped of
    white space at their ends. *)
Theorem X20_ask_question_outputs_hold_no_marker
    question sections chunk_index system_prompt username use_index st answer :
  truthy username = true ->
  chat_answer (map (deref (heap st)) sections) chunk_index
    (if truthy system_prompt then system_prompt else DEFAULT_PROMPT)
    question (negb use_index) = Returned answer ->
  exists a r,
    ask_question question (Some sections) (Some chunk_index) system_prompt
      username use_index st = (Ok (Answered a r), st) /\
    ~ occurs (py "=== Answer ===") a /\ strip a = a /\
    ~ occurs (py "=== Document Context ===") r /\
    ~ occurs (py "=== User Question ===") r /\ strip r = r.
Proof.
  intros Huser Hbot. pose proof (finish_answer_free answer) as Hfree.
  destruct (finish_answer answer) as [a r] eqn:Hfin. exists a, r.
  split; [|exact Hfree].
  unfold ask_question. rewrite Huser. cbn [negb].
  unfold bind, get_dicts, lift, ret. rewrite Hbot, Hfin. reflexivity.
Qed.

(** X21. The answer [ask_question] shows is, stripped, the marker-free
    text that follows an ["=== Answer ==="] marker of the model's text
    (all of the text when it has no such marker); the reference is,
    stripped, the marker-free text that follows a
    ["=== Document Context ==="] marker within the stripped part of the
    text that precedes a ["=== User Question ==="] marker and holds
    none. *)
Theorem X21_finish_answer_cuts_at_markers answer :
  exists tail head tail',
    cut_after (py "=== Answer ===") (without_tokens answer) tail /\
    cut_before (py "=== User Question ===") (without_tokens answer) head /\
    cut_after (py "=== Document Context ===") (strip head) tail' /\
    finish_answer answer = (strip tail, strip tail').
Proof.
  eexists _, _, _. split; [|split; [|split]]; [| | |reflexivity].
  - by apply last_piece_cut_after.
  - by apply first_piece_cut_before.
  - by apply last_piece_cut_after.
Qed.

End Answers.

Section Prepare.

Context `{Externals} `{AppExternals}.

Lemma login_and_prepare_known username password stored_hash ap :
  USERS ap !! username = Some stored_hash ->
  login_and_prepare username password ap
  = (Ok (if accepts stored_hash password
         then
           let ups := user_uploads (world ap) username in
           (true, username, py "Login successful.",
            GrUpdate (Some true) None None,
            GrUpdate None
              (Some (Some (default DEFAULT_PROMPT
                             (last (user_prompts (world ap) username))))) None,
            GrUpdate None (Some (path_basename <$> head ups))
              (Some (map path_basename ups)))
         else
           (false, [], py "Invalid credentials.",
            GrUpdate (Some false) None None,
            GrUpdate None (Some (Some DEFAULT_PROMPT)) None,
            GrUpdate None (Some None) (Some []))), ap).
Proof.
  intros Hsome. unfold login_and_prepare, bindA at 1.
  rewrite (login_known username password stored_hash ap Hsome).
  fold (accepts stored_hash password).
  destruct (accepts stored_hash password); [|done].
  by destruct (last (user_prompts (world ap) username)).
Qed.

(** X22. A login that is refused shows nothing of the account: for a
    known user whose password is not accepted, [login_and_prepare]
    returns no user name, hides the main area, offers the default prompt
    and an empty list of PDFs, whatever prompts and uploads the account
    holds, and changes nothing. *)
Theorem X22_refused_login_shows_nothing username password stored_hash ap :
  USERS ap !! username = Some stored_hash ->
  accepts stored_hash password = false ->
  login_and_prepare username password ap
  = (Ok (false, [], py "Invalid credentials.",
         GrUpdate (Some false) None None,
         GrUpdate None (Some (Some DEFAULT_PROMPT)) None,
         GrUpdate None (Some None) (Some [])), ap).
Proof.
  intros Hsome Hno.
  by rewrite (login_and_prepare_known username password stored_hash ap Hsome), Hno.
Qed.

(** X23. Uploading and logging in again. After a successful [load_pdf]
    the next accepted [login_and_prepare] of the user lists the base
    name of the uploaded PDF and selects the first PDF of the list. The
    prompt it restores is the prompt of the upload only when that prompt
    was not on the user's list before; a prompt used before, or an empty
    one, leaves the last prompt of the old list (the default prompt when
    there is none) as the one restored. *)
Theorem X23_upload_then_login pdf_file_name system_prompt username password
        stored_hash c ap sections chunk_index st :
  let user_dir := user_dir_of username in
  let dest_path := path_join user_dir (path_basename pdf_file_name) in
  let old_prompts := user_prompts (world ap) username in
  let ups := add_once dest_path (user_uploads (world ap) username) in
  upload_ready ap username pdf_file_name c ->
  process_pdf dest_path user_dir EXTRACT_TIMEOUT
    (with_upload (world ap) username dest_path c)
  = (Ok (sections, chunk_index), st) ->
  USERS ap !! username = Some stored_hash ->
  accepts stored_hash password = true ->
  exists ap',
    load_pdf (Some pdf_file_name) system_prompt username ap
    = (Ok (Some sections, Some chunk_index,
           py "Processed " ++ path_basename dest_path), ap')
    /\ login_and_prepare username password ap'
       = (Ok (true, username, py "Login successful.",
              GrUpdate (Some true) None None,
              GrUpdate None
                (Some (Some
                   (if truthy system_prompt
                       && negb (str_in system_prompt old_prompts)
                    then system_prompt
                    else default DEFAULT_PROMPT (last old_prompts)))) None,
              GrUpdate None (Some (path_basename <$> head ups))
                (Some (map path_basename ups))), ap')
    /\ path_basename dest_path ∈ map path_basename ups.
Proof.
  intros user_dir dest_path old_prompts ups Hready Hrun Hsome Hyes.
  rewrite (load_pdf_success _ system_prompt _ _ _ _ _ _ Hready Hrun).
  eexists. split; [done|].
  assert (Hup : uploads (record_or_default ap username)
                = user_uploads (world ap) username).
  { unfold record_or_default, user_uploads.
    by destruct (user_db (world ap) !! username). }
  assert (Hpr : prompts (record_or_default ap username) = old_prompts).
  { unfold record_or_default, old_prompts, user_prompts.
    by destruct (user_db (world ap) !! username). }
  split.
  - rewrite (login_and_prepare_known username password stored_hash) by done.
    rewrite Hyes. cbn [world].
    unfold user_uploads, user_prompts. cbn [user_db set_files set_user_db].
    rewrite lookup_insert_eq. cbn [uploads prompts]. rewrite Hup, Hpr.
    fold user_dir dest_path ups.
    destruct (truthy system_prompt && negb (str_in system_prompt old_prompts));
      [|done].
    by rewrite last_snoc.
  - apply list_elem_of_fmap. exists dest_path. split; [done|].
    unfold ups, add_once, str_in. case_bool_decide as Hin; [done|].
    apply elem_of_app. right. by apply list_elem_of_singleton.
Qed.

End Prepare.

(** X7 at work: one Section record and one chunk, saved and loaded. *)
Lemma X7_witness :
  exists st1 st2 ls,
    @_save_cache toy2 alice_dir (py "c") [1%positive] [toy_record 7] state2 = (Ok tt, st1)
    /\ @_load_cache toy2 alice_dir (py "c") st1 = (Ok (Some ls, Some [toy_record 7]), st2)
    /\ holds (heap st2) ls [toy_record 5].
Proof.
  assert (Hsave : @_save_cache toy2 alice_dir (py "c") [1%positive] [toy_record 7] state2
                  = (Ok tt, snd (@_save_cache toy2 alice_dir (py "c") [1%positive]
                                   [toy_record 7] state2)))
    by (vm_compute; reflexivity).
  destruct (@X7_save_then_load_cache toy2 alice_dir (py "c") [1%positive]
              [toy_record 5] [toy_record 7] state2
              (snd (@_save_cache toy2 alice_dir (py "c") [1%positive]
                      [toy_record 7] state2)))
    as (st2 & ls & Hload & Hholds & _).
  - repeat constructor.
  - vm_compute. reflexivity.
  - vm_compute. reflexivity.
  - vm_compute. discriminate.
  - exact Hsave.
  - eexists _, st2, ls. split; [exact Hsave|]. split; [exact Hload|exact Hholds].
Defined.

(** Saving into a directory that is not there raises, and the state is
    as it was. *)
Lemma save_cache_missing_directory :
  @_save_cache toy2 (py "data/user_uploads/nobody") (py "c") [] [] state0
  = (Raise (OtherException (py "FileNotFoundError")
              (py "data/user_uploads/nobody/c_sections.json")), state0).
Proof. vm_compute. reflexivity. Qed.

(** With a directory where the index file goes, [process_pdf] raises
    after it has written the sections file anew. *)
Lemma process_pdf_half_cache :
  let run := @process_pdf toy2 (py "data/user_uploads/alice/a.pdf") alice_dir
               EXTRACT_TIMEOUT state3 in
  fst run = Raise (OtherException (py "IsADirectoryError")
                     (py "data/user_uploads/alice/a_index.pkl"))
  /\ files state3 !! py "data/user_uploads/alice/a_sections.json" = Some [1]%N
  /\ files (snd run) !! py "data/user_uploads/alice/a_sections.json" = Some [1; 1]%N
  /\ files (snd run) !! py "data/user_uploads/alice/a_index.pkl"
     = files state3 !! py "data/user_uploads/alice/a_index.pkl".
Proof. repeat split; vm_compute; reflexivity. Qed.

(** X9 at work on the cache of [b.pdf] in [state1]. *)
Lemma X9_witness :
  exists ls st',
    @load_existing_pdf toy (py "b.pdf") alice state1
    = (Ok (Some ls, Some [toy_record 8], py "Loaded cached data for b.pdf"), st')
    /\ holds (heap st') ls [toy_record 5; toy_record 6].
Proof.
  destruct (@X9_load_existing_pdf_uses_cache toy state1 alice (py "b.pdf")
              [toy_record 5; toy_record 6] [toy_record 8])
    as (ls & st' & Hrun & Hholds & _).
  - vm_compute. reflexivity.
  - vm_compute. reflexivity.
  - left. apply elem_of_dom. exists (replicate 121 37%N). vm_compute. reflexivity.
  - vm_compute. reflexivity.
  - exists ls, st'. split; [exact Hrun|exact Hholds].
Defined.

(** X10 at work: [a.pdf] is processed, then served from its cache. *)
Lemma X10_witness :
  exists ls st2,
    @load_existing_pdf toy2 (py "a.pdf") alice
      (snd (@process_pdf toy2 (py "data/user_uploads/alice/a.pdf") alice_dir
              EXTRACT_TIMEOUT state0))
    = (Ok (Some ls, Some [toy_record 4], py "Loaded cached data for a.pdf"), st2)
    /\ holds (heap st2) ls [toy_record 1].
Proof.
  destruct (@X10_processed_pdf_is_served_from_cache toy2 state0 alice (py "a.pdf")
              [1%positive] [toy_record 4])
    as (ls & st2 & Hrun & Hholds & _).
  - vm_compute. reflexivity.
  - vm_compute. reflexivity.
  - left. apply elem_of_dom. exists [37; 80; 68; 70]%N. vm_compute. reflexivity.
  - vm_compute. reflexivity.
  - vm_compute. discriminate.
  - vm_compute. reflexivity.
  - vm_compute. reflexivity.
  - vm_compute. reflexivity.
  - exists ls, st2. split; [exact Hrun|exact Hholds].
Defined.

(** X11 at work: Bob, whom nobody knows, logs in. *)
Lemma X11_witness :
  exists ap',
    @login toy2 toy_app bob (py "pw") app0
    = (Ok (true, bob, py "New user created and logged in."), ap')
    /\ USERS ap' = <[bob := toy_hash 0 (py "pw")]> (USERS app0).
Proof.
  destruct (@X11_login_registers_unknown_user toy2 toy_app bob (py "pw") app0)
    as (ap' & Hrun & Husers & _).
  - vm_compute. reflexivity.
  - exists ap'. split; [exact Hrun|exact Husers].
Defined.

(** X12 at work: Bob comes back with the wrong password. *)
Lemma X12_witness :
  fst (@login toy2 toy_app bob (py "wrong")
         (snd (@login toy2 toy_app bob (py "pw") app0)))
  = Ok (false, [], py "Invalid credentials.").
Proof.
  rewrite (@X12_login_after_registration toy2 toy_app bob (py "pw") (py "wrong") app0).
  - vm_compute. reflexivity.
  - vm_compute. reflexivity.
  - vm_compute. reflexivity.
Defined.

(** X13 at work. *)
Lemma X13_witness :
  users_agree app0
  /\ exists r ap', @login toy2 toy_app bob (py "pw") app0 = (Ok r, ap')
                   /\ users_agree ap'.
Proof.
  assert (Hagree : users_agree app0) by (vm_compute; reflexivity).
  split; [exact Hagree|].
  destruct (@X13_login_keeps_accounts toy2 toy_app bob (py "pw") app0 Hagree)
    as (r & ap' & Hrun & Hagree' & _).
  exists r, ap'. split; [exact Hrun|exact Hagree'].
Defined.

(** Alice's upload of [/tmp/c.pdf] is ready, and processing its copy
    succeeds. *)
Lemma app1_upload_ready :
  @upload_ready toy2 app1 alice (py "/tmp/c.pdf") [37; 80]%N.
Proof.
  repeat split; try (vm_compute; reflexivity); vm_compute; discriminate.
Defined.

Lemma app1_late_upload_ready :
  @upload_ready toy2 app1 alice (py "/tmp/late.pdf") (replicate 121 37%N).
Proof.
  repeat split; try (vm_compute; reflexivity); vm_compute; discriminate.
Defined.

Lemma app1_processed :
  let st := @with_upload toy2 (world app1) alice
              (py "data/user_uploads/alice/c.pdf") [37; 80]%N in
  @process_pdf toy2 (py "data/user_uploads/alice/c.pdf") alice_dir EXTRACT_TIMEOUT st
  = (Ok ([1%positive], [toy_record 2]),
     snd (@process_pdf toy2 (py "data/user_uploads/alice/c.pdf") alice_dir
            EXTRACT_TIMEOUT st)).
Proof. vm_compute. reflexivity. Defined.

(** X14 at work: Alice uploads [/tmp/c.pdf]. *)
Lemma X14_witness :
  exists ap',
    @load_pdf toy2 toy_app (Some (py "/tmp/c.pdf")) (py "Be brief.") alice app1
    = (Ok (Some [1%positive], Some [toy_record 2], py "Processed c.pdf"), ap')
    /\ user_uploads (world ap') alice
       = [py "data/user_uploads/alice/a.pdf"; py "data/user_uploads/alice/b.pdf";
          py "data/user_uploads/alice/c.pdf"]
    /\ user_prompts (world ap') alice = [py "Be brief."].
Proof.
  destruct (@X14_load_pdf_records_upload_once toy2 toy_app (py "/tmp/c.pdf")
              (py "Be brief.") alice [37; 80]%N app1 [1%positive] [toy_record 2] _
              app1_upload_ready app1_processed)
    as (ap' & Hrun & Hups & _ & Hprs & _).
  exists ap'. split; [exact Hrun|]. split; [exact Hups|exact Hprs].
Defined.

(** X15 at work: the upload keeps Alice's password. *)
Lemma X15_witness :
  let ap' := snd (@load_pdf toy2 toy_app (Some (py "/tmp/c.pdf")) (py "Be brief.")
                    alice app1) in
  exists rec', user_db (world ap') !! alice = Some rec'
               /\ password rec' = py "$2b$hash".
Proof.
  destruct (@X15_load_pdf_and_accounts toy2 toy_app (py "/tmp/c.pdf")
              (py "Be brief.") alice [37; 80]%N app1 [1%positive] [toy_record 2] _
              app1_upload_ready app1_processed) as [Hknown _].
  destruct (Hknown (UserRecord (py "$2b$hash")
                      [py "data/user_uploads/alice/a.pdf";
                       py "data/user_uploads/alice/b.pdf"] []))
    as [Hrec _]; [vm_compute; reflexivity|].
  exact Hrec.
Defined.

(** X16 at work: the upload of [/tmp/late.pdf] times out. *)
Lemma X16_witness :
  fst (@load_pdf toy2 toy_app (Some (py "/tmp/late.pdf")) (py "Be brief.") alice app1)
  = Ok (None, None, timeout_message).
Proof.
  destruct (@X16_load_pdf_timeout_leaves_copy toy2 toy_app (py "/tmp/late.pdf")
              (py "Be brief.") alice (replicate 121 37%N) app1
              app1_late_upload_ready) as [Hends _].
  erewrite Hends; [reflexivity|vm_compute; reflexivity|vm_compute; reflexivity].
Defined.

(** X17 at work: Alice deletes [a.pdf]. *)
Lemma X17_witness :
  exists dropdown ap',
    @delete_cached_pdf toy2 toy_app (py "a.pdf") alice app0
    = (Ok (None, None, dropdown, py "Deleted a.pdf"), ap')
    /\ user_uploads (world ap') alice = [py "data/user_uploads/alice/b.pdf"].
Proof.
  destruct (@X17_delete_removes_pdf_and_cache toy2 toy_app (py "a.pdf") alice
              [37; 80; 68; 70]%N app0)
    as (dropdown & ap' & Hrun & _ & Hups & _); try (vm_compute; reflexivity).
  exists dropdown, ap'. split; [exact Hrun|exact Hups].
Defined.

(** X18 at work: after the deletion [a.pdf] is not found. *)
Lemma X18_witness :
  fst (@load_existing_pdf toy2 (py "a.pdf") alice
         (world (snd (@delete_cached_pdf toy2 toy_app (py "a.pdf") alice app0))))
  = Ok (None, None, py "File not found.").
Proof.
  refine (proj1 (@X18_deleted_pdf_is_not_found toy2 toy_app (py "a.pdf") alice
                   [37; 80; 68; 70]%N app0 _ _ _ _ _ _ _));
    try (vm_compute; reflexivity); vm_compute; discriminate.
Defined.

(** X19 at work: Alice uploads [/tmp/c.pdf] and deletes it again. *)
Lemma X19_witness :
  let ap1 := snd (@load_pdf toy2 toy_app (Some (py "/tmp/c.pdf")) (py "Be brief.")
                    alice app1) in
  let ap2 := snd (@delete_cached_pdf toy2 toy_app (py "c.pdf") alice ap1) in
  user_uploads (world ap2) alice = user_uploads (world app1) alice
  /\ files (world ap2) !! py "data/user_uploads/alice/c.pdf" = None.
Proof.
  destruct (@X19_upload_then_delete toy2 toy_app (py "/tmp/c.pdf")
              (py "Be brief.") alice [37; 80]%N app1 [1%positive] [toy_record 2] _
              app1_upload_ready app1_processed) as (_ & Hups & Hgone).
  - vm_compute. reflexivity.
  - intros Hin. apply list_elem_of_In in Hin. vm_compute in Hin.
    destruct Hin as [Hin|[Hin|[]]]; discriminate.
  - vm_compute. discriminate.
  - split; [exact Hups|exact Hgone].
Defined.

(** X20 at work: Alice asks a question. *)
Lemma X20_witness :
  exists a r,
    @ask_question toy_app (py "Why?") (Some []) (Some []) [] alice true state0
    = (Ok (Answered a r), state0)
    /\ strip a = a /\ strip r = r.
Proof.
  destruct (@X20_ask_question_outputs_hold_no_marker toy_app (py "Why?") [] []
              [] alice true state0 _ eq_refl eq_refl)
    as (a & r & Hrun & _ & Ha & _ & _ & Hr).
  exists a, r. split; [exact Hrun|]. split; [exact Ha|exact Hr].
Defined.

(** X22 at work: a wrong password for Alice. *)
Lemma X22_witness :
  fst (@login_and_prepare toy2 toy_app alice (py "guess") app0)
  = Ok (false, [], py "Invalid credentials.",
        GrUpdate (Some false) None None,
        GrUpdate None (Some (Some DEFAULT_PROMPT)) None,
        GrUpdate None (Some None) (Some [])).
Proof.
  rewrite (@X22_refused_login_shows_nothing toy2 toy_app alice (py "guess")
             (py "$2b$hash") app0).
  - reflexivity.
  - vm_compute. reflexivity.
  - vm_compute. reflexivity.
Defined.

(** X23 at work: Alice uploads [/tmp/c.pdf] and logs in again. *)
Lemma X23_witness :
  exists ap' main dropdown,
    @login_and_prepare toy2 toy_app alice (py "ash") ap'
    = (Ok (true, alice, py "Login successful.", main,
           GrUpdate None (Some (Some (py "Be brief."))) None, dropdown), ap')
    /\ upd_choices dropdown = Some [py "a.pdf"; py "b.pdf"; py "c.pdf"].
Proof.
  destruct (@X23_upload_then_login toy2 toy_app (py "/tmp/c.pdf") (py "Be brief.")
              alice (py "ash") (py "$2b$hash") [37; 80]%N app1 [1%positive]
              [toy_record 2] _ app1_upload_ready app1_processed)
    as (ap' & _ & Hlogin & _).
  - vm_compute. reflexivity.
  - vm_compute. reflexivity.
  - exists ap'. eexists _, _. split; [exact Hlogin|]. vm_compute. reflexivity.
Defined.
